(** * AIStudioToAPI: format converter and connection registry

    A shallow embedding of [src/handlers/formatConverter.js] (class
    [FormatConverter]) and [src/utils/connectionRegistry.js] (class
    [ConnectionRegistry]), with the properties of the specification
    stated over it.

    Layout: a small model of the JavaScript values the two classes
    manipulate (module [JS]), the converter (module [FormatConverter]),
    the message queue and the registry (modules [MessageQueue] and
    [ConnectionRegistry]), then the theorems. *)

From Stdlib Require Import ZArith Lia.
From stdpp Require Import base tactics option list strings gmap pretty.

Local Open Scope string_scope.
Local Open Scope Z_scope.

(* ===================================================================== *)
(** * JavaScript values *)
(* ===================================================================== *)

Module JS.

(** JSON-shaped values.  Objects keep their keys in insertion order, as
    JavaScript does.  Numbers are the integers: token counts, indices and
    timestamps are all the code computes with.  Below 2^53 in magnitude
    every integer is a double and the arithmetic of doubles is exact; from
    there on a sum is rounded as doubles round it (see [roundDouble]).
    [JNaN] is there so that [+] stays total.  Fractional numbers and the
    infinities are outside the model. *)
#[warnings="-register-all"]
Inductive JsVal : Type :=
| JUndefined
| JNull
| JBool (b : bool)
| JNum (n : Z)
| JNaN
| JStr (s : string)
| JArr (xs : list JsVal)
| JObj (fields : list (string * JsVal)).

(** A plain object, when the code is handed one by construction. *)
Definition JsObj : Type := list (string * JsVal).

(** Outcome of an expression that may raise. *)
Inductive Js (A : Type) : Type :=
| Ret (a : A)
| Throw (e : string).
Arguments Ret {A} a.
Arguments Throw {A} e.

(** Sequencing: the rest of the block runs only if the first statement
    did not raise. *)
Definition bind {A B} (m : Js A) (k : A -> Js B) : Js B :=
  match m with Ret a => k a | Throw e => Throw e end.

Notation "'let*' x := m 'in' k" := (bind m (fun x => k))
  (at level 10, x name, m at level 200, k at level 200, only parsing).
Notation "'let*' ' pat := m 'in' k" := (bind m (fun x => match x with pat => k end))
  (at level 10, pat pattern, m at level 200, k at level 200, only parsing).

(** [try { body } catch (e) { handler }] *)
Definition try_catch {A} (body : Js A) (handler : string -> A) : Js A :=
  match body with Ret a => Ret a | Throw e => Ret (handler e) end.

(** ToBoolean *)
Definition truthy (v : JsVal) : bool :=
  match v with
  | JUndefined | JNull | JNaN => false
  | JBool b => b
  | JNum n => negb (n =? 0)
  | JStr s => negb (String.eqb s "")
  | JArr _ | JObj _ => true
  end.

Definition nullish (v : JsVal) : bool :=
  match v with JUndefined | JNull => true | _ => false end.

(** [a || b] *)
Definition js_or (a b : JsVal) : JsVal := if truthy a then a else b.

(** [v === "s"] and [v === true] *)
Definition strictEqStr (v : JsVal) (s : string) : bool :=
  match v with JStr t => String.eqb t s | _ => false end.
Definition strictEqTrue (v : JsVal) : bool :=
  match v with JBool true => true | _ => false end.

Definition isString (v : JsVal) : bool :=
  match v with JStr _ => true | _ => false end.

(** Own-property lookup of an object, [undefined] when the key is absent. *)
Fixpoint assoc (k : string) (fs : JsObj) : JsVal :=
  match fs with
  | [] => JUndefined
  | (k', v) :: fs' => if String.eqb k k' then v else assoc k fs'
  end.

(** [o.k = v]: overwrite in place, or append a new key. *)
Fixpoint setProp (k : string) (v : JsVal) (fs : JsObj) : JsObj :=
  match fs with
  | [] => [(k, v)]
  | (k', v') :: fs' =>
      if String.eqb k k' then (k', v) :: fs' else (k', v') :: setProp k v fs'
  end.

(** [v.k] on a value that is known not to be [null]/[undefined].  None of
    the keys the code reads is a member of a built-in prototype, so a
    primitive or an array answers [undefined]. *)
Definition field (v : JsVal) (k : string) : JsVal :=
  match v with JObj fs => assoc k fs | _ => JUndefined end.

(** [v.k]: a TypeError on [null] and [undefined]. *)
Definition getProp (v : JsVal) (k : string) : Js JsVal :=
  if nullish v then Throw "TypeError" else Ret (field v k).

(** [v?.k] *)
Definition getOpt (v : JsVal) (k : string) : JsVal :=
  if nullish v then JUndefined else field v k.

(** [v?.[0]] *)
Definition index0 (v : JsVal) : JsVal :=
  match v with
  | JArr (x :: _) => x
  | JStr (String c _) => JStr (String c "")
  | JObj fs => assoc "0" fs
  | _ => JUndefined
  end.

(** ToString, as template literals, [+] and [join] apply it. *)
Fixpoint toString (v : JsVal) : string :=
  match v with
  | JUndefined => "undefined"
  | JNull => "null"
  | JBool true => "true"
  | JBool false => "false"
  | JNum n => pretty n
  | JNaN => "NaN"
  | JStr s => s
  | JArr xs =>
      String.concat ","
        (map (fun x => if nullish x then "" else toString x) xs)
  | JObj _ => "[object Object]"
  end.

(** [xs.join(sep)] *)
Definition arrayJoin (sep : string) (xs : list JsVal) : string :=
  String.concat sep (map (fun x => if nullish x then "" else toString x) xs).

(** ToNumber on the primitives that do not need parsing. *)
Definition toNumber (v : JsVal) : JsVal :=
  match v with
  | JNum n => JNum n
  | JBool true => JNum 1
  | JBool false => JNum 0
  | JNull => JNum 0
  | _ => JNaN
  end.

(** The double nearest to an integer: the integer itself while its
    magnitude takes at most 53 bits; beyond, the nearest integer with a
    53-bit significand, a tie going to the even significand.  (A magnitude
    beyond the largest double would give an infinity, which the model does
    not have.) *)
Definition roundDouble (z : Z) : Z :=
  let magnitude := Z.abs z in
  let ulp := Z.log2 magnitude - 52 in       (* exponent of the last place *)
  if ulp <=? 0 then z
  else
    let significand := Z.shiftr magnitude ulp in
    let rest := magnitude - Z.shiftl significand ulp in
    let half := Z.shiftl 1 (ulp - 1) in
    let significand :=
      if (half <? rest) || ((rest =? half) && Z.odd significand)
      then significand + 1 else significand in
    Z.sgn z * Z.shiftl significand ulp.

(** [a + b]: concatenation as soon as one side is (or converts to) a
    string, the addition of doubles otherwise. *)
Definition js_add (a b : JsVal) : JsVal :=
  let stringy v :=
    match v with JStr _ | JArr _ | JObj _ => true | _ => false end in
  if stringy a || stringy b then JStr (toString a ++ toString b)
  else match toNumber a, toNumber b with
       | JNum x, JNum y => JNum (roundDouble (x + y))
       | _, _ => JNaN
       end.

(** [xs.filter(f)], [xs.some(f)] and a mapping loop, for callbacks that
    may raise. *)
Fixpoint js_filter (f : JsVal -> Js bool) (xs : list JsVal) : Js (list JsVal) :=
  match xs with
  | [] => Ret []
  | x :: xs' =>
      let* b := f x in
      let* rest := js_filter f xs' in
      Ret (if b then x :: rest else rest)
  end.

Fixpoint js_some (f : JsVal -> Js bool) (xs : list JsVal) : Js bool :=
  match xs with
  | [] => Ret false
  | x :: xs' => let* b := f x in if b then Ret true else js_some f xs'
  end.

Fixpoint js_mapM {A B} (f : A -> Js B) (xs : list A) : Js (list B) :=
  match xs with
  | [] => Ret []
  | x :: xs' => let* y := f x in let* ys := js_mapM f xs' in Ret (y :: ys)
  end.

Fixpoint js_foldM {A B} (f : B -> A -> Js B) (acc : B) (xs : list A) : Js B :=
  match xs with
  | [] => Ret acc
  | x :: xs' => let* acc' := f acc x in js_foldM f acc' xs'
  end.

(** What the two classes take from the host: the JSON codec,
    [String.prototype.trim], the regular expression for base64 [data:]
    URIs of images (its two groups, mime type and payload, on a match) and
    the image download of the [try] block of [translateOpenAIToGoogle]
    (base64 data and mime type, [None] when the block raises). *)
Class Host : Type := {
  JSON_parse : string -> option JsVal;
  JSON_stringify : JsVal -> string;
  str_trim : string -> string;
  matchDataUrl : string -> option (string * string);
  downloadImage : string -> option (string * string);
}.

(** One reading of the clock and of the random source, per call. *)
Record Env : Type := {
  Date_now : Z;          (* Date.now(), milliseconds *)
  random36 : string;     (* Math.random().toString(36).substring(2, 15) *)
}.

End JS.
Import JS.

(* ===================================================================== *)
(** * The format converter ([src/handlers/formatConverter.js]) *)
(* ===================================================================== *)

Module FormatConverter.

(** The instance field the methods mutate: [this.streamUsage], the usage
    record cached while a stream is in flight ([null] when empty). *)
Record Converter : Type := { streamUsage : JsVal }.

(** The flags of [this.serverSystem] the converter reads. *)
Record ServerSystem : Type := {
  forceThinking : bool;
  forceWebSearch : bool;
  forceUrlContext : bool;
}.

(** ["\n"], and [s.substring(n)] *)
Definition newline : string := String (Ascii.ascii_of_nat 10) "".

Fixpoint str_drop (n : nat) (s : string) : string :=
  match n, s with
  | O, _ => s
  | S n', String _ s' => str_drop n' s'
  | S _, EmptyString => EmptyString
  end.

(** [_generateRequestId()] *)
Definition _generateRequestId (e : Env) : string :=
  pretty (Date_now e) ++ "_" ++ random36 e.

(** [`chatcmpl-${this._generateRequestId()}`] *)
Definition freshId (e : Env) : JsVal := JStr ("chatcmpl-" ++ _generateRequestId e).

(** [Math.floor(Date.now() / 1000)] *)
Definition nowSeconds (e : Env) : JsVal := JNum (Date_now e / 1000).

(** ** [_parseUsage] *)

(** The loop over [usage.candidatesTokensDetails]. *)
Definition imageStep (acc d : JsVal) : JsVal :=
  if strictEqStr (getOpt d "modality") "IMAGE"
  then js_add acc (js_or (field d "tokenCount") (JNum 0))
  else acc.

Definition _parseUsage (googleResponse : JsVal) : Js JsVal :=
  let* usageMetadata := getProp googleResponse "usageMetadata" in
  let usage := js_or usageMetadata (JObj []) in
  let inputTokens := js_or (field usage "promptTokenCount") (JNum 0) in
  let toolPromptTokens := js_or (field usage "toolUsePromptTokenCount") (JNum 0) in
  let completionTextTokens := js_or (field usage "candidatesTokenCount") (JNum 0) in
  let reasoningTokens := js_or (field usage "thoughtsTokenCount") (JNum 0) in
  let completionImageTokens :=
    match field usage "candidatesTokensDetails" with
    | JArr ds => fold_left imageStep ds (JNum 0)
    | _ => JNum 0
    end in
  let promptTokens := js_add inputTokens toolPromptTokens in
  let totalCompletionTokens := js_add completionTextTokens reasoningTokens in
  let totalTokens := js_or (getOpt usageMetadata "totalTokenCount") (JNum 0) in
  Ret (JObj [
    ("completion_tokens", totalCompletionTokens);
    ("completion_tokens_details", JObj [
       ("image_tokens", completionImageTokens);
       ("output_text_tokens", completionTextTokens);
       ("reasoning_tokens", reasoningTokens)]);
    ("prompt_tokens", promptTokens);
    ("prompt_tokens_details", JObj [
       ("text_tokens", inputTokens);
       ("tool_tokens", toolPromptTokens)]);
    ("total_tokens", totalTokens)]).

(** [`![Generated Image](data:${image.mimeType};base64,${image.data})`] *)
Definition imageMarkdown (image : JsVal) : string :=
  "![Generated Image](data:" ++ toString (field image "mimeType")
    ++ ";base64," ++ toString (field image "data") ++ ")".

(** [googleResponse.candidates?.[0]], once [googleResponse] is known not
    to be nullish. *)
Definition firstCandidate (googleResponse : JsVal) : JsVal :=
  let candidates := field googleResponse "candidates" in
  if nullish candidates then JUndefined else index0 candidates.

(** [candidate.content.parts] when the guard of the loop lets it run,
    no part otherwise. *)
Definition candidateParts (candidate : JsVal) : list JsVal :=
  if truthy (field candidate "content")
  then match field (field candidate "content") "parts" with
       | JArr ps => ps
       | _ => []
       end
  else [].

(** ** [convertGoogleToOpenAINonStream] *)

(** One turn of the loop over [candidate.content.parts]; the accumulator
    is [(content, reasoning_content)]. *)
Definition accumulatePart (acc : JsVal * JsVal) (part : JsVal) : Js (JsVal * JsVal) :=
  let '(content, reasoning_content) := acc in
  let* thought := getProp part "thought" in
  if strictEqTrue thought then
    Ret (content, js_add reasoning_content (js_or (field part "text") (JStr "")))
  else if truthy (field part "text") then
    Ret (js_add content (field part "text"), reasoning_content)
  else if truthy (field part "inlineData") then
    Ret (js_add content (JStr (imageMarkdown (field part "inlineData"))), reasoning_content)
  else Ret (content, reasoning_content).

Definition convertGoogleToOpenAINonStream
    (e : Env) (googleResponse : JsVal) (modelName : string) : Js JsVal :=
  let* _ := getProp googleResponse "candidates" in
  let candidate := firstCandidate googleResponse in
  if negb (truthy candidate) then
    Ret (JObj [
      ("choices", JArr [JObj [
         ("finish_reason", JStr "stop");
         ("index", JNum 0);
         ("message", JObj [("content", JStr ""); ("role", JStr "assistant")])]]);
      ("created", nowSeconds e);
      ("id", freshId e);
      ("model", JStr modelName);
      ("object", JStr "chat.completion");
      ("usage", JObj [
         ("completion_tokens", JNum 0);
         ("prompt_tokens", JNum 0);
         ("total_tokens", JNum 0)])])
  else
    let* '(content, reasoning_content) :=
      js_foldM accumulatePart (JStr "", JStr "") (candidateParts candidate) in
    let message := [("content", content); ("role", JStr "assistant")] in
    let message :=
      if truthy reasoning_content
      then setProp "reasoning_content" reasoning_content message
      else message in
    let* usage := _parseUsage googleResponse in
    Ret (JObj [
      ("choices", JArr [JObj [
         ("finish_reason", js_or (field candidate "finishReason") (JStr "stop"));
         ("index", JNum 0);
         ("message", JObj message)]]);
      ("created", nowSeconds e);
      ("id", freshId e);
      ("model", JStr modelName);
      ("object", JStr "chat.completion");
      ("usage", usage)]).

(** ** [translateOpenAIToGoogle] *)

(** [/^https?:\/\//] *)
Definition isHttpUrl (u : string) : bool :=
  String.prefix "http://" u || String.prefix "https://" u.

Definition inlineDataPart (data mimeType : string) : JsVal :=
  JObj [("inlineData", JObj [("data", JStr data); ("mimeType", JStr mimeType)])].

Section Outbound.
Context `{Host}.

(** What one element of an array-valued [message.content] pushes onto
    [googleParts]. *)
Definition convertContentPart (part : JsVal) : Js (list JsVal) :=
  let* type := getProp part "type" in
  if strictEqStr type "text" then
    Ret [JObj [("text", field part "text")]]
  else if strictEqStr type "image_url" && truthy (field part "image_url") then
    match field (field part "image_url") "url" with
    | JStr dataUrl =>
        match matchDataUrl dataUrl with
        | Some (mimeType, data) => Ret [inlineDataPart data mimeType]
        | None =>
            if isHttpUrl dataUrl then
              match downloadImage dataUrl with
              | Some (base64Data, mimeType) => Ret [inlineDataPart base64Data mimeType]
              | None =>
                  Ret [JObj [("text",
                    JStr ("[System Note: Failed to load image from " ++ dataUrl ++ "]"))]]
              end
            else Ret []
        end
    | _ => Throw "TypeError"     (* dataUrl.match is not callable *)
    end
  else Ret [].

(** The body of the loop over [conversationMessages]: the entry pushed
    onto [googleContents]. *)
Definition convertMessage (message : JsVal) : Js JsVal :=
  let* content := getProp message "content" in
  let* googleParts :=
    match content with
    | JStr _ => Ret [JObj [("text", content)]]
    | JArr parts =>
        let* pushed := js_mapM convertContentPart parts in Ret (concat pushed)
    | _ => Ret []
    end in
  Ret (JObj [
    ("parts", JArr googleParts);
    ("role", JStr (if strictEqStr (field message "role") "assistant"
                   then "model" else "user"))]).

End Outbound.

(** The resolution of [thinkingConfig]; [JNull] stands for the initial
    [let thinkingConfig = null]. *)
Definition rawThinkingConfig (openaiBody : JsVal) : JsVal :=
  let extraBody := js_or (field openaiBody "extra_body") (JObj []) in
  js_or (getOpt (field extraBody "google") "thinking_config")
  (js_or (getOpt (field extraBody "google") "thinkingConfig")
  (js_or (field extraBody "thinkingConfig")
  (js_or (field extraBody "thinking_config")
  (js_or (field openaiBody "thinkingConfig")
         (field openaiBody "thinking_config"))))).

Definition reasoningEffort (openaiBody : JsVal) : JsVal :=
  let extraBody := js_or (field openaiBody "extra_body") (JObj []) in
  js_or (field openaiBody "reasoning_effort") (field extraBody "reasoning_effort").

Definition resolveThinkingConfig (sys : ServerSystem) (openaiBody : JsVal) : JsVal :=
  let raw := rawThinkingConfig openaiBody in
  let thinkingConfig := JNull in
  let thinkingConfig :=
    if truthy raw then
      if negb (match field raw "include_thoughts" with JUndefined => true | _ => false end)
      then JObj [("includeThoughts", field raw "include_thoughts")]
      else if negb (match field raw "includeThoughts" with JUndefined => true | _ => false end)
      then JObj [("includeThoughts", field raw "includeThoughts")]
      else JObj []
    else thinkingConfig in
  (* Handle OpenAI reasoning_effort parameter *)
  let thinkingConfig :=
    if negb (truthy thinkingConfig) then
      if truthy (reasoningEffort openaiBody)
      then JObj [("includeThoughts", JBool true)]
      else thinkingConfig
    else thinkingConfig in
  (* Force thinking mode *)
  let thinkingConfig :=
    if forceThinking sys && negb (truthy thinkingConfig)
    then JObj [("includeThoughts", JBool true)]
    else thinkingConfig in
  thinkingConfig.

(** The block "Force web search and URL context", on the request object
    it mutates. *)
Definition hasTool (key : string) (tools : list JsVal) : Js bool :=
  js_some (fun t => let* v := getProp t key in Ret (truthy v)) tools.

Definition forceTool (enabled : bool) (key : string) (tools : list JsVal)
    : Js (list JsVal) :=
  if enabled then
    let* has := hasTool key tools in
    if negb has then Ret (tools ++ [JObj [(key, JObj [])]])%list else Ret tools
  else Ret tools.

Definition injectForcedTools (sys : ServerSystem) (googleRequest : JsObj) : Js JsObj :=
  if forceWebSearch sys || forceUrlContext sys then
    let googleRequest :=
      if negb (truthy (assoc "tools" googleRequest))
      then setProp "tools" (JArr []) googleRequest
      else googleRequest in
    match assoc "tools" googleRequest with
    | JArr tools =>
        let* tools := forceTool (forceWebSearch sys) "googleSearch" tools in
        let* tools := forceTool (forceUrlContext sys) "urlContext" tools in
        Ret (setProp "tools" (JArr tools) googleRequest)
    | _ => Throw "TypeError"     (* tools.some is not callable *)
    end
  else Ret googleRequest.

Definition safetySettings : JsVal :=
  JArr [
    JObj [("category", JStr "HARM_CATEGORY_HARASSMENT"); ("threshold", JStr "BLOCK_NONE")];
    JObj [("category", JStr "HARM_CATEGORY_HATE_SPEECH"); ("threshold", JStr "BLOCK_NONE")];
    JObj [("category", JStr "HARM_CATEGORY_SEXUALLY_EXPLICIT"); ("threshold", JStr "BLOCK_NONE")];
    JObj [("category", JStr "HARM_CATEGORY_DANGEROUS_CONTENT"); ("threshold", JStr "BLOCK_NONE")]].

Section Translate.
Context `{Host}.

Definition isRole (r : string) (msg : JsVal) : Js bool :=
  let* role := getProp msg "role" in Ret (strictEqStr role r).

Definition isNotRole (r : string) (msg : JsVal) : Js bool :=
  let* role := getProp msg "role" in Ret (negb (strictEqStr role r)).

(** The request object the method returns.  Its first statement empties
    the usage cache: see [translateOpenAIToGoogle] below. *)
Definition buildGoogleRequest (sys : ServerSystem) (openaiBody : JsVal) : Js JsVal :=
  let* messages := getProp openaiBody "messages" in
  match messages with
  | JArr messages =>
      (* Extract system messages *)
      let* systemMessages := js_filter (isRole "system") messages in
      let systemInstruction :=
        match systemMessages with
        | [] => JNull
        | _ =>
            let systemContent :=
              arrayJoin newline (map (fun msg => field msg "content") systemMessages) in
            JObj [("parts", JArr [JObj [("text", JStr systemContent)]]);
                  ("role", JStr "system")]
        end in
      (* Convert conversation messages *)
      let* conversationMessages := js_filter (isNotRole "system") messages in
      let* googleContents := js_mapM convertMessage conversationMessages in
      (* Build Google request *)
      let googleRequest : JsObj :=
        (("contents", JArr googleContents)
         :: (if truthy systemInstruction
             then [("systemInstruction",
                    JObj [("parts", field systemInstruction "parts")])]
             else []))%list in
      (* Generation config *)
      let generationConfig : JsObj := [
        ("maxOutputTokens", field openaiBody "max_tokens");
        ("stopSequences", field openaiBody "stop");
        ("temperature", field openaiBody "temperature");
        ("topK", field openaiBody "top_k");
        ("topP", field openaiBody "top_p")] in
      (* Handle thinking config *)
      let thinkingConfig := resolveThinkingConfig sys openaiBody in
      let generationConfig :=
        if truthy thinkingConfig
        then setProp "thinkingConfig" thinkingConfig generationConfig
        else generationConfig in
      let googleRequest :=
        setProp "generationConfig" (JObj generationConfig) googleRequest in
      (* Force web search and URL context *)
      let* googleRequest := injectForcedTools sys googleRequest in
      (* Safety settings *)
      let googleRequest := setProp "safetySettings" safetySettings googleRequest in
      Ret (JObj googleRequest)
  | _ => Throw "TypeError"     (* messages.filter is not callable *)
  end.

Definition translateOpenAIToGoogle (sys : ServerSystem) (self : Converter)
    (openaiBody : JsVal) : Js JsVal * Converter :=
  (buildGoogleRequest sys openaiBody, {| streamUsage := JNull |}).

End Translate.

(** ** [translateGoogleToOpenAIStream] *)

Definition contentChunk (delta : JsObj) (created streamId : JsVal) (modelName : string) : JsVal :=
  JObj [
    ("choices", JArr [JObj [
       ("delta", JObj delta);
       ("finish_reason", JNull);
       ("index", JNum 0)]]);
    ("created", created);
    ("id", streamId);
    ("model", JStr modelName);
    ("object", JStr "chat.completion.chunk")].

(** The chunk synthesised for a [promptFeedback] without candidate. *)
Definition blockedChunk (errorText : string) (created streamId : JsVal) (modelName : string) : JsVal :=
  JObj [
    ("choices", JArr [JObj [
       ("delta", JObj [("content", JStr errorText)]);
       ("finish_reason", JStr "stop");
       ("index", JNum 0)]]);
    ("created", created);
    ("id", streamId);
    ("model", JStr modelName);
    ("object", JStr "chat.completion.chunk")].

(** [finalResponse], with its [usage] key already set to [usage]. *)
Definition finalChunk (finishReason usage created streamId : JsVal) (modelName : string) : JsVal :=
  JObj [
    ("choices", JArr [JObj [
       ("delta", JObj []);
       ("finish_reason", finishReason);
       ("index", JNum 0)]]);
    ("created", created);
    ("id", streamId);
    ("model", JStr modelName);
    ("object", JStr "chat.completion.chunk");
    ("usage", usage)].

(** The [delta] a part gives rise to, before the role is decided, and
    whether the part sets [streamState.inThought]; [None] when
    [hasContent] stays false. *)
Definition partDelta (part : JsVal) : option (JsObj * bool) :=
  if strictEqTrue (field part "thought") then
    if truthy (field part "text")
    then Some ([("reasoning_content", field part "text")], true)
    else None
  else if truthy (field part "text") then
    Some ([("content", field part "text")], false)
  else if truthy (field part "inlineData") then
    Some ([("content", JStr (imageMarkdown (field part "inlineData")))], false)
  else None.

(** One turn of the loop over [candidate.content.parts]; the accumulator
    is [(streamState, chunksToSend)], the chunks not yet serialised. *)
Definition partStep (created streamId : JsVal) (modelName : string)
    (acc : option JsObj * list JsVal) (part : JsVal) : Js (option JsObj * list JsVal) :=
  let '(streamState, chunksToSend) := acc in
  let* _ := getProp part "thought" in
  match partDelta part with
  | None => Ret (streamState, chunksToSend)
  | Some (delta, thought) =>
      let streamState :=
        if thought then setProp "inThought" (JBool true) <$> streamState
        else streamState in
      let '(delta, streamState) :=
        match streamState with
        | Some st =>
            if negb (truthy (assoc "roleSent" st))
            then ((delta ++ [("role", JStr "assistant")])%list,
                  Some (setProp "roleSent" (JBool true) st))
            else (delta, Some st)
        | None => (delta, None)
        end in
      Ret (streamState,
           (chunksToSend ++ [contentChunk delta created streamId modelName])%list)
  end.

(** [if (!streamState.id) { streamState.id = ...; streamState.created = ... }] *)
Definition assignId (e : Env) (st : JsObj) : JsObj :=
  if negb (truthy (assoc "id" st))
  then setProp "created" (nowSeconds e) (setProp "id" (freshId e) st)
  else st.

(** The body of the method from the point where the fragment has been
    parsed.  The result lists the chunk objects in the order in which the
    method serialises them; the method returns their frames joined, or
    [null] for none.  When the body raises, what it had already written to
    [streamState] and [this] is not tracked. *)
Definition streamChunks (e : Env) (self : Converter) (googleResponse : JsVal)
    (modelName : string) (streamState : option JsObj)
    : Js (list JsVal * Converter * option JsObj) :=
  let streamState := assignId e <$> streamState in
  let streamId :=
    match streamState with Some st => assoc "id" st | None => freshId e end in
  let created :=
    match streamState with Some st => assoc "created" st | None => nowSeconds e end in
  (* Cache usage data whenever it arrives. *)
  let* usageMetadata := getProp googleResponse "usageMetadata" in
  let* self :=
    if truthy usageMetadata
    then let* u := _parseUsage googleResponse in Ret {| streamUsage := u |}
    else Ret self in
  let candidate := firstCandidate googleResponse in
  if negb (truthy candidate) then
    if truthy (field googleResponse "promptFeedback") then
      let errorText :=
        "[ProxySystem Error] Request blocked due to safety settings. Finish Reason: "
          ++ toString (field (field googleResponse "promptFeedback") "blockReason") in
      Ret ([blockedChunk errorText created streamId modelName], self, streamState)
    else Ret ([], self, streamState)
  else
    let* '(streamState, chunksToSend) :=
      js_foldM (partStep created streamId modelName) (streamState, [])
               (candidateParts candidate) in
    if truthy (field candidate "finishReason") then
      let finishReason := field candidate "finishReason" in
      if truthy (streamUsage self) then
        Ret ((chunksToSend
                ++ [finalChunk finishReason (streamUsage self) created streamId modelName])%list,
             {| streamUsage := JNull |}, streamState)
      else
        Ret ((chunksToSend
                ++ [finalChunk finishReason JNull created streamId modelName])%list,
             self, streamState)
    else Ret (chunksToSend, self, streamState).

Section WithHost.
Context `{Host}.

(** [`data: ${JSON.stringify(chunk)}\n\n`] *)
Definition frame (chunk : JsVal) : string :=
  "data: " ++ JSON_stringify chunk ++ newline ++ newline.

(** [!googleChunk || googleChunk.trim() === ""] *)
Definition isBlank (googleChunk : string) : bool :=
  String.eqb googleChunk "" || String.eqb (str_trim googleChunk) "".

(** The text handed to [JSON.parse]: the chunk without its ["data: "]
    prefix, if it has one. *)
Definition jsonStringOf (googleChunk : string) : string :=
  if String.prefix "data: " googleChunk
  then str_trim (str_drop 6 googleChunk)
  else googleChunk.

Definition translateGoogleToOpenAIStream (e : Env) (self : Converter)
    (googleChunk : string) (modelName : string) (streamState : option JsObj)
    : Js (option string * Converter * option JsObj) :=
  if isBlank googleChunk then
    Ret (None, self, streamState)
  else
    let jsonString := jsonStringOf googleChunk in
    if String.eqb jsonString "[DONE]" then
      Ret (Some ("data: [DONE]" ++ newline ++ newline), self, streamState)
    else
      match JSON_parse jsonString with
      | None => Ret (None, self, streamState)
      | Some googleResponse =>
          let* '(chunks, self, streamState) :=
            streamChunks e self googleResponse modelName streamState in
          Ret (match chunks with
               | [] => None
               | _ => Some (String.concat "" (map frame chunks))
               end, self, streamState)
      end.

End WithHost.

End FormatConverter.
Import FormatConverter.

(* ===================================================================== *)
(** * The message queue *)
(* ===================================================================== *)

Module MessageQueue.

(** Modelled from the spec: the class [MessageQueue]
    ([src/utils/messageQueue.js]), which the registry instantiates and
    calls but whose source is not part of the repository snapshot.
    Section 4.1 of the specification: "[enqueue(event)] appends an event
    if OPEN, else is a no-op; [...] [close()] is idempotent, transitions to
    CLOSED".  Only the two operations the registry calls are needed. *)
Record t : Type := { messages : list JsVal; closed : bool }.

Definition new : t := {| messages := []; closed := false |}.

Definition enqueue (event : JsVal) (q : t) : t :=
  if closed q then q
  else {| messages := messages q ++ [event]; closed := false |}.

Definition close (q : t) : t := {| messages := messages q; closed := true |}.

End MessageQueue.

(* ===================================================================== *)
(** * The connection registry ([src/utils/connectionRegistry.js]) *)
(* ===================================================================== *)

Module ConnectionRegistry.

(** Events emitted through [EventEmitter.emit]. *)
Inductive Emitted : Type :=
| connectionAdded (websocket : nat)
| connectionRemoved (websocket : nat)
| connectionLost.

(** Lines handed to [this.logger], by level. *)
Inductive LogLine : Type :=
| info (msg : string)
| warn (msg : string)
| error (msg : string).

(** The fields of the registry, followed by the part of the world its
    methods act on: the queue objects (shared with the request handlers
    that drain them, hence kept in a store and referred to by identity),
    the timers of the event loop that are still pending, and the two
    output channels.  Websockets, queues and timers are named by
    numbers. *)
Record Registry : Type := {
  connections : list nat;                  (* Set, in insertion order *)
  messageQueues : gmap string nat;         (* Map: request id -> queue *)
  reconnectGraceTimer : option nat;        (* timer handle or null *)
  queueStore : gmap nat MessageQueue.t;
  nextQueue : nat;
  pendingTimers : gset nat;
  nextTimer : nat;
  emitted : list Emitted;
  logged : list LogLine;
}.

(** The state after [new ConnectionRegistry(logger)]. *)
Definition initial : Registry := {|
  connections := [];
  messageQueues := ∅;
  reconnectGraceTimer := None;
  queueStore := ∅;
  nextQueue := 0;
  pendingTimers := ∅;
  nextTimer := 0;
  emitted := [];
  logged := [];
|}.

Definition log (l : LogLine) (r : Registry) : Registry := {|
  connections := connections r;
  messageQueues := messageQueues r;
  reconnectGraceTimer := reconnectGraceTimer r;
  queueStore := queueStore r;
  nextQueue := nextQueue r;
  pendingTimers := pendingTimers r;
  nextTimer := nextTimer r;
  emitted := emitted r;
  logged := logged r ++ [l];
|}.

Definition emit (ev : Emitted) (r : Registry) : Registry := {|
  connections := connections r;
  messageQueues := messageQueues r;
  reconnectGraceTimer := reconnectGraceTimer r;
  queueStore := queueStore r;
  nextQueue := nextQueue r;
  pendingTimers := pendingTimers r;
  nextTimer := nextTimer r;
  emitted := emitted r ++ [ev];
  logged := logged r;
|}.

Definition withConnections (cs : list nat) (r : Registry) : Registry := {|
  connections := cs;
  messageQueues := messageQueues r;
  reconnectGraceTimer := reconnectGraceTimer r;
  queueStore := queueStore r;
  nextQueue := nextQueue r;
  pendingTimers := pendingTimers r;
  nextTimer := nextTimer r;
  emitted := emitted r;
  logged := logged r;
|}.

Definition withQueues (m : gmap string nat) (st : gmap nat MessageQueue.t)
    (r : Registry) : Registry := {|
  connections := connections r;
  messageQueues := m;
  reconnectGraceTimer := reconnectGraceTimer r;
  queueStore := st;
  nextQueue := nextQueue r;
  pendingTimers := pendingTimers r;
  nextTimer := nextTimer r;
  emitted := emitted r;
  logged := logged r;
|}.

(** [clearTimeout(t)]; nothing happens when [t] has fired already. *)
Definition clearTimeout (t : nat) (r : Registry) : Registry := {|
  connections := connections r;
  messageQueues := messageQueues r;
  reconnectGraceTimer := reconnectGraceTimer r;
  queueStore := queueStore r;
  nextQueue := nextQueue r;
  pendingTimers := pendingTimers r ∖ {[t]};
  nextTimer := nextTimer r;
  emitted := emitted r;
  logged := logged r;
|}.

Definition setGraceTimer (h : option nat) (r : Registry) : Registry := {|
  connections := connections r;
  messageQueues := messageQueues r;
  reconnectGraceTimer := h;
  queueStore := queueStore r;
  nextQueue := nextQueue r;
  pendingTimers := pendingTimers r;
  nextTimer := nextTimer r;
  emitted := emitted r;
  logged := logged r;
|}.

(** [setTimeout(callback, 5000)]: a fresh handle, now pending.  Every
    timer of the registry carries the same callback, [graceExpired]. *)
Definition setTimeout (r : Registry) : nat * Registry :=
  (nextTimer r, {|
     connections := connections r;
     messageQueues := messageQueues r;
     reconnectGraceTimer := reconnectGraceTimer r;
     queueStore := queueStore r;
     nextQueue := nextQueue r;
     pendingTimers := pendingTimers r ∪ {[nextTimer r]};
     nextTimer := S (nextTimer r);
     emitted := emitted r;
     logged := logged r;
   |}).

(** [addConnection(websocket, clientInfo)]; [clientInfo] only feeds the
    log line. *)
Definition addConnection (websocket : nat) (r : Registry) : Registry :=
  let r :=
    match reconnectGraceTimer r with
    | Some t =>
        log (info "[Server] New connection detected during grace period, canceling disconnect handling.")
            (setGraceTimer None (clearTimeout t r))
    | None => r
    end in
  let r :=
    withConnections
      (if bool_decide (websocket ∈ connections r) then connections r
       else connections r ++ [websocket])%list r in
  let r := log (info "[Server] Internal WebSocket client connected") r in
  emit (connectionAdded websocket) r.

(** The callback handed to [setTimeout] by [_removeConnection]. *)
Definition graceExpired (r : Registry) : Registry :=
  let r := log (error "[Server] Grace period ended, no reconnection detected. Connection lost confirmed, cleaning up all pending requests...") r in
  let closedStore :=
    foldr (fun kq st => alter MessageQueue.close kq.2 st)
          (queueStore r) (map_to_list (messageQueues r)) in
  let r := withQueues ∅ closedStore r in
  emit connectionLost r.

(** [_removeConnection(websocket)] *)
Definition _removeConnection (websocket : nat) (r : Registry) : Registry :=
  let r := withConnections (filter (fun w => w ≠ websocket) (connections r)) r in
  let r := log (warn "[Server] Internal WebSocket client disconnected.") r in
  let r := log (info "[Server] Starting 5-second reconnect grace period...") r in
  let '(t, r) := setTimeout r in
  let r := setGraceTimer (Some t) r in
  emit (connectionRemoved websocket) r.

(** [this.messageQueues.get(requestId)].  The keys of the map are the
    strings [createMessageQueue] was given, so only a string can hit. *)
Definition getQueue (requestId : JsVal) (r : Registry) : option nat :=
  match requestId with
  | JStr id => messageQueues r !! id
  | _ => None
  end.

Definition enqueueAt (queue : nat) (event : JsVal) (r : Registry) : Registry :=
  withQueues (messageQueues r)
             (alter (MessageQueue.enqueue event) queue (queueStore r)) r.

(** [_routeMessage(message, queue)] *)
Definition _routeMessage (message : JsVal) (queue : nat) (r : Registry) : Js Registry :=
  let* event_type := getProp message "event_type" in
  if strictEqStr event_type "response_headers"
     || strictEqStr event_type "chunk"
     || strictEqStr event_type "error"
  then Ret (enqueueAt queue message r)
  else if strictEqStr event_type "stream_close"
  then Ret (enqueueAt queue (JObj [("type", JStr "STREAM_END")]) r)
  else Ret (log (warn ("[Server] Unknown internal event type: " ++ toString event_type)) r).

Section WithHost.
Context `{Host}.

(** [_handleIncomingMessage(messageData)] *)
Definition _handleIncomingMessage (messageData : string) (r : Registry) : Js Registry :=
  try_catch
    (match JSON_parse messageData with
     | None => Throw "SyntaxError"
     | Some parsedMessage =>
         let* requestId := getProp parsedMessage "request_id" in
         if negb (truthy requestId) then
           Ret (log (warn "[Server] Received invalid message: missing request_id") r)
         else
           match getQueue requestId r with
           | Some queue => _routeMessage parsedMessage queue r
           | None =>
               Ret (log (warn ("[Server] Received message for unknown or outdated request ID: "
                                 ++ toString requestId)) r)
           end
     end)
    (fun _ => log (error "[Server] Failed to parse internal WebSocket message") r).

End WithHost.

(** [createMessageQueue(requestId)]; the method returns the new queue. *)
Definition createMessageQueue (requestId : string) (r : Registry) : nat * Registry :=
  let queue := nextQueue r in
  (queue, {|
     connections := connections r;
     messageQueues := <[requestId := queue]> (messageQueues r);
     reconnectGraceTimer := reconnectGraceTimer r;
     queueStore := <[queue := MessageQueue.new]> (queueStore r);
     nextQueue := S queue;
     pendingTimers := pendingTimers r;
     nextTimer := nextTimer r;
     emitted := emitted r;
     logged := logged r;
   |}).

(** [removeMessageQueue(requestId)] *)
Definition removeMessageQueue (requestId : string) (r : Registry) : Registry :=
  match messageQueues r !! requestId with
  | Some queue =>
      withQueues (delete requestId (messageQueues r))
                 (alter MessageQueue.close queue (queueStore r)) r
  | None => r
  end.

(** ** The life of a registry

    What the event loop can run next: a peer connects, the [close] event
    of a registered peer, a [message] event, a pending timer expiring, and
    the two queue operations of the request handlers. *)
Inductive Action : Type :=
| Connect (websocket : nat)
| Disconnect (websocket : nat)
| Incoming (messageData : string)
| TimerFires (timer : nat)
| CreateQueue (requestId : string)
| RemoveQueue (requestId : string).

Section Run.
Context `{Host}.

(** One turn of the event loop; [None] when the action cannot happen in
    this state (a peer that is not registered closing, a timer that is not
    pending expiring) or when a handler lets an exception escape.  A timer
    that expires leaves the pending set, then its callback runs. *)
Definition step (a : Action) (r : Registry) : option Registry :=
  match a with
  | Connect ws =>
      if bool_decide (ws ∈ connections r) then None else Some (addConnection ws r)
  | Disconnect ws =>
      if bool_decide (ws ∈ connections r) then Some (_removeConnection ws r) else None
  | Incoming data =>
      match _handleIncomingMessage data r with
      | Ret r' => Some r'
      | Throw _ => None
      end
  | TimerFires t =>
      if bool_decide (t ∈ pendingTimers r)
      then Some (graceExpired (clearTimeout t r))
      else None
  | CreateQueue id => Some (createMessageQueue id r).2
  | RemoveQueue id => Some (removeMessageQueue id r)
  end.

Fixpoint run (actions : list Action) (r : Registry) : option Registry :=
  match actions with
  | [] => Some r
  | a :: rest =>
      match step a r with
      | Some r' => run rest r'
      | None => None
      end
  end.

End Run.

End ConnectionRegistry.

Import MessageQueue ConnectionRegistry.

(* ===================================================================== *)
(** * The logging service *)
(* ===================================================================== *)

Module LoggingService.

(** [static LEVELS], in the order [Object.keys] lists it. *)
Definition LEVELS : list (string * Z) :=
  [("DEBUG", 0); ("ERROR", 3); ("INFO", 1); ("WARN", 2)].

(** [LoggingService.LEVELS[name]]; [None] stands for [undefined].  The
    method only indexes [LEVELS] with upper-cased names, and no member of
    [Object.prototype] has such a name, so own keys are all there is. *)
Fixpoint levelOf (levels : list (string * Z)) (name : string) : option Z :=
  match levels with
  | [] => None
  | (key, value) :: rest => if String.eqb name key then Some value else levelOf rest name
  end.

(** The fields of an instance.  [currentLevel] is a static of the class
    and is passed separately. *)
Record Logger : Type := {
  serviceName : string;
  logBuffer : list string;
  displayLimit : Z;
  maxBufferSize : nat;
}.

(** [new LoggingService(serviceName)] *)
Definition new (serviceName : string) : Logger := {|
  serviceName := serviceName;
  logBuffer := [];
  displayLimit := 100;
  maxBufferSize := 1000;
|}.

Section Statics.
(** [String.prototype.toUpperCase] is the host's. *)
Variable toUpperCase : string → string.

(** [static setLevel(level)], on a string. *)
Definition setLevel (level : string) (currentLevel : Z) : Z :=
  match levelOf LEVELS (toUpperCase level) with
  | Some value => value
  | None => currentLevel
  end.

(** [static getLevel()]; [None] stands for the [undefined] of a failed
    [find]. *)
Definition getLevel (currentLevel : Z) : option string :=
  fst <$> List.find (fun kv => kv.2 =? currentLevel) LEVELS.

(** [static isDebugEnabled()] *)
Definition isDebugEnabled (currentLevel : Z) : bool := currentLevel <=? 0.

End Statics.

(** [`[${level}] ${timestamp} [${this.serviceName}] - ${message}`] *)
Definition formatted (l : Logger) (timestamp level message : string) : string :=
  "[" ++ level ++ "] " ++ timestamp ++ " [" ++ serviceName l ++ "] - " ++ message.

(** [_formatMessage(level, message)], with the timestamp the call reads;
    the result is the line and the logger afterwards. *)
Definition _formatMessage (timestamp level message : string) (l : Logger)
    : string * Logger :=
  let line := formatted l timestamp level message in
  let pushed := (logBuffer l ++ [line])%list in
  (line, {| serviceName := serviceName l;
            logBuffer := if (maxBufferSize l <? length pushed)%nat
                         then tail pushed else pushed;
            displayLimit := displayLimit l;
            maxBufferSize := maxBufferSize l |}).

(** The four logging methods; each returns what it hands to the console,
    if anything, and the logger afterwards. *)
Definition info (timestamp message : string) (l : Logger) : option string * Logger :=
  let '(line, l) := _formatMessage timestamp "INFO" message l in (Some line, l).

Definition error (timestamp message : string) (l : Logger) : option string * Logger :=
  let '(line, l) := _formatMessage timestamp "ERROR" message l in (Some line, l).

Definition warn (timestamp message : string) (l : Logger) : option string * Logger :=
  let '(line, l) := _formatMessage timestamp "WARN" message l in (Some line, l).

Definition debug (currentLevel : Z) (timestamp message : string) (l : Logger)
    : option string * Logger :=
  if currentLevel <=? 0
  then let '(line, l) := _formatMessage timestamp "DEBUG" message l in (Some line, l)
  else (None, l).

End LoggingService.

(* ===================================================================== *)
(** * The identity seed of the browser manager *)
(* ===================================================================== *)

Module BrowserManager.

(** ToInt32: the value modulo 2^32, read as a signed 32-bit integer. *)
Definition toInt32 (x : Z) : Z :=
  let m := x mod 2 ^ 32 in
  if m <? 2 ^ 31 then m else m - 2 ^ 32.

(** [x << n] *)
Definition shiftLeft (x n : Z) : Z :=
  toInt32 (Z.shiftl (toInt32 x) (Z.land n 31)).

(** One turn of the loop: [hashValue = (hashValue << 5) - hashValue +
    charCode; hashValue |= 0].  The sum is exact in double precision. *)
Definition hashStep (hashValue charCode : Z) : Z :=
  Z.lor (toInt32 (shiftLeft hashValue 5 - hashValue + charCode)) 0.

(** [_generateIdentitySeed(str)], on the UTF-16 code units of [str]. *)
Definition _generateIdentitySeed (str : list Z) : Z :=
  Z.abs (fold_left hashStep str 0).

End BrowserManager.

(* ===================================================================== *)
(** * The web routes *)
(* ===================================================================== *)

Module WebRoutes.

(** What a handler answers with. *)
Inductive Response : Type :=
| redirect (url : string)
| send (status : Z) (body : string)
| json (body : JsVal).

(** What the routes read and write of [this.serverSystem] and
    [this.config]: the API keys ([None] for a missing array), the streaming
    mode, the flags the converter reads, and the lines handed to the
    logger. *)
Record Server : Type := {
  apiKeys : option (list JsVal);
  streamingMode : JsVal;
  system : ServerSystem;
  logged : list string;
}.

(** [req.session]: the one field the routes use, [undefined] at first. *)
Record Session : Type := { isAuthenticated : JsVal }.

Definition freshSession : Session := {| isAuthenticated := JUndefined |}.

(** The pages and the status data are produced by code that reads the
    templates and the other components of the server. *)
Class Pages : Type := {
  loginPage : string → string;       (* the login template, by error message *)
  statusPage : Server → string;      (* [_generateStatusPage()] *)
  statusData : Server → JsVal;       (* [_getStatusData()] *)
}.

(** The requests of the routes whose handlers are complete in this file
    (the handler of [/api/switch-account] hands over to the request
    handler). *)
Inductive Request : Type :=
| GET_login (queryError : JsVal)
| POST_login (body : JsVal)
| GET_root
| GET_api_status
| POST_api_set_mode (body : JsVal)
| POST_api_toggle_force_thinking.

(** [array.includes(v)] compares with SameValueZero; an object that came
    with the request is never one of the array. *)
Definition sameValueZero (a b : JsVal) : bool :=
  match a, b with
  | JUndefined, JUndefined | JNull, JNull | JNaN, JNaN => true
  | JBool x, JBool y => Bool.eqb x y
  | JNum x, JNum y => x =? y
  | JStr x, JStr y => String.eqb x y
  | _, _ => false
  end.

Definition includes (xs : list JsVal) (v : JsVal) : bool := existsb (sameValueZero v) xs.

Definition quote : string := String (Ascii.ascii_of_nat 34) "".

Section Handlers.
Context `{Pages}.

(** The middleware [isAuthenticated(req, res, next)], around a handler. *)
Definition guarded (session : Session) (server : Server)
    (next : Js (Response * Server)) : Js (Response * Server) :=
  if truthy (isAuthenticated session) then next
  else Ret (redirect "/login", server).

(** [app.get("/login", ...)] *)
Definition get_login (queryError : JsVal) (session : Session) : Response :=
  if truthy (isAuthenticated session) then redirect "/"
  else send 200 (loginPage (if truthy queryError
                            then "<p class=" ++ quote ++ "error" ++ quote
                                 ++ ">Invalid API Key!</p>"
                            else "")).

(** [app.post("/login", ...)] *)
Definition post_login (body : JsVal) (session : Session) (server : Server)
    : Js (Response * Session) :=
  let* apiKey := getProp body "apiKey" in
  if truthy apiKey then
    match apiKeys server with
    | None => Throw "TypeError"
    | Some keys =>
        if includes keys apiKey
        then Ret (redirect "/", {| isAuthenticated := JBool true |})
        else Ret (redirect "/login?error=1", session)
    end
  else Ret (redirect "/login?error=1", session).

(** [app.post("/api/set-mode", isAuthenticated, ...)], past the guard. *)
Definition post_set_mode (body : JsVal) (server : Server) : Js (Response * Server) :=
  let* newMode := getProp body "mode" in
  if strictEqStr newMode "fake" || strictEqStr newMode "real" then
    Ret (send 200 ("Streaming mode switched to: " ++ toString newMode),
         {| apiKeys := apiKeys server;
            streamingMode := newMode;
            system := system server;
            logged := logged server
                      ++ ["[WebUI] Streaming mode switched by authenticated user to: "
                          ++ toString newMode] |})
  else
    Ret (send 400 ("Invalid mode. Use " ++ quote ++ "fake" ++ quote ++ " or "
                   ++ quote ++ "real" ++ quote ++ "."), server).

(** [app.post("/api/toggle-force-thinking", isAuthenticated, ...)], past
    the guard. *)
Definition post_toggle_force_thinking (server : Server) : Response * Server :=
  let flag := negb (forceThinking (system server)) in
  let statusText := if flag then "Enabled" else "Disabled" in
  (send 200 ("Force thinking mode: " ++ statusText),
   {| apiKeys := apiKeys server;
      streamingMode := streamingMode server;
      system := {| forceThinking := flag;
                   forceWebSearch := forceWebSearch (system server);
                   forceUrlContext := forceUrlContext (system server) |};
      logged := logged server
                ++ ["[WebUI] Force thinking toggle switched to: " ++ statusText] |}).

(** One request through the router. *)
Definition handle (request : Request) (session : Session) (server : Server)
    : Js (Response * Session * Server) :=
  match request with
  | GET_login queryError => Ret (get_login queryError session, session, server)
  | POST_login body =>
      let* '(response, session) := post_login body session server in
      Ret (response, session, server)
  | GET_root =>
      let* '(response, server) :=
        guarded session server (Ret (send 200 (statusPage server), server)) in
      Ret (response, session, server)
  | GET_api_status =>
      let* '(response, server) :=
        guarded session server (Ret (json (statusData server), server)) in
      Ret (response, session, server)
  | POST_api_set_mode body =>
      let* '(response, server) := guarded session server (post_set_mode body server) in
      Ret (response, session, server)
  | POST_api_toggle_force_thinking =>
      let* '(response, server) :=
        guarded session server (Ret (post_toggle_force_thinking server)) in
      Ret (response, session, server)
  end.

(** A client's requests, one after the other on one session.  A handler
    that raises has changed nothing by then; the framework answers for it,
    here with [None]. *)
Fixpoint serve (requests : list Request) (session : Session) (server : Server)
    : list (option Response) * Session * Server :=
  match requests with
  | [] => ([], session, server)
  | request :: rest =>
      match handle request session server with
      | Ret (response, session', server') =>
          let '(responses, session'', server'') := serve rest session' server' in
          (Some response :: responses, session'', server'')
      | Throw _ =>
          let '(responses, session'', server'') := serve rest session server in
          (None :: responses, session'', server'')
      end
  end.

End Handlers.

(** ** The accounts on the status page and in the status data

    [_getStatusData] and [_generateStatusPage] both list the accounts of
    [serverSystem.authSource]; the rest of what they return formats fields
    of other components and is left out. *)
Record AuthSource : Type := {
  initialIndices : option (list Z);      (* [None]: not set *)
  availableIndices : option (list Z);
  accountNameMap : gmap Z JsVal;
}.

(** [indices.includes(i)], on numbers. *)
Definition includesIndex (indices : list Z) (i : Z) : bool := existsb (Z.eqb i) indices.

(** [`[${indices.join(", ")}] (Total: ${indices.length})`] *)
Definition totalLine (indices : list Z) : string :=
  "[" ++ String.concat ", " (map pretty indices) ++ "] (Total: "
      ++ pretty (length indices) ++ ")".

(** The name both methods give an account. *)
Definition accountName (authSource : AuthSource) (invalidIndices : list Z) (index : Z)
    : JsVal :=
  if includesIndex invalidIndices index
  then JStr "N/A (JSON format error)"
  else js_or (default JUndefined (accountNameMap authSource !! index))
             (JStr "N/A (Unnamed)").

(** [_getStatusData()]: the fields [initialIndices], [accountDetails]
    (pairs of [index] and [name]) and [invalidIndices] of [status].  The
    filter calls [authSource.availableIndices.includes] once per initial
    index. *)
Definition _getStatusData (authSource : AuthSource)
    : Js (string * list (Z * JsVal) * string) :=
  let initial := default [] (initialIndices authSource) in
  let* invalidIndices :=
    match availableIndices authSource with
    | Some available =>
        Ret (List.filter (fun i => negb (includesIndex available i)) initial)
    | None => match initial with [] => Ret [] | _ => Throw "TypeError" end
    end in
  Ret (totalLine initial,
       map (fun index => (index, accountName authSource invalidIndices index)) initial,
       totalLine invalidIndices).

(** One line of [accountDetailsHtml]. *)
Definition accountLine (index : Z) (name : JsVal) : string :=
  "<span class=" ++ quote ++ "label" ++ quote ++ " style=" ++ quote
    ++ "padding-left: 20px;" ++ quote ++ ">Account " ++ pretty index ++ "</span>: "
    ++ toString name.

(** [_generateStatusPage()]: the template values [totalScannedAccounts],
    [accountDetailsHtml], [formatErrors] and [accountOptions]. *)
Definition _generateStatusPage (authSource : AuthSource)
    : string * string * string * string :=
  let initial := default [] (initialIndices authSource) in
  let available := default [] (availableIndices authSource) in
  let invalidIndices := List.filter (fun i => negb (includesIndex available i)) initial in
  (totalLine initial,
   String.concat newline
     (map (fun index => accountLine index (accountName authSource invalidIndices index))
          initial),
   totalLine invalidIndices,
   String.concat ""
     (map (fun index => "<option value=" ++ quote ++ pretty index ++ quote
                        ++ ">Account #" ++ pretty index ++ "</option>")
          available)).

End WebRoutes.

(* ===================================================================== *)
(** * Vocabulary of the properties, and examples *)
(* ===================================================================== *)

(** Paths into the objects the converter returns. *)
Definition choice0 (response : JsVal) : JsVal := index0 (field response "choices").
Definition message_content (response : JsVal) : JsVal :=
  field (field (choice0 response) "message") "content".
Definition message_role (response : JsVal) : JsVal :=
  field (field (choice0 response) "message") "role".
Definition finish_reason (response : JsVal) : JsVal :=
  field (choice0 response) "finish_reason".
Definition delta (chunk : JsVal) : JsVal := field (choice0 chunk) "delta".
Definition usage_field (response : JsVal) (k : string) : JsVal :=
  field (field response "usage") k.

(** An object has a key of its own (whatever the value). *)
Definition hasKey (k : string) (v : JsVal) : bool :=
  match v with
  | JObj fs => existsb (String.eqb k) (map fst fs)
  | _ => false
  end.

(** The remote response of the scenario of section 8. *)
Definition scenarioResponse : JsVal :=
  JObj [
    ("candidates", JArr [JObj [
       ("content", JObj [("parts", JArr [JObj [("text", JStr "hello")]]);
                         ("role", JStr "model")]);
       ("finishReason", JStr "STOP")]]);
    ("usageMetadata", JObj [("promptTokenCount", JNum 3);
                            ("candidatesTokenCount", JNum 2)])].

(** ** A streamed response

    The request handler calls [translateGoogleToOpenAIStream] once per
    fragment, with the same converter and the same [streamState] object.
    [streamAll] is that loop on parsed fragments: it threads both through
    the calls and collects the chunks in the order they are sent. *)
Fixpoint streamAll (modelName : string) (fragments : list (Env * JsVal))
    (self : Converter) (streamState : option JsObj)
    : Js (list JsVal * Converter * option JsObj) :=
  match fragments with
  | [] => Ret ([], self, streamState)
  | (e, fragment) :: rest =>
      let* '(chunks, self, streamState) :=
        streamChunks e self fragment modelName streamState in
      let* '(more, self, streamState) := streamAll modelName rest self streamState in
      Ret ((chunks ++ more)%list, self, streamState)
  end.

(** The parts of a fragment, and the deltas of those that bear content
    (a thought with text, a text, or inline data), in order. *)
Definition partsOf (fragment : JsVal) : list JsVal :=
  candidateParts (firstCandidate fragment).

Definition deltasOfParts (parts : list JsVal) : list JsObj :=
  omap (fun part => fst <$> partDelta part) parts.

Definition contentDeltas (fragments : list JsVal) : list JsObj :=
  deltasOfParts (concat (map partsOf fragments)).

(** A fragment the translator can digest: an object whose parts, if it
    has a candidate, are objects too; without candidate it is not a
    safety-block notice. *)
Definition fragmentOk (fragment : JsVal) : bool :=
  negb (nullish fragment)
  && if truthy (firstCandidate fragment)
     then forallb (fun part => negb (nullish part)) (partsOf fragment)
     else negb (truthy (field fragment "promptFeedback")).

Definition finishReasonOf (fragment : JsVal) : JsVal :=
  field (firstCandidate fragment) "finishReason".

Definition carriesFinish (fragment : JsVal) : bool :=
  truthy (firstCandidate fragment) && truthy (finishReasonOf fragment).

Definition carriesUsage (fragment : JsVal) : bool :=
  truthy (field fragment "usageMetadata").

(** The last fragment that carried usage metadata, if any. *)
Fixpoint latestUsage (fragments : list JsVal) : option JsVal :=
  match fragments with
  | [] => None
  | fragment :: rest =>
      match latestUsage rest with
      | Some later => Some later
      | None => if carriesUsage fragment then Some fragment else None
      end
  end.

Definition parsedUsage (fragment : JsVal) : JsVal :=
  match _parseUsage fragment with Ret u => u | Throw _ => JNull end.

(** The content chunks for a list of deltas: the role goes on the first
    one, unless it was sent before. *)
Fixpoint chunksFor (roleSent : bool) (deltas : list JsObj)
    (created streamId : JsVal) (modelName : string) : list JsVal :=
  match deltas with
  | [] => []
  | d :: rest =>
      contentChunk (if roleSent then d else d ++ [("role", JStr "assistant")])%list
                   created streamId modelName
      :: chunksFor true rest created streamId modelName
  end.

(** Whether the role has been sent once these deltas have gone out. *)
Definition roleSentAfter (roleSent : bool) (deltas : list JsObj) : bool :=
  match deltas with [] => roleSent | _ => true end.

(** The usage cache once a fragment has been looked at, and what the
    terminal chunk of that fragment, if it has one, leaves of it. *)
Definition cacheOnArrival (cache : JsVal) (fragment : JsVal) : JsVal :=
  if carriesUsage fragment then parsedUsage fragment else cache.

Definition cacheAfter (cache : JsVal) (fragment : JsVal) : JsVal :=
  let c := cacheOnArrival cache fragment in
  if carriesFinish fragment && truthy c then JNull else c.

(** A host for the examples: its parser knows the texts the examples
    use and nothing else. *)
Definition exampleBlocked : JsVal :=
  JObj [("promptFeedback", JObj [("blockReason", JStr "SAFETY")])].

#[local] Instance exampleHost : Host := {|
  JSON_parse text :=
    if String.eqb text "BLOCKED" then Some exampleBlocked
    else if String.eqb text "NULL" then Some JNull
    else if String.eqb text "ORPHAN" then
      Some (JObj [("request_id", JStr "req-0"); ("event_type", JStr "chunk")])
    else None;
  JSON_stringify v := toString v;
  str_trim text := text;
  matchDataUrl _ := None;
  downloadImage _ := None;
|}.

(** ** Outbound requests *)

(** A message with plain-string content, and the [contents] entry the
    specification expects for it. *)
Definition textOnly (msg : JsVal) : bool :=
  negb (nullish msg) && isString (field msg "content").

Definition isSystem (msg : JsVal) : bool := strictEqStr (field msg "role") "system".

Definition nonSystem (msg : JsVal) : bool := negb (isSystem msg).

Definition remappedRole (msg : JsVal) : string :=
  if strictEqStr (field msg "role") "assistant" then "model" else "user".

Definition textEntry (msg : JsVal) : JsVal :=
  JObj [("parts", JArr [JObj [("text", field msg "content")]]);
        ("role", JStr (remappedRole msg))].

(** The accepted spellings of the nested thinking configuration, by
    priority, and the first one the request fills in. *)
Definition extraBodyOf (openaiBody : JsVal) : JsVal :=
  js_or (field openaiBody "extra_body") (JObj []).

Definition thinkingSpellings (openaiBody : JsVal) : list JsVal := [
  getOpt (field (extraBodyOf openaiBody) "google") "thinking_config";
  getOpt (field (extraBodyOf openaiBody) "google") "thinkingConfig";
  field (extraBodyOf openaiBody) "thinkingConfig";
  field (extraBodyOf openaiBody) "thinking_config";
  field openaiBody "thinkingConfig";
  field openaiBody "thinking_config"].

Definition explicitThinking (openaiBody : JsVal) : option JsVal :=
  List.find truthy (thinkingSpellings openaiBody).

Definition isUndefined (v : JsVal) : bool :=
  match v with JUndefined => true | _ => false end.

(** What an explicit configuration object is converted to. *)
Definition convertedThinking (raw : JsVal) : JsVal :=
  if negb (isUndefined (field raw "include_thoughts"))
  then JObj [("includeThoughts", field raw "include_thoughts")]
  else if negb (isUndefined (field raw "includeThoughts"))
  then JObj [("includeThoughts", field raw "includeThoughts")]
  else JObj [].

Definition effortFlag (openaiBody : JsVal) : bool :=
  truthy (field openaiBody "reasoning_effort")
  || truthy (field (extraBodyOf openaiBody) "reasoning_effort").

Definition thinkingOf (googleRequest : JsVal) : JsVal :=
  field (field googleRequest "generationConfig") "thinkingConfig".

(** How many entries of [tools] the code takes for a descriptor of the
    given tool (the test of [tools.some]). *)
Definition isDescriptor (key : string) (tool : JsVal) : bool := truthy (field tool key).

Definition toolCount (key : string) (googleRequest : JsObj) : nat :=
  match assoc "tools" googleRequest with
  | JArr tools => length (List.filter (isDescriptor key) tools)
  | _ => 0%nat
  end.

(** Requests and settings for the examples. *)
Definition exampleBody : JsVal :=
  JObj [("model", JStr "x");
        ("messages", JArr [
           JObj [("role", JStr "system"); ("content", JStr "Be brief.")];
           JObj [("role", JStr "user"); ("content", JStr "hi")];
           JObj [("role", JStr "assistant"); ("content", JStr "hello")];
           JObj [("role", JStr "tool"); ("content", JStr "42")]]);
        ("stream", JBool false);
        ("reasoning_effort", JStr "high");
        ("extra_body", JObj [("google", JObj [
           ("thinkingConfig", JObj [("includeThoughts", JBool false)])])])].

Definition forceAll : ServerSystem :=
  {| forceThinking := true; forceWebSearch := true; forceUrlContext := true |}.

(** A registry for the examples: one peer, one request in flight. *)
Definition exampleRegistry : Registry :=
  (createMessageQueue "req-7" (addConnection 1 initial)).2.

(** Two peers, then both gone, then a third: the trace that leaves the
    grace timer of the first disconnect behind. *)
Definition twoDisconnects : list Action :=
  [Connect 1; Connect 2; CreateQueue "req-7"; Disconnect 1; Disconnect 2; Connect 3].

(** One peer, lost for good, and a later one. *)
Definition lateReconnect : list Action :=
  [Connect 1; Disconnect 1; TimerFires 0; Connect 2].

(** A stream for the examples: three content-bearing parts over two
    fragments, then the fragment with the finish reason; no fragment
    carries usage metadata.  [exampleUsageFragment] is one that does. *)
Definition exampleEnv (n : Z) : Env := {| Date_now := 1700000000000 + n; random36 := "k3x9" |}.

Definition exampleFragments : list (Env * JsVal) := [
  (exampleEnv 0, JObj [("candidates", JArr [JObj [("content", JObj [
       ("parts", JArr [JObj [("text", JStr "thinking"); ("thought", JBool true)];
                       JObj [("text", JStr "Hel")]])])]])]);
  (exampleEnv 40, JObj [("candidates", JArr [JObj [("content", JObj [
       ("parts", JArr [JObj [("text", JStr "")]; JObj [("text", JStr "lo")]])])]])])].

Definition exampleUsageFragment : Env * JsVal :=
  (exampleEnv 60, JObj [("usageMetadata", JObj [("promptTokenCount", JNum 3);
                                               ("candidatesTokenCount", JNum 2);
                                               ("totalTokenCount", JNum 5)])]).

Definition exampleLast : JsVal :=
  JObj [("candidates", JArr [JObj [("content", JObj [("parts", JArr [])]);
                                   ("finishReason", JStr "STOP")]])].

(** The text of the chunk synthesised for a safety block. *)
Definition blockedText (googleResponse : JsVal) : string :=
  "[ProxySystem Error] Request blocked due to safety settings. Finish Reason: "
    ++ toString (field (field googleResponse "promptFeedback") "blockReason").

(** Pending timers, and the handle the registry holds, were all handed
    out by [setTimeout]. *)
Definition timersIssued (r : Registry) : Prop :=
  (∀ t, t ∈ pendingTimers r → (t < nextTimer r)%nat)
  ∧ (∀ t, reconnectGraceTimer r = Some t → (t < nextTimer r)%nat).

(** ** Usage metadata with numeric counters

    A counter of the remote usage metadata is a number, or is missing
    ([undefined], or [null] in the JSON). *)
Definition isCount (v : JsVal) : bool :=
  match v with JUndefined | JNull | JNum _ => true | _ => false end.

Definition countOf (v : JsVal) : Z :=
  match v with JNum n => n | _ => 0 end.

Definition isImageEntry (d : JsVal) : bool :=
  strictEqStr (getOpt d "modality") "IMAGE".

Definition sumZ (l : list Z) : Z := foldr Z.add 0 l.

(** The sum of [tokenCount] over the IMAGE entries of
    [candidatesTokensDetails]. *)
Definition imageTokenCount (details : JsVal) : Z :=
  match details with
  | JArr ds => sumZ (map (fun d => countOf (field d "tokenCount")) (List.filter isImageEntry ds))
  | _ => 0
  end.

Definition numericDetails (details : JsVal) : bool :=
  match details with
  | JArr ds => forallb (fun d => implb (isImageEntry d) (isCount (field d "tokenCount"))) ds
  | _ => true
  end.

Definition numericUsage (usage : JsVal) : bool :=
  isCount (field usage "promptTokenCount")
  && isCount (field usage "toolUsePromptTokenCount")
  && isCount (field usage "candidatesTokenCount")
  && isCount (field usage "thoughtsTokenCount")
  && isCount (field usage "totalTokenCount")
  && numericDetails (field usage "candidatesTokensDetails").

(** An integer below 2^53 in magnitude: a double holds it, and a sum
    that stays there is exact. *)
Definition isSafe (n : Z) : bool := Z.abs n <? 2 ^ 53.

(** The magnitudes of [tokenCount] over the IMAGE entries, summed: a
    bound on every partial sum of the loop. *)
Definition imageMagnitude (details : JsVal) : Z :=
  match details with
  | JArr ds =>
      sumZ (map (fun d => Z.abs (countOf (field d "tokenCount")))
                (List.filter isImageEntry ds))
  | _ => 0
  end.

(** The counters of the usage metadata, and the sums [_parseUsage] forms
    of them, are below 2^53 in magnitude. *)
Definition safeUsage (usage : JsVal) : bool :=
  isSafe (countOf (field usage "promptTokenCount"))
  && isSafe (countOf (field usage "toolUsePromptTokenCount"))
  && isSafe (countOf (field usage "promptTokenCount")
             + countOf (field usage "toolUsePromptTokenCount"))
  && isSafe (countOf (field usage "candidatesTokenCount"))
  && isSafe (countOf (field usage "thoughtsTokenCount"))
  && isSafe (countOf (field usage "candidatesTokenCount")
             + countOf (field usage "thoughtsTokenCount"))
  && isSafe (countOf (field usage "totalTokenCount"))
  && isSafe (imageMagnitude (field usage "candidatesTokensDetails")).

(** ** More vocabulary: what an outbound request is made of *)

(** The descriptors the force flags call for, in the order the method
    pushes them. *)
Definition forcedTools (sys : ServerSystem) : list JsVal :=
  ((if forceWebSearch sys then [JObj [("googleSearch", JObj [])]] else [])
   ++ (if forceUrlContext sys then [JObj [("urlContext", JObj [])]] else []))%list.

(** The bodies of the system messages, in message order. *)
Definition systemContents (messages : list JsVal) : list JsVal :=
  map (fun msg => field msg "content") (List.filter isSystem messages).

(** The keys of an object, in order. *)
Definition keysOf (v : JsVal) : list string :=
  match v with JObj fs => map fst fs | _ => [] end.

(** A part of an array-valued content that the translation can digest:
    an object whose image address, if it is an image part, is a string. *)
Definition contentPartOk (part : JsVal) : bool :=
  negb (nullish part)
  && (if strictEqStr (field part "type") "image_url" && truthy (field part "image_url")
      then isString (field (field part "image_url") "url")
      else true).

Definition failedImageNote (dataUrl : string) : JsVal :=
  JObj [("text", JStr ("[System Note: Failed to load image from " ++ dataUrl ++ "]"))].

(** A request with two system messages and a mixed content, for the
    examples. *)
Definition exampleMixedBody : JsVal :=
  JObj [("model", JStr "x");
        ("messages", JArr [
           JObj [("role", JStr "system"); ("content", JStr "Be brief.")];
           JObj [("role", JStr "user");
                 ("content", JArr [
                    JObj [("type", JStr "text"); ("text", JStr "what is this?")];
                    JObj [("type", JStr "image_url");
                          ("image_url", JObj [("url", JStr "https://example.org/cat.png")])]])];
           JObj [("role", JStr "system"); ("content", JStr "Answer in French.")]]);
        ("max_tokens", JNum 256);
        ("temperature", JNum 1);
        ("thinking_config", JObj [("thinkingBudget", JNum 1024)])].

Definition forceNone : ServerSystem :=
  {| forceThinking := false; forceWebSearch := false; forceUrlContext := false |}.

Definition isArrayValue (v : JsVal) : bool :=
  match v with JArr _ => true | _ => false end.

(** What the method returns on [exampleMixedBody] with every force flag
    set (the example host fails every download). *)
Definition exampleMixedRequest : JsVal :=
  Eval vm_compute in
    match (translateOpenAIToGoogle forceAll {| streamUsage := JNull |} exampleMixedBody).1 with
    | Ret googleRequest => googleRequest
    | Throw _ => JNull
    end.

Definition exampleMixedMessages : list JsVal :=
  match field exampleMixedBody "messages" with JArr l => l | _ => [] end.

(** ** Streamed text

    The text a client assembles from a stream: the values under [key]
    ("content" or "reasoning_content") of the chunks' deltas, each in its
    string form, put together in chunk order. *)
Definition chunkText (key : string) (chunk : JsVal) : option string :=
  if hasKey key (delta chunk) then Some (toString (field (delta chunk) key)) else None.

Definition streamedText (key : string) (chunks : list JsVal) : string :=
  foldr String.append "" (omap (chunkText key) chunks).

Definition message_of (response : JsVal) : JsVal := field (choice0 response) "message".

(** What [key] collects from the deltas of a list of parts. *)
Definition partsText (key : string) (parts : list JsVal) : string :=
  foldr String.append ""
    (omap (fun d => if hasKey key (JObj d) then Some (toString (assoc key d)) else None)
          (deltasOfParts parts)).

(** The envelope of a chunk: what every chunk of one call has in common. *)
Definition chunkEnvelope (created streamId : JsVal) (modelName : string)
    (chunk : JsVal) : Prop :=
  field chunk "id" = streamId
  ∧ field chunk "created" = created
  ∧ field chunk "model" = JStr modelName
  ∧ field chunk "object" = JStr "chat.completion.chunk"
  ∧ field chunk "choices" = JArr [choice0 chunk]
  ∧ field (choice0 chunk) "index" = JNum 0.

(** The identifier and the creation time one call stamps on its chunks:
    those of the stream state, assigned on first use, or fresh ones when
    the caller passes no state. *)
Definition streamIdOf (e : Env) (streamState : option JsObj) : JsVal :=
  match streamState with
  | Some st => assoc "id" (assignId e st)
  | None => freshId e
  end.

Definition createdOf (e : Env) (streamState : option JsObj) : JsVal :=
  match streamState with
  | Some st => assoc "created" (assignId e st)
  | None => nowSeconds e
  end.

(** ** Routing and the life of the queues *)

(** The event types [_routeMessage] passes on, and what it puts on the
    queue for a message of such a type. *)
Definition isRouted (event_type : JsVal) : bool :=
  strictEqStr event_type "response_headers"
  || strictEqStr event_type "chunk"
  || strictEqStr event_type "error"
  || strictEqStr event_type "stream_close".

Definition routedEvent (message : JsVal) : JsVal :=
  if strictEqStr (field message "event_type") "stream_close"
  then JObj [("type", JStr "STREAM_END")]
  else message.

(** No request id of the map leads to [queue]. *)
Definition unmapped (queue : nat) (r : Registry) : Prop :=
  ∀ id, messageQueues r !! id ≠ Some queue.

(** Every queue of the map was handed out by [createMessageQueue]. *)
Definition queuesIssued (r : Registry) : Prop :=
  ∀ id queue, messageQueues r !! id = Some queue → (queue < nextQueue r)%nat.

(** How often an event was emitted. *)
Definition isConnectionLost (ev : Emitted) : bool :=
  match ev with connectionLost => true | _ => false end.

Definition isConnectionRemoved (ev : Emitted) : bool :=
  match ev with connectionRemoved _ => true | _ => false end.

Definition emittedCount (f : Emitted → bool) (r : Registry) : nat :=
  length (List.filter f (emitted r)).

(** The discipline of a single browser peer: a peer registers only when
    none is registered. *)
Section Discipline.
Context `{Host}.

Fixpoint onePeerAtATime (actions : list Action) (r : Registry) : Prop :=
  match actions with
  | [] => True
  | a :: rest =>
      match a with Connect _ => connections r = [] | _ => True end
      ∧ match step a r with
        | Some r' => onePeerAtATime rest r'
        | None => True
        end
  end.

End Discipline.

(** Under that discipline: at most one peer, no timer pending while a
    peer is registered, and no pending timer but the one the registry
    holds. *)
Definition onePeerInv (r : Registry) : Prop :=
  (length (connections r) ≤ 1)%nat
  ∧ (connections r ≠ [] → ∀ t, t ∉ pendingTimers r)
  ∧ (∀ t, t ∈ pendingTimers r → reconnectGraceTimer r = Some t).

(** A registry with a queue for the request id of the example host's
    routable message. *)
Definition exampleRouting : Registry := (createMessageQueue "req-0" initial).2.

Definition onePeerTrace : list Action :=
  [Connect 1; CreateQueue "req-0"; Disconnect 1; Connect 2; Disconnect 2; TimerFires 1].

(** A registry whose only peer has just gone, with one queue in the map. *)
Definition exampleGrace : Registry :=
  _removeConnection 1 (createMessageQueue "req-0" (addConnection 1 initial)).2.

(** What can happen after a request id was bound twice. *)
Definition afterRebinding : list Action :=
  [Incoming "ORPHAN"; RemoveQueue "req-0"; Disconnect 1; TimerFires 0].

(** ** The log buffer *)

(** A call of one of the four logging methods, with the timestamp it
    reads. *)
Inductive LogCall : Type :=
| CallInfo (timestamp message : string)
| CallError (timestamp message : string)
| CallWarn (timestamp message : string)
| CallDebug (timestamp message : string).

Definition logCall (currentLevel : Z) (c : LogCall) (l : LoggingService.Logger)
    : option string * LoggingService.Logger :=
  match c with
  | CallInfo ts m => LoggingService.info ts m l
  | CallError ts m => LoggingService.error ts m l
  | CallWarn ts m => LoggingService.warn ts m l
  | CallDebug ts m => LoggingService.debug currentLevel ts m l
  end.

Definition logCalls (currentLevel : Z) (calls : list LogCall) (l : LoggingService.Logger)
    : LoggingService.Logger :=
  fold_left (fun l c => (logCall currentLevel c l).2) calls l.

(** The line a call is to leave in the buffer, if any. *)
Definition lineOf (currentLevel : Z) (l : LoggingService.Logger) (c : LogCall)
    : option string :=
  match c with
  | CallInfo ts m => Some (LoggingService.formatted l ts "INFO" m)
  | CallError ts m => Some (LoggingService.formatted l ts "ERROR" m)
  | CallWarn ts m => Some (LoggingService.formatted l ts "WARN" m)
  | CallDebug ts m =>
      if currentLevel <=? 0 then Some (LoggingService.formatted l ts "DEBUG" m) else None
  end.

(** The last [n] elements of a list. *)
Definition lastN {A} (n : nat) (xs : list A) : list A := drop (length xs - n) xs.

(** A level the class can be at. *)
Definition levelValid (currentLevel : Z) : Prop :=
  ∃ name, LoggingService.levelOf LoggingService.LEVELS name = Some currentLevel.

(** The level after a series of [setLevel] calls. *)
Definition setLevels (toUpperCase : string → string) (levels : list string)
    (currentLevel : Z) : Z :=
  fold_left (fun cur level => LoggingService.setLevel toUpperCase level cur)
            levels currentLevel.

(** The last name of a list that is a level name once upper-cased. *)
Definition lastValidLevel (toUpperCase : string → string) (levels : list string)
    : option string :=
  last (List.filter
          (fun name => bool_decide (is_Some (LoggingService.levelOf LoggingService.LEVELS name)))
          (map toUpperCase levels)).

(** ** The identity seed *)

(** The polynomial in 31 whose coefficients are the code units, first
    unit at the highest power, continued from [h]. *)
Definition polynomial31 (h : Z) (str : list Z) : Z :=
  fold_left (fun h c => 31 * h + c) str h.

(** ** Sessions of the web interface *)

(** A login request that carries one of the configured keys. *)
Definition isValidLogin (server : WebRoutes.Server) (request : WebRoutes.Request) : bool :=
  match request with
  | WebRoutes.POST_login body =>
      truthy (field body "apiKey")
      && match WebRoutes.apiKeys server with
         | Some keys => WebRoutes.includes keys (field body "apiKey")
         | None => false
         end
  | _ => false
  end.

(** What a client that has not logged in may see: the login page, a
    redirect to it, or the framework's answer to a failed handler. *)
Definition isLoginOnly `{WebRoutes.Pages} (response : option WebRoutes.Response) : Prop :=
  match response with
  | None => True
  | Some (WebRoutes.redirect url) => url = "/login" ∨ url = "/login?error=1"
  | Some (WebRoutes.send status body) =>
      status = 200 ∧ ∃ errorMessage, body = WebRoutes.loginPage errorMessage
  | Some (WebRoutes.json _) => False
  end.

Definition examplePages : WebRoutes.Pages := {|
  WebRoutes.loginPage errorMessage := "login " ++ errorMessage;
  WebRoutes.statusPage _ := "status";
  WebRoutes.statusData _ := JObj [];
|}.

Definition exampleServer : WebRoutes.Server := {|
  WebRoutes.apiKeys := Some [JStr "sk-1"; JStr ""];
  WebRoutes.streamingMode := JStr "real";
  WebRoutes.system := forceNone;
  WebRoutes.logged := [];
|}.

Definition anonymousRequests : list WebRoutes.Request :=
  [WebRoutes.GET_root;
   WebRoutes.POST_login (JObj [("apiKey", JStr "guess")]);
   WebRoutes.POST_login (JObj [("apiKey", JStr "")]);
   WebRoutes.POST_login JNull;
   WebRoutes.POST_api_set_mode (JObj [("mode", JStr "fake")]);
   WebRoutes.POST_api_toggle_force_thinking;
   WebRoutes.GET_api_status].

Definition loggedInRequests : list WebRoutes.Request :=
  [WebRoutes.POST_login (JObj [("apiKey", JStr "sk-1")]);
   WebRoutes.POST_api_set_mode (JObj [("mode", JStr "FAKE")]);
   WebRoutes.POST_api_set_mode (JObj [("mode", JStr "fake")]);
   WebRoutes.POST_api_toggle_force_thinking].

(** The usage record with every counter at zero. *)
Definition zeroUsage : JsVal :=
  JObj [
    ("completion_tokens", JNum 0);
    ("completion_tokens_details", JObj [
       ("image_tokens", JNum 0);
       ("output_text_tokens", JNum 0);
       ("reasoning_tokens", JNum 0)]);
    ("prompt_tokens", JNum 0);
    ("prompt_tokens_details", JObj [
       ("text_tokens", JNum 0);
       ("tool_tokens", JNum 0)]);
    ("total_tokens", JNum 0)].

(** An account source with one account whose file did not parse. *)
Definition exampleAuthSource : WebRoutes.AuthSource := {|
  WebRoutes.initialIndices := Some [0; 1; 2];
  WebRoutes.availableIndices := Some [0; 2];
  WebRoutes.accountNameMap := {[ 0 := JStr "a@example.org" ]};
|}.

(* ===================================================================== *)
(** * Properties *)
(* ===================================================================== *)

(** ** Objects *)

Lemma assoc_setProp_eq k v fs : assoc k (setProp k v fs) = v.
Proof.
  induction fs as [|[k' v'] fs IH]; simpl.
  - by rewrite String.eqb_refl.
  - destruct (String.eqb k k') eqn:E; simpl; rewrite E; [done|apply IH].
Qed.

Lemma assoc_setProp_ne k k' v fs : k ≠ k' → assoc k (setProp k' v fs) = assoc k fs.
Proof.
  intros Hne. induction fs as [|[k2 v2] fs IH]; simpl.
  - destruct (String.eqb k k') eqn:E; [|done].
    apply String.eqb_eq in E. congruence.
  - destruct (String.eqb k' k2) eqn:E; simpl.
    + apply String.eqb_eq in E. subst k2.
      destruct (String.eqb k k') eqn:E2; [|done].
      apply String.eqb_eq in E2. congruence.
    + by rewrite IH.
Qed.

Lemma setProp_setProp_eq k v w fs : setProp k v (setProp k w fs) = setProp k v fs.
Proof.
  induction fs as [|[k' v'] fs IH]; simpl.
  - by rewrite String.eqb_refl.
  - destruct (String.eqb k k') eqn:E; simpl; rewrite E; [done|by rewrite IH].
Qed.

Lemma parseUsage_returns googleResponse :
  nullish googleResponse = false → ∃ u, _parseUsage googleResponse = Ret (JObj u).
Proof.
  intros Hnn. unfold _parseUsage, getProp. rewrite Hnn. simpl. eauto.
Qed.

(** ** C1 *)

(** C1 (amended).  On the response of the scenario the non-streaming
    conversion returns a completion whose message content is "hello",
    whose usage has 3 prompt tokens and 2 completion tokens, and whose
    finish reason is the remote one, "STOP", copied unchanged. *)
Theorem C1_scenario_non_stream (e : Env) :
  ∃ r, convertGoogleToOpenAINonStream e scenarioResponse "x" = Ret r
       ∧ message_content r = JStr "hello"
       ∧ finish_reason r = JStr "STOP"
       ∧ usage_field r "prompt_tokens" = JNum 3
       ∧ usage_field r "completion_tokens" = JNum 2.
Proof. eexists. split; [reflexivity|]. repeat split; done. Qed.

(** C1 (as stated, refuted).  On the response of the scenario the finish
    reason of the completion is not "stop". *)
Lemma C1_finish_reason_is_not_lowercase :
  ∃ r, convertGoogleToOpenAINonStream (exampleEnv 0) scenarioResponse "x" = Ret r
       ∧ message_content r = JStr "hello"
       ∧ finish_reason r ≠ JStr "stop".
Proof. eexists. split; [reflexivity|]. split; done. Qed.

(** The same in general: whatever finish reason the candidate carries
    comes back as it is, and "stop" stands in only for a missing one. *)
Lemma accumulatePart_loop parts : ∀ acc,
  forallb (fun part => negb (nullish part)) parts = true →
  ∃ acc', js_foldM accumulatePart acc parts = Ret acc'.
Proof.
  induction parts as [|part parts IH]; intros [content reasoning] Hparts; [by eexists|].
  cbn [forallb] in Hparts. apply andb_true_iff in Hparts as [Hpart Hparts].
  apply negb_true_iff in Hpart.
  cbn [js_foldM]. unfold accumulatePart at 1, getProp. rewrite Hpart. cbn [bind].
  repeat match goal with |- context [if ?c then _ else _] => destruct c end;
    cbn [bind]; by apply IH.
Qed.

Lemma nonstream_finish_reason_verbatim e googleResponse modelName :
  fragmentOk googleResponse = true →
  truthy (firstCandidate googleResponse) = true →
  ∃ r, convertGoogleToOpenAINonStream e googleResponse modelName = Ret r
       ∧ finish_reason r = js_or (finishReasonOf googleResponse) (JStr "stop").
Proof.
  unfold fragmentOk, partsOf. intros [Hnn Hparts]%andb_true_iff Hc. rewrite Hc in Hparts.
  apply negb_true_iff in Hnn.
  unfold convertGoogleToOpenAINonStream, getProp. rewrite Hnn. cbn [bind].
  rewrite Hc. cbn [negb].
  destruct (accumulatePart_loop _ (JStr "", JStr "") Hparts) as [[content reasoning] ->].
  cbn [bind]. destruct (parseUsage_returns _ Hnn) as [u ->]. cbn [bind].
  eexists. split; reflexivity.
Qed.

(** ** C10 *)

(** C10.  A response without candidate (a non-nullish value whose
    [candidates?.[0]] is falsy) is converted, without raising, to a
    completion with empty content, role "assistant", finish reason "stop"
    and a usage record whose three counters are zero. *)
Theorem C10_no_candidate_default (e : Env) (googleResponse : JsVal) (modelName : string) :
  nullish googleResponse = false →
  truthy (firstCandidate googleResponse) = false →
  ∃ r, convertGoogleToOpenAINonStream e googleResponse modelName = Ret r
       ∧ message_content r = JStr ""
       ∧ message_role r = JStr "assistant"
       ∧ finish_reason r = JStr "stop"
       ∧ usage_field r "prompt_tokens" = JNum 0
       ∧ usage_field r "completion_tokens" = JNum 0
       ∧ usage_field r "total_tokens" = JNum 0
       ∧ field r "object" = JStr "chat.completion"
       ∧ field r "model" = JStr modelName.
Proof.
  intros Hnn Hc. unfold convertGoogleToOpenAINonStream, getProp.
  rewrite Hnn. simpl. rewrite Hc. simpl.
  eexists. split; [reflexivity|]. repeat split; done.
Qed.

Lemma C10_no_candidate_default_witness :
  ∃ r, convertGoogleToOpenAINonStream {| Date_now := 1700000000123; random36 := "k3x9" |}
         (JObj [("candidates", JArr [])]) "gemini-2.5-flash-lite" = Ret r
       ∧ message_content r = JStr ""
       ∧ message_role r = JStr "assistant"
       ∧ finish_reason r = JStr "stop"
       ∧ usage_field r "prompt_tokens" = JNum 0
       ∧ usage_field r "completion_tokens" = JNum 0
       ∧ usage_field r "total_tokens" = JNum 0
       ∧ field r "object" = JStr "chat.completion"
       ∧ field r "model" = JStr "gemini-2.5-flash-lite".
Proof. apply C10_no_candidate_default; reflexivity. Defined.

(** ** C6 *)

Lemma count_or_zero v : isCount v = true → js_or v (JNum 0) = JNum (countOf v).
Proof.
  destruct v; try discriminate; intros _; try reflexivity.
  unfold js_or; simpl. destruct (Z.eqb_spec n 0); simpl; congruence.
Qed.

(** Below 2^53 nothing is rounded. *)
Lemma roundDouble_exact z : Z.abs z < 2 ^ 53 → roundDouble z = z.
Proof.
  intros Hsafe. unfold roundDouble.
  destruct (Z.leb_spec (Z.log2 (Z.abs z) - 52) 0) as [_|Hbig]; [done|].
  exfalso. destruct (Z.eq_dec (Z.abs z) 0) as [Hz|Hnz].
  - rewrite Hz in Hbig. cbn in Hbig. lia.
  - assert (Hlog : Z.log2 (Z.abs z) < 53) by (apply Z.log2_lt_pow2; lia). lia.
Qed.

(** From 2^53 on, a sum is rounded to the nearest double, a tie to the
    even one. *)
Lemma roundDouble_ties_to_even :
  roundDouble (2 ^ 53 + 1) = 2 ^ 53
  ∧ roundDouble (2 ^ 53 + 3) = 2 ^ 53 + 4
  ∧ js_add (JNum (2 ^ 53)) (JNum 1) = JNum (2 ^ 53).
Proof. by vm_compute. Qed.

Lemma js_add_exact x y :
  isSafe (x + y) = true → js_add (JNum x) (JNum y) = JNum (x + y).
Proof.
  unfold isSafe. intros Hsafe%Z.ltb_lt. unfold js_add. cbn [orb toNumber].
  by rewrite roundDouble_exact.
Qed.

Lemma imageStep_count acc d :
  implb (isImageEntry d) (isCount (field d "tokenCount")) = true →
  isSafe (Z.abs acc
          + if isImageEntry d then Z.abs (countOf (field d "tokenCount")) else 0) = true →
  imageStep (JNum acc) d
  = JNum (acc + if isImageEntry d then countOf (field d "tokenCount") else 0).
Proof.
  unfold imageStep. fold (isImageEntry d).
  destruct (isImageEntry d); cbn [implb]; intros Hd Hsafe.
  - rewrite (count_or_zero _ Hd). apply js_add_exact.
    unfold isSafe in *. apply Z.ltb_lt in Hsafe. apply Z.ltb_lt. lia.
  - f_equal. lia.
Qed.

Lemma image_loop ds acc :
  numericDetails (JArr ds) = true →
  isSafe (Z.abs acc + imageMagnitude (JArr ds)) = true →
  fold_left imageStep ds (JNum acc) = JNum (acc + imageTokenCount (JArr ds)).
Proof.
  revert acc. induction ds as [|d ds IH]; intros acc Hnum Hsafe.
  - cbn. f_equal. lia.
  - cbn [numericDetails forallb] in Hnum.
    apply andb_true_iff in Hnum as [Hd Hds].
    assert (Hrest : 0 ≤ imageMagnitude (JArr ds)).
    { unfold imageMagnitude. induction (List.filter isImageEntry ds) as [|x l IHl];
        cbn [map sumZ foldr]; [done|]. fold (sumZ (map (fun d0 => Z.abs (countOf (field d0 "tokenCount"))) l)). lia. }
    assert (Hsplit : imageMagnitude (JArr (d :: ds))
                     = (if isImageEntry d then Z.abs (countOf (field d "tokenCount")) else 0)
                       + imageMagnitude (JArr ds)).
    { unfold imageMagnitude. cbn [List.filter]. by destruct (isImageEntry d). }
    assert (Hcount : imageTokenCount (JArr (d :: ds))
                     = (if isImageEntry d then countOf (field d "tokenCount") else 0)
                       + imageTokenCount (JArr ds)).
    { unfold imageTokenCount. cbn [List.filter]. by destruct (isImageEntry d). }
    unfold isSafe in Hsafe. apply Z.ltb_lt in Hsafe. rewrite Hsplit in Hsafe.
    cbn [fold_left]. rewrite (imageStep_count _ _ Hd).
    2:{ unfold isSafe. apply Z.ltb_lt. destruct (isImageEntry d); lia. }
    rewrite (IH _ Hds).
    2:{ unfold isSafe. apply Z.ltb_lt. destruct (isImageEntry d); lia. }
    rewrite Hcount. f_equal. lia.
Qed.

(** C6.  For a response whose usage metadata is an object with numeric
    (or missing) counters that, with the sums the method forms of them,
    stay below 2^53 in magnitude (where doubles add exactly),
    [_parseUsage] returns a record in which
    [prompt_tokens] is [promptTokenCount + toolUsePromptTokenCount],
    [completion_tokens] is [candidatesTokenCount + thoughtsTokenCount],
    [completion_tokens_details.image_tokens] is the sum of [tokenCount]
    over the IMAGE entries of [candidatesTokensDetails], and
    [total_tokens] is the remote [totalTokenCount]; the image count enters
    none of prompt, completion and total: any response that differs only in
    [candidatesTokensDetails] gets the same three values. *)
Theorem C6_usage_accounting (googleResponse : JsVal) (usage : JsObj) :
  field googleResponse "usageMetadata" = JObj usage →
  numericUsage (JObj usage) = true →
  safeUsage (JObj usage) = true →
  ∃ r, _parseUsage googleResponse = Ret r
    ∧ field r "prompt_tokens"
        = JNum (countOf (assoc "promptTokenCount" usage)
                + countOf (assoc "toolUsePromptTokenCount" usage))
    ∧ field r "completion_tokens"
        = JNum (countOf (assoc "candidatesTokenCount" usage)
                + countOf (assoc "thoughtsTokenCount" usage))
    ∧ field (field r "completion_tokens_details") "image_tokens"
        = JNum (imageTokenCount (assoc "candidatesTokensDetails" usage))
    ∧ field r "total_tokens" = JNum (countOf (assoc "totalTokenCount" usage))
    ∧ ∀ (other : JsVal) (usage' : JsObj),
        field other "usageMetadata" = JObj usage' →
        (∀ k, k ≠ "candidatesTokensDetails" → assoc k usage' = assoc k usage) →
        ∃ r', _parseUsage other = Ret r'
          ∧ field r' "prompt_tokens" = field r "prompt_tokens"
          ∧ field r' "completion_tokens" = field r "completion_tokens"
          ∧ field r' "total_tokens" = field r "total_tokens".
Proof.
  intros Hu Hnum Hsafe.
  destruct googleResponse; try discriminate Hu.
  unfold numericUsage in Hnum. cbn [field] in Hnum.
  repeat (apply andb_true_iff in Hnum as [Hnum ?]).
  unfold safeUsage in Hsafe. cbn [field] in Hsafe.
  repeat (apply andb_true_iff in Hsafe as [Hsafe ?]).
  unfold _parseUsage, getProp. cbn [nullish bind]. cbn [field] in Hu. cbn [field]. rewrite Hu.
  unfold getOpt. cbn [nullish js_or truthy field].
  eexists. split; [reflexivity|]. cbn [field assoc String.eqb Ascii.eqb Bool.eqb].
  rewrite !count_or_zero by done.
  rewrite !js_add_exact by done.
  split; [done|]. split; [done|]. split.
  { destruct (assoc "candidatesTokensDetails" usage) eqn:Hd; try reflexivity.
    rewrite image_loop by done. f_equal. }
  split; [done|].
  intros other usage' Hu' Hsame.
  destruct other; try discriminate Hu'. cbn [field] in Hu'.
  unfold _parseUsage, getProp. cbn [nullish bind field]. rewrite Hu'.
  unfold getOpt. cbn [nullish js_or truthy field].
  eexists. split; [reflexivity|]. cbn [field assoc String.eqb Ascii.eqb Bool.eqb].
  rewrite !Hsame by done. rewrite !count_or_zero by done.
  by rewrite !js_add_exact by done.
Qed.

Lemma C6_usage_accounting_witness :
  ∃ r, _parseUsage (JObj [("usageMetadata", JObj [
            ("promptTokenCount", JNum 10); ("toolUsePromptTokenCount", JNum 4);
            ("candidatesTokenCount", JNum 7); ("thoughtsTokenCount", JNum 5);
            ("totalTokenCount", JNum 26);
            ("candidatesTokensDetails", JArr [
               JObj [("modality", JStr "IMAGE"); ("tokenCount", JNum 258)];
               JObj [("modality", JStr "TEXT"); ("tokenCount", JNum 7)];
               JObj [("modality", JStr "IMAGE"); ("tokenCount", JNum 258)]])])]) = Ret r
    ∧ field r "prompt_tokens" = JNum 14
    ∧ field r "completion_tokens" = JNum 12
    ∧ field (field r "completion_tokens_details") "image_tokens" = JNum 516
    ∧ field r "total_tokens" = JNum 26.
Proof.
  destruct (C6_usage_accounting
    (JObj [("usageMetadata", JObj [
            ("promptTokenCount", JNum 10); ("toolUsePromptTokenCount", JNum 4);
            ("candidatesTokenCount", JNum 7); ("thoughtsTokenCount", JNum 5);
            ("totalTokenCount", JNum 26);
            ("candidatesTokensDetails", JArr [
               JObj [("modality", JStr "IMAGE"); ("tokenCount", JNum 258)];
               JObj [("modality", JStr "TEXT"); ("tokenCount", JNum 7)];
               JObj [("modality", JStr "IMAGE"); ("tokenCount", JNum 258)]])])])
    _ eq_refl eq_refl eq_refl) as (r & Hr & Hp & Hc & Hi & Ht & _).
  exists r. repeat split; assumption.
Defined.

(** ** C7 *)

Lemma field_not_nullish v k : truthy (field v k) = true → nullish v = false.
Proof. by destruct v. Qed.

Lemma streamChunks_blocked e self googleResponse modelName streamState :
  truthy (firstCandidate googleResponse) = false →
  truthy (field googleResponse "promptFeedback") = true →
  ∃ chunk self',
    streamChunks e self googleResponse modelName streamState
      = Ret ([chunk], self', assignId e <$> streamState)
    ∧ field (delta chunk) "content" = JStr (blockedText googleResponse)
    ∧ finish_reason chunk = JStr "stop"
    ∧ field chunk "object" = JStr "chat.completion.chunk".
Proof.
  intros Hc Hpf. pose proof (field_not_nullish _ _ Hpf) as Hnn.
  unfold streamChunks, getProp. rewrite Hnn. cbn [bind].
  destruct (parseUsage_returns _ Hnn) as [u Hu]. rewrite Hu.
  destruct (truthy (field googleResponse "usageMetadata")); cbn [bind];
    rewrite Hc, Hpf; cbn [negb];
    (eexists _, _; split; [reflexivity|]; repeat split; reflexivity).
Qed.

Section SafetyBlock.
Context `{Host}.

(** The method on a fragment that parses: the frames of the chunks of
    [streamChunks], joined, or [null] when there is none. *)
Lemma translateGoogleToOpenAIStream_parsed e self googleChunk modelName streamState
    googleResponse chunks self' streamState' :
  isBlank googleChunk = false →
  jsonStringOf googleChunk ≠ "[DONE]" →
  JSON_parse (jsonStringOf googleChunk) = Some googleResponse →
  streamChunks e self googleResponse modelName streamState
    = Ret (chunks, self', streamState') →
  translateGoogleToOpenAIStream e self googleChunk modelName streamState
  = Ret (match chunks with
         | [] => None
         | _ => Some (String.concat "" (map frame chunks))
         end, self', streamState').
Proof.
  intros Hblank Hdone%String.eqb_neq Hparse Hrun.
  unfold translateGoogleToOpenAIStream. by rewrite Hblank, Hdone, Hparse, Hrun.
Qed.

(** C7.  A fragment that is not blank, is not the [DONE] marker and
    parses to a response without candidate but with a (truthy)
    [promptFeedback] makes the streaming translator return, without
    raising, the frame of exactly one chunk: its delta content is the error
    text ending in the block reason and its finish reason is "stop". *)
Theorem C7_safety_block_chunk (e : Env) (self : Converter) (googleChunk modelName : string)
    (streamState : option JsObj) (googleResponse : JsVal) :
  isBlank googleChunk = false →
  jsonStringOf googleChunk ≠ "[DONE]" →
  JSON_parse (jsonStringOf googleChunk) = Some googleResponse →
  truthy (firstCandidate googleResponse) = false →
  truthy (field googleResponse "promptFeedback") = true →
  ∃ chunk self' streamState',
    translateGoogleToOpenAIStream e self googleChunk modelName streamState
      = Ret (Some (frame chunk), self', streamState')
    ∧ streamChunks e self googleResponse modelName streamState
      = Ret ([chunk], self', streamState')
    ∧ field (delta chunk) "content"
      = JStr ("[ProxySystem Error] Request blocked due to safety settings. Finish Reason: "
              ++ toString (field (field googleResponse "promptFeedback") "blockReason"))
    ∧ finish_reason chunk = JStr "stop".
Proof.
  intros Hblank Hdone Hparse Hc Hpf.
  destruct (streamChunks_blocked e self googleResponse modelName streamState Hc Hpf)
    as (chunk & self' & Hrun & Hcontent & Hfin & _).
  exists chunk, self', (assignId e <$> streamState).
  split; [|by repeat split].
  unfold translateGoogleToOpenAIStream. rewrite Hblank.
  apply String.eqb_neq in Hdone. rewrite Hdone, Hparse, Hrun. cbn.
  reflexivity.
Qed.

End SafetyBlock.

Lemma C7_safety_block_chunk_witness :
  ∃ chunk self' streamState',
    translateGoogleToOpenAIStream {| Date_now := 1700000000123; random36 := "k3x9" |}
      {| streamUsage := JNull |} "data: BLOCKED" "gemini-2.5-flash-lite" (Some [])
      = Ret (Some (frame chunk), self', streamState')
    ∧ streamChunks {| Date_now := 1700000000123; random36 := "k3x9" |}
        {| streamUsage := JNull |} exampleBlocked "gemini-2.5-flash-lite" (Some [])
      = Ret ([chunk], self', streamState')
    ∧ field (delta chunk) "content"
      = JStr ("[ProxySystem Error] Request blocked due to safety settings. Finish Reason: "
              ++ toString (field (field exampleBlocked "promptFeedback") "blockReason"))
    ∧ finish_reason chunk = JStr "stop".
Proof.
  apply (C7_safety_block_chunk _ _ "data: BLOCKED" _ _ exampleBlocked);
    [reflexivity | discriminate | reflexivity | reflexivity | reflexivity].
Defined.

(** ** C2 *)

Lemma chunksFor_app s d1 d2 created streamId modelName :
  chunksFor s (d1 ++ d2) created streamId modelName
  = (chunksFor s d1 created streamId modelName
     ++ chunksFor (roleSentAfter s d1) d2 created streamId modelName)%list.
Proof.
  revert s. induction d1 as [|d d1 IH]; intros s; [done|].
  cbn [chunksFor app roleSentAfter]. rewrite IH. by destruct d1.
Qed.

Lemma chunksFor_length s ds created streamId modelName :
  length (chunksFor s ds created streamId modelName) = length ds.
Proof. revert s. induction ds as [|d ds IH]; intros s; simpl; [done|by rewrite IH]. Qed.

Lemma deltasOfParts_cons part parts :
  deltasOfParts (part :: parts)
  = match partDelta part with
    | Some (d, _) => d :: deltasOfParts parts
    | None => deltasOfParts parts
    end.
Proof. unfold deltasOfParts. simpl. by destruct (partDelta part) as [[??]|]. Qed.

Lemma partDelta_no_role part d thought :
  partDelta part = Some (d, thought) → hasKey "role" (JObj d) = false.
Proof.
  unfold partDelta. intros Hd.
  repeat match type of Hd with
         | (if ?c then _ else _) = _ => destruct c
         end; inversion Hd; reflexivity.
Qed.

(** The loop over the parts of one fragment. *)
Lemma partStep_loop created streamId modelName parts : ∀ st acc,
  forallb (fun part => negb (nullish part)) parts = true →
  ∃ st',
    js_foldM (partStep created streamId modelName) (Some st, acc) parts
    = Ret (Some st',
           (acc ++ chunksFor (truthy (assoc "roleSent" st)) (deltasOfParts parts)
                     created streamId modelName)%list)
    ∧ assoc "id" st' = assoc "id" st
    ∧ assoc "created" st' = assoc "created" st
    ∧ truthy (assoc "roleSent" st')
      = roleSentAfter (truthy (assoc "roleSent" st)) (deltasOfParts parts).
Proof.
  induction parts as [|part parts IH]; intros st acc Hparts.
  - exists st. simpl. by rewrite app_nil_r.
  - cbn [forallb] in Hparts. apply andb_true_iff in Hparts as [Hpart Hparts].
    apply negb_true_iff in Hpart.
    cbn [js_foldM]. unfold partStep at 1. unfold getProp. rewrite Hpart. cbn [bind].
    rewrite deltasOfParts_cons.
    destruct (partDelta part) as [[d thought]|] eqn:Hd; cbn [bind].
    2:{ apply IH, Hparts. }
    set (st1 := if thought then setProp "inThought" (JBool true) st else st).
    assert (Hrole1 : assoc "roleSent" st1 = assoc "roleSent" st).
    { subst st1. destruct thought; [|done]. by rewrite assoc_setProp_ne. }
    assert (Hid1 : assoc "id" st1 = assoc "id" st).
    { subst st1. destruct thought; [|done]. by rewrite assoc_setProp_ne. }
    assert (Hcr1 : assoc "created" st1 = assoc "created" st).
    { subst st1. destruct thought; [|done]. by rewrite assoc_setProp_ne. }
    replace (if thought then setProp "inThought" (JBool true) <$> Some st else Some st)
      with (Some st1) by (subst st1; by destruct thought).
    cbn [chunksFor roleSentAfter]. rewrite Hrole1.
    destruct (truthy (assoc "roleSent" st)) eqn:Hsent; cbn [negb bind].
    + destruct (IH st1 (acc ++ [contentChunk d created streamId modelName])%list Hparts)
        as (st' & Hrun & Hid & Hcr & Hrs).
      rewrite Hrole1, Hsent in Hrun, Hrs.
      exists st'. rewrite Hrun, Hid, Hcr, Hrs, Hid1, Hcr1.
      rewrite <- app_assoc. repeat split; try done. by destruct (deltasOfParts parts).
    + destruct (IH (setProp "roleSent" (JBool true) st1)
                  (acc ++ [contentChunk (d ++ [("role", JStr "assistant")]) created streamId modelName])%list
                  Hparts) as (st' & Hrun & Hid & Hcr & Hrs).
      rewrite assoc_setProp_eq in Hrun, Hrs. cbn [truthy] in Hrun, Hrs.
      rewrite assoc_setProp_ne in Hid, Hcr by done.
      exists st'. rewrite Hrun, Hid, Hcr, Hrs, Hid1, Hcr1.
      rewrite <- app_assoc. repeat split; try done. by destruct (deltasOfParts parts).
Qed.

Lemma candidateParts_falsy candidate :
  truthy candidate = false → candidateParts candidate = [].
Proof. by destruct candidate. Qed.

Lemma assignId_id_truthy e st : truthy (assoc "id" (assignId e st)) = true.
Proof.
  unfold assignId. destruct (truthy (assoc "id" st)) eqn:Hid; cbn [negb]; [done|].
  by rewrite assoc_setProp_ne, assoc_setProp_eq.
Qed.

Lemma assignId_stable e st : truthy (assoc "id" st) = true → assignId e st = st.
Proof. unfold assignId. by intros ->. Qed.

Lemma assignId_roleSent e st : assoc "roleSent" (assignId e st) = assoc "roleSent" st.
Proof.
  unfold assignId. destruct (truthy (assoc "id" st)); cbn [negb]; [done|].
  by rewrite !assoc_setProp_ne.
Qed.

(** One call on a digestible fragment. *)
Lemma streamChunks_fragment e self fragment modelName st :
  fragmentOk fragment = true →
  ∃ st',
    streamChunks e self fragment modelName (Some st)
    = Ret ((chunksFor (truthy (assoc "roleSent" st)) (deltasOfParts (partsOf fragment))
              (assoc "created" (assignId e st)) (assoc "id" (assignId e st)) modelName
            ++ (if carriesFinish fragment
                then [finalChunk (finishReasonOf fragment)
                        (js_or (cacheOnArrival (streamUsage self) fragment) JNull)
                        (assoc "created" (assignId e st)) (assoc "id" (assignId e st))
                        modelName]
                else []))%list,
           {| streamUsage := cacheAfter (streamUsage self) fragment |}, Some st')
    ∧ assoc "id" st' = assoc "id" (assignId e st)
    ∧ assoc "created" st' = assoc "created" (assignId e st)
    ∧ truthy (assoc "roleSent" st')
      = roleSentAfter (truthy (assoc "roleSent" st)) (deltasOfParts (partsOf fragment)).
Proof.
  intros Hok. unfold fragmentOk in Hok.
  apply andb_true_iff in Hok as [Hnn Hok]. apply negb_true_iff in Hnn.
  unfold streamChunks, getProp. rewrite Hnn. cbn [bind fmap option_fmap option_map].
  destruct (parseUsage_returns _ Hnn) as [u Hu].
  unfold cacheAfter, cacheOnArrival, carriesUsage, parsedUsage, carriesFinish,
    finishReasonOf, partsOf in *.
  rewrite Hu. destruct self as [cache]. cbn [streamUsage].
  set (c := if truthy (field fragment "usageMetadata") then JObj u else cache).
  assert (Hself : (if truthy (field fragment "usageMetadata")
                   then bind (Ret (JObj u)) (fun u0 => Ret {| streamUsage := u0 |})
                   else Ret {| streamUsage := cache |}) = Ret {| streamUsage := c |}).
  { subst c. by destruct (truthy (field fragment "usageMetadata")). }
  rewrite Hself. cbn [bind]. clear Hself.
  destruct (truthy (firstCandidate fragment)) eqn:Hc; cbn [negb andb].
  - destruct (partStep_loop (assoc "created" (assignId e st)) (assoc "id" (assignId e st))
                modelName _ (assignId e st) [] Hok) as (st' & Hrun & Hid & Hcr & Hrs).
    rewrite Hrun. cbn [bind]. rewrite assignId_roleSent in *. cbn [app] in *.
    exists st'. split; [|done].
    destruct (truthy (field (firstCandidate fragment) "finishReason")); [|by rewrite app_nil_r].
    cbn [streamUsage]. unfold js_or. by destruct (truthy c).
  - apply negb_true_iff in Hok. rewrite Hok.
    rewrite (candidateParts_falsy _ Hc). cbn.
    exists (assignId e st). by rewrite assignId_roleSent.
Qed.

Lemma contentDeltas_cons fragment rest :
  contentDeltas (fragment :: rest)
  = (deltasOfParts (partsOf fragment) ++ contentDeltas rest)%list.
Proof. unfold contentDeltas, deltasOfParts. cbn [map concat]. apply omap_app. Qed.

(** The whole stream: fragments without finish reason, then the one that
    carries it. *)
Lemma streamAll_then_finish modelName eLast last :
  fragmentOk last = true →
  carriesFinish last = true →
  ∀ (fragments : list (Env * JsVal)) self st,
    Forall (fun ef => fragmentOk ef.2 = true ∧ carriesFinish ef.2 = false) fragments →
    let st0 := assignId (hd eLast fragments.*1) st in
    let c := match latestUsage (fragments.*2 ++ [last]) with
             | Some fragment => parsedUsage fragment
             | None => streamUsage self
             end in
    ∃ st',
      streamAll modelName (fragments ++ [(eLast, last)]) self (Some st)
      = Ret ((chunksFor (truthy (assoc "roleSent" st))
                (contentDeltas (fragments.*2 ++ [last]))
                (assoc "created" st0) (assoc "id" st0) modelName
              ++ [finalChunk (finishReasonOf last) (js_or c JNull)
                    (assoc "created" st0) (assoc "id" st0) modelName])%list,
             {| streamUsage := if truthy c then JNull else c |}, Some st').
Proof.
  intros Hok Hfin fragments.
  induction fragments as [|[e fragment] fragments IH]; intros self st Hall; cbn zeta.
  - cbn [app fmap list_fmap hd streamAll latestUsage].
    destruct (streamChunks_fragment eLast self last modelName st Hok)
      as (st' & Hrun & _). rewrite Hrun. cbn [bind].
    unfold cacheAfter, cacheOnArrival. rewrite Hfin. cbn [andb].
    rewrite contentDeltas_cons. unfold contentDeltas at 1. cbn [map concat].
    change (deltasOfParts []) with (@nil JsObj).
    rewrite !app_nil_r. exists st'. by destruct (carriesUsage last).
  - apply Forall_cons in Hall as [[Hokf Hnf] Hall]. cbn [snd] in Hokf, Hnf.
    cbn [app fmap list_fmap hd streamAll fst snd latestUsage].
    destruct (streamChunks_fragment e self fragment modelName st Hokf)
      as (st1 & Hrun & Hid & Hcr & Hrs). rewrite Hrun. cbn [bind].
    rewrite Hnf. rewrite app_nil_r.
    destruct (IH {| streamUsage := cacheAfter (streamUsage self) fragment |} st1 Hall)
      as (st' & Hrest). cbn zeta in Hrest.
    assert (Hst1 : assignId (hd eLast fragments.*1) st1 = st1).
    { apply assignId_stable. rewrite Hid. apply assignId_id_truthy. }
    rewrite Hst1, Hid, Hcr, Hrs in Hrest.
    change (list_fmap _ _ snd fragments) with (fragments.*2).
    rewrite Hrest. cbn [bind].
    rewrite contentDeltas_cons, chunksFor_app, <- app_assoc.
    exists st'. cbn [streamUsage].
    unfold cacheAfter, cacheOnArrival. rewrite Hnf. cbn [andb].
    destruct (latestUsage (fragments.*2 ++ [last])); [done|].
    by destruct (carriesUsage fragment).
Qed.

Lemma deltasOfParts_no_role parts :
  Forall (fun d => hasKey "role" (JObj d) = false) (deltasOfParts parts).
Proof.
  induction parts as [|part parts IH]; [constructor|].
  rewrite deltasOfParts_cons. destruct (partDelta part) as [[d th]|] eqn:Hd; [|done].
  constructor; [|done]. by eapply partDelta_no_role.
Qed.

Lemma hasKey_role_appended (d : JsObj) v :
  hasKey "role" (JObj (d ++ [("role", v)])) = true.
Proof. unfold hasKey. rewrite map_app, existsb_app. apply orb_true_r. Qed.

Lemma chunksFor_lookup created streamId modelName ds : ∀ s i chunk,
  Forall (fun d => hasKey "role" (JObj d) = false) ds →
  chunksFor s ds created streamId modelName !! i = Some chunk →
  finish_reason chunk = JNull
  ∧ hasKey "role" (delta chunk) = negb s && bool_decide (i = 0%nat).
Proof.
  induction ds as [|d ds IH]; intros s i chunk Hds Hi; [done|].
  apply Forall_cons in Hds as [Hd Hds].
  destruct i as [|i]; cbn [chunksFor] in Hi.
  - injection Hi as <-. split; [done|].
    change (delta (contentChunk ?x _ _ _)) with (JObj x).
    destruct s; cbn [negb andb]; [done|]. by rewrite hasKey_role_appended.
  - destruct (IH true i chunk Hds Hi) as [Hfin Hrole].
    split; [done|]. rewrite Hrole. cbn. by rewrite andb_false_r.
Qed.

(** C2 (amended).  Take a fresh translation state (no role sent yet)
    and an empty usage cache; feed the translator fragments without finish
    reason and then one fragment that carries it, none of them nor any of
    their parts [null], and none a notice of a blocked prompt (a fragment
    without candidate that carries [promptFeedback]); let N be the number
    of content-bearing parts of them all.  The translator emits N content
    chunks followed by exactly one terminal chunk; the role is on the first
    content chunk and on no other; the terminal chunk has an empty delta,
    the finish reason, and a [usage] key holding the record parsed from the
    last fragment that carried usage metadata, or [null] when none did;
    afterwards the usage cache is empty. *)
Theorem C2_stream_chunks_and_terminal (modelName : string)
    (fragments : list (Env * JsVal)) (eLast : Env) (last : JsVal)
    (self : Converter) (streamState : JsObj) :
  streamUsage self = JNull →
  truthy (assoc "roleSent" streamState) = false →
  Forall (fun ef => fragmentOk ef.2 = true ∧ carriesFinish ef.2 = false) fragments →
  fragmentOk last = true →
  carriesFinish last = true →
  let all := (fragments.*2 ++ [last])%list in
  let state0 := assignId (hd eLast fragments.*1) streamState in
  ∃ contents terminal streamState',
    streamAll modelName (fragments ++ [(eLast, last)]) self (Some streamState)
      = Ret ((contents ++ [terminal])%list, {| streamUsage := JNull |}, Some streamState')
    ∧ contents = chunksFor false (contentDeltas all)
                   (assoc "created" state0) (assoc "id" state0) modelName
    ∧ length contents = length (contentDeltas all)
    ∧ (∀ i chunk, contents !! i = Some chunk →
         finish_reason chunk = JNull
         ∧ hasKey "role" (delta chunk) = bool_decide (i = 0%nat))
    ∧ delta terminal = JObj []
    ∧ finish_reason terminal = finishReasonOf last
    ∧ hasKey "usage" terminal = true
    ∧ field terminal "usage"
      = match latestUsage all with
        | Some fragment => parsedUsage fragment
        | None => JNull
        end.
Proof.
  intros Hcache Hrole Hall Hok Hfin all state0.
  destruct (streamAll_then_finish modelName eLast last Hok Hfin fragments self streamState Hall)
    as (st' & Hrun). cbn zeta in Hrun. rewrite Hrole, Hcache in Hrun.
  fold all in Hrun. fold state0 in Hrun.
  set (c := match latestUsage all with
            | Some fragment => parsedUsage fragment
            | None => JNull
            end) in *.
  assert (Hc : (if truthy c then JNull else c) = JNull ∧ js_or c JNull = c).
  { subst c. destruct (latestUsage all) as [fragment|]; [|done].
    unfold parsedUsage, _parseUsage, getProp, js_or.
    by destruct (nullish fragment). }
  destruct Hc as [Hc1 Hc2]. rewrite Hc1, Hc2 in Hrun.
  eexists _, _, st'. split; [exact Hrun|].
  split; [done|]. split; [apply chunksFor_length|]. split.
  { intros i chunk Hi. unfold contentDeltas in Hi.
    eapply chunksFor_lookup in Hi; [exact Hi|apply deltasOfParts_no_role]. }
  done.
Qed.

Lemma C2_stream_chunks_and_terminal_witness :
  ∃ contents terminal streamState',
    streamAll "gemini-2.5-flash-lite"
      ((exampleFragments ++ [exampleUsageFragment]) ++ [(exampleEnv 80, exampleLast)])
      {| streamUsage := JNull |} (Some [])
      = Ret ((contents ++ [terminal])%list, {| streamUsage := JNull |}, Some streamState')
    ∧ length contents = 3%nat
    ∧ (∀ i chunk, contents !! i = Some chunk →
         finish_reason chunk = JNull
         ∧ hasKey "role" (delta chunk) = bool_decide (i = 0%nat))
    ∧ delta terminal = JObj []
    ∧ finish_reason terminal = JStr "STOP"
    ∧ usage_field terminal "prompt_tokens" = JNum 3
    ∧ usage_field terminal "completion_tokens" = JNum 2.
Proof.
  destruct (C2_stream_chunks_and_terminal "gemini-2.5-flash-lite"
              (exampleFragments ++ [exampleUsageFragment]) (exampleEnv 80) exampleLast
              {| streamUsage := JNull |} [])
    as (contents & terminal & st' & Hrun & _ & Hlen & Hrole & Hdelta & Hfin & _ & Husage).
  - reflexivity.
  - reflexivity.
  - repeat constructor.
  - reflexivity.
  - reflexivity.
  - exists contents, terminal, st'.
    split; [exact Hrun|]. split; [exact Hlen|]. split; [exact Hrole|].
    split; [exact Hdelta|]. split; [exact Hfin|].
    unfold usage_field. rewrite Husage. split; reflexivity.
Defined.

(** C2 (as stated, refuted).  In the example stream no fragment carries
    usage metadata; the translator emits its three content chunks and a
    terminal chunk, and the terminal chunk does have a [usage] key: it
    holds [null]. *)
Lemma C2_terminal_chunk_keeps_usage_key :
  latestUsage (exampleFragments.*2 ++ [exampleLast]) = None
  ∧ ∃ contents terminal self' streamState',
      streamAll "gemini-2.5-flash-lite"
        (exampleFragments ++ [(exampleEnv 80, exampleLast)])
        {| streamUsage := JNull |} (Some [])
        = Ret ((contents ++ [terminal])%list, self', streamState')
      ∧ length contents = 3%nat
      ∧ hasKey "usage" terminal = true
      ∧ field terminal "usage" = JNull.
Proof.
  split; [reflexivity|].
  eexists [_; _; _], _, _, _. split; [vm_compute; reflexivity|].
  repeat split; reflexivity.
Qed.

(** Why the fragments of C2 leave out the notice of a blocked prompt:
    such a fragment carries no part, yet the translator answers it with a
    chunk of its own, which has content and the finish reason "stop"
    (see C7). *)
Lemma blocked_prompt_in_a_stream :
  fragmentOk exampleBlocked = false
  ∧ contentDeltas [exampleBlocked; exampleLast] = []
  ∧ ∃ blocked terminal self' streamState',
      streamAll "gemini-2.5-flash-lite"
        [(exampleEnv 0, exampleBlocked); (exampleEnv 80, exampleLast)]
        {| streamUsage := JNull |} (Some [])
        = Ret ([blocked; terminal], self', streamState')
      ∧ field (delta blocked) "content" = JStr (blockedText exampleBlocked)
      ∧ finish_reason blocked = JStr "stop"
      ∧ delta terminal = JObj [].
Proof.
  split; [reflexivity|]. split; [reflexivity|].
  eexists _, _, _, _. split; [vm_compute; reflexivity|].
  repeat split; reflexivity.
Qed.

(** ** C3 *)

Lemma bind_Ret_inv {A B} (m : Js A) (k : A → Js B) b :
  bind m k = Ret b → ∃ a, m = Ret a ∧ k a = Ret b.
Proof. destruct m as [a|]; [eauto|discriminate]. Qed.

Lemma js_filter_role r msgs :
  forallb (fun msg => negb (nullish msg)) msgs = true →
  js_filter (isRole r) msgs
    = Ret (List.filter (fun msg => strictEqStr (field msg "role") r) msgs)
  ∧ js_filter (isNotRole r) msgs
    = Ret (List.filter (fun msg => negb (strictEqStr (field msg "role") r)) msgs).
Proof.
  induction msgs as [|msg msgs IH]; intros Hall; [done|].
  cbn [forallb] in Hall. apply andb_true_iff in Hall as [Hmsg Hall].
  apply negb_true_iff in Hmsg. destruct (IH Hall) as [IH1 IH2].
  cbn [js_filter List.filter]. unfold isRole, isNotRole, getProp.
  rewrite Hmsg. cbn [bind]. unfold isRole in IH1. unfold isNotRole in IH2.
  unfold getProp in IH1, IH2. by rewrite IH1, IH2.
Qed.

Lemma textOnly_not_nullish msgs :
  forallb textOnly msgs = true → forallb (fun msg => negb (nullish msg)) msgs = true.
Proof.
  induction msgs as [|msg msgs IH]; [done|]. cbn [forallb].
  intros [Hm Hall]%andb_true_iff. unfold textOnly in Hm.
  apply andb_true_iff in Hm as [-> _]. by apply IH.
Qed.

Section OutboundProperties.
Context `{Host}.

Lemma convertMessage_text msg :
  textOnly msg = true → convertMessage msg = Ret (textEntry msg).
Proof.
  unfold textOnly. intros [Hnn Hstr]%andb_true_iff. apply negb_true_iff in Hnn.
  unfold convertMessage, textEntry, remappedRole, getProp. rewrite Hnn. cbn [bind].
  by destruct (field msg "content").
Qed.

Lemma convertMessages_text msgs :
  forallb textOnly msgs = true → js_mapM convertMessage msgs = Ret (map textEntry msgs).
Proof.
  induction msgs as [|msg msgs IH]; [done|]. cbn [forallb].
  intros [Hm Hall]%andb_true_iff. cbn [js_mapM map].
  by rewrite (convertMessage_text _ Hm), (IH Hall).
Qed.

End OutboundProperties.

Lemma forallb_filter {A} (p q : A → bool) l :
  forallb p l = true → forallb p (List.filter q l) = true.
Proof.
  induction l as [|x l IH]; [done|]. cbn [forallb List.filter].
  intros [Hx Hl]%andb_true_iff. destruct (q x); cbn [forallb]; [rewrite Hx|]; by apply IH.
Qed.

(** The injection block leaves every key but [tools] alone. *)
Lemma injectForcedTools_other_keys sys req req1 k :
  injectForcedTools sys req = Ret req1 → k ≠ "tools" → assoc k req1 = assoc k req.
Proof.
  unfold injectForcedTools. intros Hinj Hk.
  destruct (forceWebSearch sys || forceUrlContext sys); [|by injection Hinj as <-].
  set (req0 := if negb (truthy (assoc "tools" req))
               then setProp "tools" (JArr []) req else req) in *.
  assert (Hreq0 : assoc k req0 = assoc k req).
  { subst req0. destruct (negb _); [|done]. by apply assoc_setProp_ne. }
  destruct (assoc "tools" req0); try discriminate Hinj.
  apply bind_Ret_inv in Hinj as (t1 & _ & Hinj).
  apply bind_Ret_inv in Hinj as (t2 & _ & Hinj).
  injection Hinj as <-. by rewrite assoc_setProp_ne.
Qed.

(** On a request without [tools], the block never raises. *)
Lemma injectForcedTools_fresh sys req :
  truthy (assoc "tools" req) = false → ∃ req1, injectForcedTools sys req = Ret req1.
Proof.
  intros Hfresh. unfold injectForcedTools.
  destruct (forceWebSearch sys || forceUrlContext sys); [|eauto].
  rewrite Hfresh. cbn [negb]. rewrite assoc_setProp_eq.
  unfold forceTool, hasTool.
  destruct (forceWebSearch sys), (forceUrlContext sys); cbn; eauto.
Qed.

Section OutboundTheorems.
Context `{Host}.

(** C3.  For a request whose messages all have plain-string content, the
    outbound translation returns a request whose [contents] holds exactly
    one entry per non-system message, in the order of the message list;
    the entry carries the text as its single part and the role "model" for
    an "assistant" message, "user" for any other. *)
Theorem C3_contents_of_text_messages (sys : ServerSystem) (self : Converter)
    (openaiBody : JsVal) (messages : list JsVal) :
  field openaiBody "messages" = JArr messages →
  forallb textOnly messages = true →
  ∃ googleRequest,
    (translateOpenAIToGoogle sys self openaiBody).1 = Ret googleRequest
    ∧ field googleRequest "contents"
      = JArr (map textEntry (List.filter nonSystem messages))
    ∧ length (map textEntry (List.filter nonSystem messages))
      = length (List.filter nonSystem messages).
Proof.
  intros Hmsgs Htext.
  assert (Hnn : nullish openaiBody = false) by (by destruct openaiBody).
  pose proof (textOnly_not_nullish _ Htext) as Hobj.
  destruct (js_filter_role "system" messages Hobj) as [Hsys Hconv].
  cbn [translateOpenAIToGoogle fst]. unfold buildGoogleRequest, getProp.
  rewrite Hnn. cbn [bind]. rewrite Hmsgs, Hsys. cbn [bind]. rewrite Hconv. cbn [bind].
  fold isSystem in *.
  change (fun msg => negb (isSystem msg)) with nonSystem.
  rewrite (convertMessages_text _ (forallb_filter _ _ _ Htext)). cbn [bind].
  match goal with
  | |- context [injectForcedTools sys ?r] =>
      destruct (injectForcedTools_fresh sys r) as [req1 Hreq1];
        [|pose proof (injectForcedTools_other_keys sys r req1 "contents" Hreq1) as Hkeep;
          rewrite Hreq1]
  end.
  { rewrite assoc_setProp_ne by done.
    by destruct (List.filter isSystem messages). }
  cbn [bind]. eexists. split; [reflexivity|]. split; [|apply length_map].
  cbn [field]. rewrite assoc_setProp_ne by done. rewrite Hkeep by done.
  by rewrite assoc_setProp_ne.
Qed.

Lemma rawThinkingConfig_spec openaiBody :
  match explicitThinking openaiBody with
  | Some raw => rawThinkingConfig openaiBody = raw ∧ truthy raw = true
  | None => truthy (rawThinkingConfig openaiBody) = false
  end.
Proof.
  unfold explicitThinking, thinkingSpellings, rawThinkingConfig.
  change (js_or (field openaiBody "extra_body") (JObj [])) with (extraBodyOf openaiBody).
  generalize (getOpt (field (extraBodyOf openaiBody) "google") "thinking_config")
             (getOpt (field (extraBodyOf openaiBody) "google") "thinkingConfig")
             (field (extraBodyOf openaiBody) "thinkingConfig")
             (field (extraBodyOf openaiBody) "thinking_config")
             (field openaiBody "thinkingConfig")
             (field openaiBody "thinking_config").
  intros a b c d e f. unfold js_or. cbn [List.find].
  destruct (truthy a) eqn:Ha; [done|].
  destruct (truthy b) eqn:Hb; [done|].
  destruct (truthy c) eqn:Hc; [done|].
  destruct (truthy d) eqn:Hd; [done|].
  destruct (truthy e) eqn:He; [done|].
  by destruct (truthy f) eqn:Hf.
Qed.

Lemma resolveThinkingConfig_spec sys openaiBody :
  resolveThinkingConfig sys openaiBody
  = match explicitThinking openaiBody with
    | Some raw => convertedThinking raw
    | None =>
        if effortFlag openaiBody then JObj [("includeThoughts", JBool true)]
        else if forceThinking sys then JObj [("includeThoughts", JBool true)]
        else JNull
    end.
Proof.
  pose proof (rawThinkingConfig_spec openaiBody) as Hraw.
  unfold resolveThinkingConfig.
  destruct (explicitThinking openaiBody) as [raw|].
  - destruct Hraw as [-> ->]. fold (isUndefined (field raw "include_thoughts")).
    fold (isUndefined (field raw "includeThoughts")). fold (convertedThinking raw).
    assert (Htr : truthy (convertedThinking raw) = true).
    { unfold convertedThinking. by repeat destruct (negb _). }
    rewrite Htr. cbn [negb]. rewrite Htr. cbn [negb]. by rewrite andb_false_r.
  - rewrite Hraw. cbn [truthy negb].
    replace (truthy (reasoningEffort openaiBody)) with (effortFlag openaiBody).
    2:{ unfold effortFlag, reasoningEffort.
        change (js_or (field openaiBody "extra_body") (JObj []))
          with (extraBodyOf openaiBody).
        unfold js_or.
        by destruct (truthy (field openaiBody "reasoning_effort")) eqn:He; [rewrite He|]. }
    destruct (effortFlag openaiBody); cbn [truthy negb].
    + by rewrite andb_false_r.
    + rewrite andb_true_r. by destruct (forceThinking sys).
Qed.

(** What [buildGoogleRequest] puts under [generationConfig.thinkingConfig]. *)
Lemma buildGoogleRequest_thinking sys openaiBody googleRequest :
  buildGoogleRequest sys openaiBody = Ret googleRequest →
  let thinkingConfig := resolveThinkingConfig sys openaiBody in
  if truthy thinkingConfig
  then thinkingOf googleRequest = thinkingConfig
  else hasKey "thinkingConfig" (field googleRequest "generationConfig") = false.
Proof.
  unfold buildGoogleRequest. intros Hrun.
  apply bind_Ret_inv in Hrun as (msgs & _ & Hrun).
  destruct msgs; try discriminate Hrun.
  apply bind_Ret_inv in Hrun as (sysMsgs & _ & Hrun).
  apply bind_Ret_inv in Hrun as (conv & _ & Hrun).
  apply bind_Ret_inv in Hrun as (contents & _ & Hrun).
  apply bind_Ret_inv in Hrun as (req1 & Hinj & Hrun).
  injection Hrun as <-. cbn zeta.
  pose proof (injectForcedTools_other_keys _ _ _ "generationConfig" Hinj) as Hkeep.
  rewrite assoc_setProp_eq in Hkeep.
  unfold thinkingOf. cbn [field]. rewrite assoc_setProp_ne by done.
  rewrite Hkeep by done.
  destruct (truthy (resolveThinkingConfig sys openaiBody)); cbn [field].
  - by rewrite !assoc_setProp_eq || (cbn; rewrite ?String.eqb_refl).
  - reflexivity.
Qed.

(** C4.  In the request the outbound translation returns, the thinking
    configuration of [generationConfig] is decided in this order: the
    first accepted spelling the request fills with a truthy value, whose
    object is converted; failing that, a truthy [reasoning_effort], which
    forces thought inclusion; failing that, the server-wide force-thinking
    flag, which injects thought inclusion; failing all three, no
    [thinkingConfig] is attached. *)
Theorem C4_thinking_priority (sys : ServerSystem) (self : Converter)
    (openaiBody googleRequest : JsVal) :
  (translateOpenAIToGoogle sys self openaiBody).1 = Ret googleRequest →
  match explicitThinking openaiBody with
  | Some raw => thinkingOf googleRequest = convertedThinking raw
  | None =>
      if effortFlag openaiBody then
        thinkingOf googleRequest = JObj [("includeThoughts", JBool true)]
      else if forceThinking sys then
        thinkingOf googleRequest = JObj [("includeThoughts", JBool true)]
      else hasKey "thinkingConfig" (field googleRequest "generationConfig") = false
  end.
Proof.
  cbn [translateOpenAIToGoogle fst]. intros Hrun.
  pose proof (buildGoogleRequest_thinking _ _ _ Hrun) as Hth. cbn zeta in Hth.
  rewrite resolveThinkingConfig_spec in Hth.
  destruct (explicitThinking openaiBody) as [raw|].
  - assert (Htr : truthy (convertedThinking raw) = true).
    { unfold convertedThinking. by repeat destruct (negb _). }
    by rewrite Htr in Hth.
  - destruct (effortFlag openaiBody); [exact Hth|].
    destruct (forceThinking sys); exact Hth.
Qed.

End OutboundTheorems.

Lemma C3_contents_of_text_messages_witness :
  ∃ googleRequest,
    (translateOpenAIToGoogle forceAll {| streamUsage := JNull |} exampleBody).1
      = Ret googleRequest
    ∧ field googleRequest "contents"
      = JArr [JObj [("parts", JArr [JObj [("text", JStr "hi")]]); ("role", JStr "user")];
              JObj [("parts", JArr [JObj [("text", JStr "hello")]]); ("role", JStr "model")];
              JObj [("parts", JArr [JObj [("text", JStr "42")]]); ("role", JStr "user")]]
    ∧ length (map textEntry (List.filter nonSystem
                (match field exampleBody "messages" with JArr l => l | _ => [] end)))
      = 3%nat.
Proof.
  exact (C3_contents_of_text_messages forceAll {| streamUsage := JNull |} exampleBody _
           eq_refl eq_refl).
Defined.

Lemma C4_thinking_priority_witness :
  ∃ googleRequest,
    (translateOpenAIToGoogle forceAll {| streamUsage := JNull |} exampleBody).1
      = Ret googleRequest
    ∧ thinkingOf googleRequest = JObj [("includeThoughts", JBool false)].
Proof.
  eexists. split; [reflexivity|].
  exact (C4_thinking_priority forceAll {| streamUsage := JNull |} exampleBody _ eq_refl).
Defined.

(** ** C5 *)

Lemma hasTool_existsb key tools b :
  hasTool key tools = Ret b → b = existsb (isDescriptor key) tools.
Proof.
  unfold hasTool. induction tools as [|t tools IH]; cbn [js_some existsb].
  - by intros [= <-].
  - unfold getProp at 1. destruct (nullish t); [discriminate|]. cbn [bind].
    unfold isDescriptor at 1. destruct (truthy (field t key)); [by intros [= <-]|].
    apply IH.
Qed.

Lemma hasTool_app key tools more b :
  hasTool key tools = Ret b →
  hasTool key (tools ++ more) = if b then Ret true else hasTool key more.
Proof.
  unfold hasTool. induction tools as [|t tools IH]; cbn [js_some app].
  - by intros [= <-].
  - unfold getProp at 1 3. destruct (nullish t); [discriminate|]. cbn [bind].
    destruct (truthy (field t key)); [by intros [= <-]|]. apply IH.
Qed.

Lemma hasTool_descriptor key key' :
  hasTool key [JObj [(key', JObj [])]] = Ret (String.eqb key key').
Proof. unfold hasTool. cbn. by destruct (String.eqb key key'). Qed.

Lemma forceTool_extends enabled key tools tools1 :
  forceTool enabled key tools = Ret tools1 →
  tools1 = (tools ++ if enabled && negb (existsb (isDescriptor key) tools)
                     then [JObj [(key, JObj [])]] else [])%list.
Proof.
  unfold forceTool. destruct enabled; cbn [andb].
  2:{ intros [= <-]. by rewrite app_nil_r. }
  intros (has & Hhas & Hrun)%bind_Ret_inv.
  rewrite <- (hasTool_existsb _ _ _ Hhas).
  destruct has; cbn [negb] in *; injection Hrun as <-; [by rewrite app_nil_r|done].
Qed.

(** Once forced, a tool stays found, whatever is pushed after it. *)
Lemma forceTool_fixed enabled key tools tools1 more :
  forceTool enabled key tools = Ret tools1 →
  forceTool enabled key (tools1 ++ more) = Ret (tools1 ++ more)%list.
Proof.
  unfold forceTool. destruct enabled; [|done].
  intros (has & Hhas & Hrun)%bind_Ret_inv.
  assert (Hfound : hasTool key tools1 = Ret true).
  { destruct has; cbn [negb] in Hrun; injection Hrun as <-; [done|].
    rewrite (hasTool_app _ _ _ _ Hhas), hasTool_descriptor.
    by rewrite String.eqb_refl. }
  by rewrite (hasTool_app _ _ _ _ Hfound).
Qed.

Lemma descriptor_count key key' tools :
  length (List.filter (isDescriptor key) (tools ++ [JObj [(key', JObj [])]]))
  = (length (List.filter (isDescriptor key) tools)
     + if String.eqb key key' then 1 else 0)%nat.
Proof.
  rewrite List.filter_app, length_app. f_equal.
  unfold isDescriptor. cbn. by destruct (String.eqb key key').
Qed.

Lemma existsb_false_count {A} (p : A → bool) l :
  existsb p l = false → length (List.filter p l) = 0%nat.
Proof.
  induction l as [|x l IH]; [done|]. cbn [existsb List.filter].
  intros [Hx Hl]%orb_false_iff. rewrite Hx. by apply IH.
Qed.

Lemma forceTool_count enabled key tools tools1 key' :
  forceTool enabled key tools = Ret tools1 →
  (length (List.filter (isDescriptor key') tools)
   ≤ length (List.filter (isDescriptor key') tools1)
   ≤ S (length (List.filter (isDescriptor key') tools)))%nat
  ∧ ((length (List.filter (isDescriptor key') tools) ≤ 1)%nat →
     (length (List.filter (isDescriptor key') tools1) ≤ 1)%nat).
Proof.
  intros Hrun. rewrite (forceTool_extends _ _ _ _ Hrun).
  destruct (enabled && negb (existsb (isDescriptor key) tools)) eqn:Hpush.
  2:{ rewrite app_nil_r. lia. }
  apply andb_true_iff in Hpush as [_ Hnone]. apply negb_true_iff in Hnone.
  rewrite descriptor_count. destruct (String.eqb_spec key' key) as [->|]; [|lia].
  rewrite (existsb_false_count _ _ Hnone). lia.
Qed.

(** The injection of the forced tools, taken on its own, is idempotent:
    run on the request it has returned, it returns that request unchanged,
    whatever the starting tools array was.  It appends a descriptor at most
    once, so a descriptor that the starting array holds at most once is
    held at most once by the result. *)
Lemma injectForcedTools_idempotent (sys : ServerSystem) (googleRequest injected : JsObj) :
  injectForcedTools sys googleRequest = Ret injected →
  injectForcedTools sys injected = Ret injected
  ∧ ∀ key,
      (toolCount key injected ≤ S (toolCount key googleRequest))%nat
      ∧ ((toolCount key googleRequest ≤ 1)%nat → (toolCount key injected ≤ 1)%nat).
Proof.
  unfold injectForcedTools. intros Hrun.
  destruct (forceWebSearch sys || forceUrlContext sys) eqn:Hforce.
  2:{ injection Hrun as <-. split; [done|]. intros key. lia. }
  set (req0 := if negb (truthy (assoc "tools" googleRequest))
               then setProp "tools" (JArr []) googleRequest else googleRequest) in *.
  destruct (assoc "tools" req0) as [| | | | | |tools0|] eqn:Htools0; try discriminate Hrun.
  apply bind_Ret_inv in Hrun as (tools1 & Hstep1 & Hrun).
  apply bind_Ret_inv in Hrun as (tools2 & Hstep2 & Hrun).
  injection Hrun as <-.
  assert (Hcount0 : ∀ key, toolCount key googleRequest
                            = length (List.filter (isDescriptor key) tools0)).
  { intros key. unfold toolCount. subst req0.
    destruct (truthy (assoc "tools" googleRequest)) eqn:Ht; cbn [negb] in Htools0.
    - by rewrite Htools0.
    - rewrite assoc_setProp_eq in Htools0. injection Htools0 as <-.
      by destruct (assoc "tools" googleRequest). }
  split.
  - rewrite assoc_setProp_eq. cbn [truthy negb]. rewrite assoc_setProp_eq.
    pose proof (forceTool_extends _ _ _ _ Hstep2) as Hext.
    rewrite Hext at 1. rewrite (forceTool_fixed _ _ _ _ _ Hstep1). cbn [bind].
    rewrite <- Hext.
    rewrite <- (app_nil_r tools2) at 1.
    rewrite (forceTool_fixed _ _ _ _ [] Hstep2). cbn [bind].
    by rewrite app_nil_r, setProp_setProp_eq.
  - intros key.
    assert (Hcount2 : toolCount key (setProp "tools" (JArr tools2) req0)
                      = length (List.filter (isDescriptor key) tools2)).
    { unfold toolCount. by rewrite assoc_setProp_eq. }
    rewrite Hcount2, Hcount0.
    pose proof (forceTool_count _ _ _ _ key Hstep1) as [[_ Hup1] Hone1].
    pose proof (forceTool_count _ _ _ _ key Hstep2) as [[_ Hup2] Hone2].
    split; [|by intros ?; apply Hone2, Hone1].
    pose proof (forceTool_extends _ _ _ _ Hstep1) as Hext1.
    pose proof (forceTool_extends _ _ _ _ Hstep2) as Hext2.
    destruct (String.eqb_spec key "googleSearch") as [->|Hgs].
    + (* the second push is a urlContext descriptor *)
      rewrite Hext2.
      destruct (forceUrlContext sys && negb (existsb (isDescriptor "urlContext") tools1));
        [|rewrite app_nil_r; lia].
      rewrite descriptor_count. cbn. lia.
    + rewrite Hext1 in Hup2. revert Hup2.
      destruct (forceWebSearch sys && negb (existsb (isDescriptor "googleSearch") tools0));
        [|rewrite app_nil_r; lia].
      rewrite !descriptor_count.
      destruct (String.eqb_spec key "googleSearch"); [done|]. lia.
Qed.

(** ** C8 *)

Section RegistryProperties.
Context `{Host}.

(** No handler of a [message] event lets an exception escape, and none
    touches the peer set or the grace timer. *)
Lemma _handleIncomingMessage_total messageData r :
  ∃ r', _handleIncomingMessage messageData r = Ret r'
        ∧ connections r' = connections r
        ∧ messageQueues r' = messageQueues r
        ∧ reconnectGraceTimer r' = reconnectGraceTimer r
        ∧ pendingTimers r' = pendingTimers r
        ∧ nextTimer r' = nextTimer r.
Proof.
  unfold _handleIncomingMessage, try_catch.
  destruct (JSON_parse messageData) as [parsed|]; [|by eexists].
  unfold _routeMessage, getProp.
  destruct (nullish parsed); cbn [bind]; [by eexists|].
  destruct (truthy (field parsed "request_id")); cbn [negb]; [|by eexists].
  destruct (getQueue (field parsed "request_id") r) as [queue|]; [|by eexists].
  cbn [bind].
  repeat match goal with |- context [if ?c then _ else _] => destruct c end;
    by eexists.
Qed.

(** C8.  A message that does not parse, and a message whose
    [request_id] has no queue in the map, are handled without raising; the
    queue map, the contents and state of every queue, the peer set and the
    grace timer are what they were, and nothing is emitted. *)
Theorem C8_unroutable_message_dropped (messageData : string) (r : Registry) :
  (JSON_parse messageData = None
   ∨ ∃ parsed, JSON_parse messageData = Some parsed
               ∧ getQueue (getOpt parsed "request_id") r = None) →
  ∃ r', _handleIncomingMessage messageData r = Ret r'
        ∧ messageQueues r' = messageQueues r
        ∧ queueStore r' = queueStore r
        ∧ connections r' = connections r
        ∧ reconnectGraceTimer r' = reconnectGraceTimer r
        ∧ pendingTimers r' = pendingTimers r
        ∧ emitted r' = emitted r.
Proof.
  unfold _handleIncomingMessage, try_catch.
  intros [Hparse|(parsed & Hparse & Hqueue)]; rewrite Hparse; [by eexists|].
  unfold getProp, getOpt in *.
  destruct (nullish parsed); cbn [bind]; [by eexists|].
  destruct (truthy (field parsed "request_id")); cbn [negb]; [|by eexists].
  rewrite Hqueue. by eexists.
Qed.

End RegistryProperties.

Lemma C8_unroutable_message_dropped_witness :
  (∃ r', _handleIncomingMessage "ORPHAN" exampleRegistry = Ret r'
         ∧ messageQueues r' = messageQueues exampleRegistry
         ∧ queueStore r' = queueStore exampleRegistry
         ∧ connections r' = connections exampleRegistry
         ∧ reconnectGraceTimer r' = reconnectGraceTimer exampleRegistry
         ∧ pendingTimers r' = pendingTimers exampleRegistry
         ∧ emitted r' = emitted exampleRegistry)
  ∧ (∃ r', _handleIncomingMessage "not json" exampleRegistry = Ret r'
         ∧ messageQueues r' = messageQueues exampleRegistry
         ∧ queueStore r' = queueStore exampleRegistry
         ∧ connections r' = connections exampleRegistry
         ∧ reconnectGraceTimer r' = reconnectGraceTimer exampleRegistry
         ∧ pendingTimers r' = pendingTimers exampleRegistry
         ∧ emitted r' = emitted exampleRegistry).
Proof.
  split.
  - apply C8_unroutable_message_dropped. right. eexists. split; reflexivity.
  - apply C8_unroutable_message_dropped. left. reflexivity.
Defined.

(** ** C9 *)

(** A disconnect leaves a pending grace timer in the registry. *)
Lemma _removeConnection_starts_timer websocket r :
  reconnectGraceTimer (_removeConnection websocket r) = Some (nextTimer r)
  ∧ (nextTimer r ∈ pendingTimers (_removeConnection websocket r))
  ∧ messageQueues (_removeConnection websocket r) = messageQueues r
  ∧ queueStore (_removeConnection websocket r) = queueStore r.
Proof.
  repeat split; cbn. apply elem_of_union_r. by apply elem_of_singleton.
Qed.

(** A new peer cancels the timer the registry holds, and touches no
    queue. *)
Lemma addConnection_cancels websocket r t :
  reconnectGraceTimer r = Some t →
  (t ∉ pendingTimers (addConnection websocket r))
  ∧ reconnectGraceTimer (addConnection websocket r) = None
  ∧ messageQueues (addConnection websocket r) = messageQueues r
  ∧ queueStore (addConnection websocket r) = queueStore r.
Proof.
  intros Ht. unfold addConnection. rewrite Ht. repeat split; cbn.
  rewrite elem_of_difference, elem_of_singleton. tauto.
Qed.

Lemma close_all_lookup (entries : list (string * nat))
    (store : gmap nat MessageQueue.t) (q : nat) :
  (foldr (fun kq st => alter MessageQueue.close kq.2 st) store entries) !! q
  = (if bool_decide (q ∈ entries.*2) then MessageQueue.close else id) <$> (store !! q).
Proof.
  induction entries as [|[k q'] entries IH]; cbn [foldr fmap list_fmap snd].
  - rewrite bool_decide_eq_false_2 by apply not_elem_of_nil. by destruct (store !! q).
  - destruct (decide (q' = q)) as [->|Hne].
    + rewrite lookup_alter_eq, IH.
      rewrite (bool_decide_eq_true_2 (q ∈ q :: _)) by (apply elem_of_cons; by left).
      destruct (store !! q) as [mq|]; [|done]. cbn.
      by destruct (bool_decide _).
    + rewrite lookup_alter_ne, IH by done.
      destruct (store !! q) as [mq|]; [|done]. cbn. f_equal.
      assert (Hiff : q ∈ q' :: entries.*2 ↔ q ∈ entries.*2).
      { rewrite elem_of_cons. split; [intros [?|?]; [congruence|done]|by right]. }
      by rewrite (bool_decide_ext _ _ Hiff).
Qed.

(** When the timer expires, every queue of the map is closed, the map is
    emptied and [connectionLost] is emitted. *)
Lemma graceExpired_tears_down r :
  messageQueues (graceExpired r) = ∅
  ∧ (∀ id q mq, messageQueues r !! id = Some q → queueStore r !! q = Some mq →
       queueStore (graceExpired r) !! q = Some (MessageQueue.close mq))
  ∧ last (emitted (graceExpired r)) = Some connectionLost.
Proof.
  split; [done|]. split; [|cbn; by rewrite last_snoc].
  intros id q mq Hid Hq. cbn. rewrite close_all_lookup, Hq.
  rewrite bool_decide_eq_true_2; [done|].
  apply list_elem_of_fmap. exists (id, q). split; [done|].
  by apply elem_of_map_to_list.
Qed.

Section GraceTimer.
Context `{Host}.

(** What one turn does to the timers: the counter never decreases, and
    the only timer that can become pending, or become the handle, is the
    one [setTimeout] hands out in that turn. *)
Lemma step_timers a r r' :
  step a r = Some r' →
  (nextTimer r ≤ nextTimer r')%nat
  ∧ (∀ t, t ∈ pendingTimers r' →
       t ∈ pendingTimers r ∨ (t = nextTimer r ∧ nextTimer r' = S (nextTimer r)))
  ∧ (∀ t, reconnectGraceTimer r' = Some t →
       reconnectGraceTimer r = Some t ∨ (t = nextTimer r ∧ nextTimer r' = S (nextTimer r))).
Proof.
  destruct a as [ws|ws|data|t|id|id]; cbn [step].
  - case_bool_decide; [done|]. intros [= <-]. unfold addConnection.
    destruct (reconnectGraceTimer r) eqn:Hh; cbn; (split; [lia|]); split;
      intros t'; rewrite ?elem_of_difference, ?Hh; first [tauto|discriminate].
  - case_bool_decide; [|done]. intros [= <-]. cbn. split; [lia|]. split.
    + intros t'. rewrite elem_of_union, elem_of_singleton. tauto.
    + intros t' [= <-]. by right.
  - destruct (_handleIncomingMessage_total data r)
      as (r1 & -> & _ & _ & Hh & Hp & Hn).
    intros [= <-]. rewrite Hh, Hp, Hn. split; [lia|]. split; auto.
  - case_bool_decide; [|done]. intros [= <-]. cbn. split; [lia|]. split; [|by auto].
    intros t'. rewrite elem_of_difference. tauto.
  - intros [= <-]. cbn. split; [lia|]. split; auto.
  - intros [= <-]. unfold removeMessageQueue.
    destruct (messageQueues r !! id); cbn; (split; [lia|]); split; auto.
Qed.

Lemma step_timersIssued a r r' : step a r = Some r' → timersIssued r → timersIssued r'.
Proof.
  intros (Hmono & Hpend & Hhandle)%step_timers [Hp Hh]. split.
  - intros t [Ht|[-> ->]]%Hpend; [specialize (Hp t Ht)|]; lia.
  - intros t [Ht|[-> ->]]%Hhandle; [specialize (Hh t Ht)|]; lia.
Qed.

Lemma run_timersIssued actions : ∀ r r',
  run actions r = Some r' → timersIssued r → timersIssued r'.
Proof.
  induction actions as [|a actions IH]; intros r r'; cbn [run].
  - by intros [= <-].
  - destruct (step a r) as [r1|] eqn:Hstep; [|done].
    intros Hrun Hinv. eapply IH; [exact Hrun|]. by eapply step_timersIssued.
Qed.

Lemma initial_timersIssued : timersIssued initial.
Proof. split; [|done]. intros t Ht. cbn in Ht. by apply not_elem_of_empty in Ht. Qed.

(** A timer that has been issued and is no longer pending (it was
    cancelled, or it has fired) never becomes pending again: it cannot
    fire afterwards. *)
Lemma spent_timer_stays_spent actions : ∀ r r' t,
  run actions r = Some r' →
  (t < nextTimer r)%nat → t ∉ pendingTimers r →
  (t < nextTimer r')%nat ∧ t ∉ pendingTimers r'.
Proof.
  induction actions as [|a actions IH]; intros r r' t; cbn [run].
  - by intros [= <-].
  - destruct (step a r) as [r1|] eqn:Hstep; [|done].
    intros Hrun Hlt Hspent.
    destruct (step_timers _ _ _ Hstep) as (Hmono & Hpend & _).
    apply (IH r1 r' t Hrun); [lia|].
    intros [Ht|[-> _]]%Hpend; [done|lia].
Qed.

(** In particular no run lets a timer fire twice, or fire after a new
    peer has taken it off the pending set. *)
Lemma no_fire_after_cancel websocket r t actions r' :
  timersIssued r →
  reconnectGraceTimer r = Some t →
  run actions (addConnection websocket r) = Some r' →
  step (TimerFires t) r' = None.
Proof.
  intros [_ Hh] Ht Hrun. specialize (Hh t Ht).
  destruct (addConnection_cancels websocket r t Ht) as (Hgone & _).
  assert (Hlt : (t < nextTimer (addConnection websocket r))%nat).
  { unfold addConnection. rewrite Ht. by cbn. }
  destruct (spent_timer_stays_spent _ _ _ _ Hrun Hlt Hgone) as [_ Hspent].
  cbn [step]. by rewrite bool_decide_eq_false_2.
Qed.

Lemma no_fire_after_cancel_reachable history websocket r t actions r' :
  run history initial = Some r →
  reconnectGraceTimer r = Some t →
  run actions (addConnection websocket r) = Some r' →
  step (TimerFires t) r' = None.
Proof.
  intros Hreach. apply no_fire_after_cancel.
  eapply run_timersIssued; [exact Hreach|apply initial_timersIssued].
Qed.

(** C9 (what the code does on [twoDisconnects]).  Two peers disconnect
    one after the other: the second grace timer replaces the first in the
    registry while the first is still pending.  A new peer then registers,
    before either timer has fired, and only the second timer is cancelled.
    The first one fires later: with the new peer registered, the queue of
    the request in flight is closed, the queue map is emptied and
    [connectionLost] is emitted. *)
Theorem C9_first_grace_timer_survives_reconnect :
  ∃ r, run twoDisconnects initial = Some r
       ∧ connections r = [3%nat]
       ∧ reconnectGraceTimer r = None
       ∧ pendingTimers r = {[0%nat]}
       ∧ messageQueues r = {["req-7" := 0%nat]}
       ∧ MessageQueue.closed <$> (queueStore r !! 0%nat) = Some false
       ∧ ∃ r', step (TimerFires 0) r = Some r'
               ∧ connections r' = [3%nat]
               ∧ messageQueues r' = ∅
               ∧ MessageQueue.closed <$> (queueStore r' !! 0%nat) = Some true
               ∧ last (emitted r') = Some connectionLost.
Proof.
  eexists. split; [vm_compute; reflexivity|].
  repeat split; try reflexivity.
  eexists. split; [vm_compute; reflexivity|].
  repeat split; reflexivity.
Qed.

(** After the grace timer has fired the registry still holds its handle:
    the next peer to register runs the cancellation branch on a timer that
    is not pending any more, and logs that it cancelled the disconnect
    handling. *)
Lemma lateReconnect_cancels_a_fired_timer :
  ∃ r, run [Connect 1; Disconnect 1; TimerFires 0] initial = Some r
       ∧ reconnectGraceTimer r = Some 0%nat
       ∧ pendingTimers r = ∅
       ∧ last (emitted r) = Some connectionLost
       ∧ ∃ r', run lateReconnect initial = Some r'
               ∧ reconnectGraceTimer r' = None
               ∧ info "[Server] New connection detected during grace period, canceling disconnect handling."
                 ∈ logged r'.
Proof.
  eexists. split; [vm_compute; reflexivity|].
  repeat split; try reflexivity.
  eexists. split; [vm_compute; reflexivity|].
  split; [reflexivity|]. cbn. repeat constructor.
Qed.

End GraceTimer.

(* ===================================================================== *)
(** * Further properties of the converter *)
(* ===================================================================== *)

(** ** The outbound request *)

Lemma hasKey_setProp_ne k k' v fs :
  k ≠ k' → hasKey k (JObj (setProp k' v fs)) = hasKey k (JObj fs).
Proof.
  intros Hne. unfold hasKey. induction fs as [|[k2 v2] fs IH]; cbn.
  - destruct (String.eqb_spec k k'); [done|reflexivity].
  - destruct (String.eqb k' k2); cbn; [done|]. cbn in IH. by rewrite IH.
Qed.

Lemma hasKey_setProp_eq k v fs : hasKey k (JObj (setProp k v fs)) = true.
Proof.
  unfold hasKey. induction fs as [|[k2 v2] fs IH]; cbn.
  - by rewrite String.eqb_refl.
  - destruct (String.eqb k k2) eqn:E; cbn; rewrite E; [done|]. exact IH.
Qed.

Lemma injectForcedTools_other_hasKey sys req req1 k :
  injectForcedTools sys req = Ret req1 → k ≠ "tools" →
  hasKey k (JObj req1) = hasKey k (JObj req).
Proof.
  unfold injectForcedTools. intros Hinj Hk.
  destruct (forceWebSearch sys || forceUrlContext sys); [|by injection Hinj as <-].
  set (req0 := if negb (truthy (assoc "tools" req))
               then setProp "tools" (JArr []) req else req) in *.
  assert (Hreq0 : hasKey k (JObj req0) = hasKey k (JObj req)).
  { subst req0. destruct (negb _); [|done]. by apply hasKey_setProp_ne. }
  destruct (assoc "tools" req0); try discriminate Hinj.
  apply bind_Ret_inv in Hinj as (t1 & _ & Hinj).
  apply bind_Ret_inv in Hinj as (t2 & _ & Hinj).
  injection Hinj as <-. by rewrite hasKey_setProp_ne.
Qed.

Lemma js_filter_role_inv r msgs out :
  js_filter (isRole r) msgs = Ret out ∨ js_filter (isNotRole r) msgs = Ret out →
  forallb (fun msg => negb (nullish msg)) msgs = true.
Proof.
  revert out. induction msgs as [|msg msgs IH]; intros out; [done|].
  cbn [js_filter forallb]. unfold isRole at 1, isNotRole at 1, getProp.
  destruct (nullish msg); cbn [bind negb andb]; [by intros [|]|].
  intros [H|H]; apply bind_Ret_inv in H as (rest & Hrest & _); eapply IH; eauto.
Qed.

Lemma js_mapM_Forall2 {A B} (f : A → Js B) xs : ∀ ys,
  js_mapM f xs = Ret ys → Forall2 (fun x y => f x = Ret y) xs ys.
Proof.
  induction xs as [|x xs IH]; intros ys; cbn [js_mapM].
  - intros [= <-]. constructor.
  - intros (y & Hy & H)%bind_Ret_inv. apply bind_Ret_inv in H as (ys' & Hys & [= <-]).
    constructor; [done|by apply IH].
Qed.

Section OutboundStructure.
Context `{Host}.

(** How the returned request is put together. *)
Lemma buildGoogleRequest_inv sys openaiBody googleRequest :
  buildGoogleRequest sys openaiBody = Ret googleRequest →
  ∃ messages contents generationConfig injected,
    field openaiBody "messages" = JArr messages
    ∧ forallb (fun msg => negb (nullish msg)) messages = true
    ∧ js_mapM convertMessage (List.filter nonSystem messages) = Ret contents
    ∧ (∀ k, k ≠ "thinkingConfig" → assoc k generationConfig = assoc k
         [("maxOutputTokens", field openaiBody "max_tokens");
          ("stopSequences", field openaiBody "stop");
          ("temperature", field openaiBody "temperature");
          ("topK", field openaiBody "top_k");
          ("topP", field openaiBody "top_p")])
    ∧ injectForcedTools sys
        (setProp "generationConfig" (JObj generationConfig)
           (("contents", JArr contents)
            :: match systemContents messages with
               | [] => []
               | bodies =>
                   [("systemInstruction",
                     JObj [("parts", JArr [JObj [("text", JStr (arrayJoin newline bodies))]])])]
               end))
      = Ret injected
    ∧ googleRequest = JObj (setProp "safetySettings" safetySettings injected).
Proof.
  unfold buildGoogleRequest. intros Hrun.
  apply bind_Ret_inv in Hrun as (msgs & Hmsgs & Hrun).
  destruct msgs as [| | | | | |messages|]; try discriminate Hrun.
  apply bind_Ret_inv in Hrun as (sysMsgs & Hsys & Hrun).
  apply bind_Ret_inv in Hrun as (conv & Hconv & Hrun).
  apply bind_Ret_inv in Hrun as (contents & Hcontents & Hrun).
  apply bind_Ret_inv in Hrun as (injected & Hinj & Hrun).
  injection Hrun as <-.
  pose proof (js_filter_role_inv _ _ _ (or_introl Hsys)) as Hobj.
  destruct (js_filter_role "system" messages Hobj) as [Hsys' Hconv'].
  rewrite Hsys' in Hsys. rewrite Hconv' in Hconv.
  injection Hsys as <-. injection Hconv as <-.
  assert (Hbody : field openaiBody "messages" = JArr messages).
  { unfold getProp in Hmsgs. destruct (nullish openaiBody); [done|]. by injection Hmsgs. }
  eexists messages, contents, _, injected.
  split; [done|]. split; [done|]. split; [exact Hcontents|].
  split; [|split; [|reflexivity]].
  2:{ unfold systemContents. fold isSystem in Hinj.
      change (fun msg => strictEqStr (field msg "role") "system") with isSystem in Hinj.
      destruct (List.filter isSystem messages) as [|m ms] eqn:Hf; exact Hinj. }
  intros k Hk.
  destruct (truthy (resolveThinkingConfig sys openaiBody)); [|done].
  by rewrite assoc_setProp_ne.
Qed.

End OutboundStructure.

Lemma arrayJoin_strings sep texts :
  arrayJoin sep (map JStr texts) = String.concat sep texts.
Proof. unfold arrayJoin. rewrite List.map_map. cbn. by rewrite List.map_id. Qed.

Lemma hasKey_false_assoc k fs : hasKey k (JObj fs) = false → assoc k fs = JUndefined.
Proof.
  unfold hasKey. induction fs as [|[k2 v2] fs IH]; cbn; [done|].
  destruct (String.eqb k k2); cbn; [done|exact IH].
Qed.

Lemma injectForcedTools_on_fresh sys req :
  truthy (assoc "tools" req) = false →
  injectForcedTools sys req
  = Ret (if forceWebSearch sys || forceUrlContext sys
         then setProp "tools" (JArr (forcedTools sys)) req
         else req).
Proof.
  intros Hfresh. unfold injectForcedTools, forcedTools.
  destruct (forceWebSearch sys || forceUrlContext sys); [|done].
  rewrite Hfresh. cbn [negb]. rewrite assoc_setProp_eq.
  unfold forceTool, hasTool.
  destruct (forceWebSearch sys), (forceUrlContext sys); cbn;
    by rewrite setProp_setProp_eq.
Qed.

Lemma setProp_same k v fs : assoc k fs = v → v ≠ JUndefined → setProp k v fs = fs.
Proof.
  intros Hv Hdef. induction fs as [|[k' v'] fs IH]; cbn in *; [congruence|].
  destruct (String.eqb k k'); [by subst|]. by rewrite IH.
Qed.

(** A request that holds the forced descriptors goes through the block
    unchanged. *)
Lemma injectForcedTools_settled sys request :
  assoc "tools" request = JArr (forcedTools sys) →
  injectForcedTools sys request = Ret request.
Proof.
  intros Htools. unfold injectForcedTools.
  destruct (forceWebSearch sys || forceUrlContext sys) eqn:Hforce; [|done].
  rewrite Htools. cbn [truthy negb]. rewrite Htools.
  assert (Hsteps :
    bind (forceTool (forceWebSearch sys) "googleSearch" (forcedTools sys))
         (fun tools => bind (forceTool (forceUrlContext sys) "urlContext" tools)
                         (fun tools => Ret (setProp "tools" (JArr tools) request)))
    = Ret (setProp "tools" (JArr (forcedTools sys)) request)).
  { unfold forcedTools. by destruct (forceWebSearch sys), (forceUrlContext sys). }
  rewrite Hsteps. by rewrite setProp_same.
Qed.

Lemma forcedTools_count sys key :
  (length (List.filter (isDescriptor key) (forcedTools sys)) ≤ 1)%nat.
Proof.
  unfold forcedTools, isDescriptor.
  destruct (forceWebSearch sys), (forceUrlContext sys); cbn;
    destruct (String.eqb_spec key "googleSearch") as [->|_]; cbn;
    try destruct (String.eqb_spec key "urlContext") as [->|_]; cbn; lia.
Qed.

Section OutboundRequest.
Context `{Host}.

Lemma convertMessage_shape message entry :
  convertMessage message = Ret entry →
  field entry "role" = JStr (remappedRole message)
  ∧ ∃ parts, field entry "parts" = JArr parts ∧ keysOf entry = ["parts"; "role"].
Proof.
  unfold convertMessage. intros (content & _ & Hrun)%bind_Ret_inv.
  apply bind_Ret_inv in Hrun as (parts & _ & [= <-]). split; [done|]. by exists parts.
Qed.

(** X1.  The system instruction of the returned request is one text
    part: the bodies of the system messages, in message order, joined by
    line feeds (for string bodies, their concatenation with line feeds;
    [join] turns any other body into its string form); the role is not
    forwarded.  Without system message the request has no
    [systemInstruction] key. *)
Theorem X1_system_instruction (sys : ServerSystem) (self : Converter)
    (openaiBody googleRequest : JsVal) (messages : list JsVal) :
  (translateOpenAIToGoogle sys self openaiBody).1 = Ret googleRequest →
  field openaiBody "messages" = JArr messages →
  match systemContents messages with
  | [] => hasKey "systemInstruction" googleRequest = false
  | bodies =>
      field googleRequest "systemInstruction"
      = JObj [("parts", JArr [JObj [("text", JStr (arrayJoin newline bodies))]])]
      ∧ ∀ texts, bodies = map JStr texts →
          arrayJoin newline bodies = String.concat newline texts
  end.
Proof.
  cbn [translateOpenAIToGoogle fst]. intros Hrun Hmsgs.
  destruct (buildGoogleRequest_inv _ _ _ Hrun)
    as (msgs & contents & gc & injected & Hmsgs' & _ & _ & _ & Hinj & ->).
  rewrite Hmsgs in Hmsgs'. injection Hmsgs' as <-.
  pose proof (injectForcedTools_other_keys _ _ _ "systemInstruction" Hinj) as Hkeep.
  pose proof (injectForcedTools_other_hasKey _ _ _ "systemInstruction" Hinj) as Hkey.
  destruct (systemContents messages) as [|b bs].
  - rewrite hasKey_setProp_ne, Hkey, hasKey_setProp_ne by done. reflexivity.
  - split; [|intros texts ->; apply arrayJoin_strings].
    cbn [field]. rewrite assoc_setProp_ne, Hkeep, assoc_setProp_ne by done.
    reflexivity.
Qed.

(** X2.  Whatever the contents of the messages, the request the method
    returns has one [contents] entry per non-system message, in order,
    each an object with the two keys [parts] (an array) and [role], the
    role being "model" for "assistant" and "user" for anything else. *)
Theorem X2_contents_entries (sys : ServerSystem) (self : Converter)
    (openaiBody googleRequest : JsVal) (messages : list JsVal) :
  (translateOpenAIToGoogle sys self openaiBody).1 = Ret googleRequest →
  field openaiBody "messages" = JArr messages →
  ∃ contents,
    field googleRequest "contents" = JArr contents
    ∧ length contents = length (List.filter nonSystem messages)
    ∧ Forall2 (fun msg entry =>
                 field entry "role" = JStr (remappedRole msg)
                 ∧ isArrayValue (field entry "parts") = true
                 ∧ keysOf entry = ["parts"; "role"])
              (List.filter nonSystem messages) contents.
Proof.
  cbn [translateOpenAIToGoogle fst]. intros Hrun Hmsgs.
  destruct (buildGoogleRequest_inv _ _ _ Hrun)
    as (msgs & contents & gc & injected & Hmsgs' & _ & Hconv & _ & Hinj & ->).
  rewrite Hmsgs in Hmsgs'. injection Hmsgs' as <-.
  pose proof (injectForcedTools_other_keys _ _ _ "contents" Hinj) as Hkeep.
  apply js_mapM_Forall2 in Hconv.
  exists contents. split; [|split].
  - cbn [field]. rewrite assoc_setProp_ne, Hkeep by done. by rewrite assoc_setProp_ne.
  - symmetry. by eapply Forall2_length.
  - eapply Forall2_impl; [exact Hconv|]. intros msg entry Hentry.
    destruct (convertMessage_shape _ _ Hentry) as (Hrole & parts & Hparts & Hkeys).
    by rewrite Hparts.
Qed.

(** X3.  Of an explicit thinking configuration only [includeThoughts]
    is forwarded: the [thinkingConfig] of the returned request has no key,
    or that one key; a thinking budget, say, never reaches the remote
    side. *)
Theorem X3_thinking_config_keys (sys : ServerSystem) (self : Converter)
    (openaiBody googleRequest : JsVal) :
  (translateOpenAIToGoogle sys self openaiBody).1 = Ret googleRequest →
  (keysOf (thinkingOf googleRequest) = []
   ∨ keysOf (thinkingOf googleRequest) = ["includeThoughts"])
  ∧ ∀ k, k ≠ "includeThoughts" → field (thinkingOf googleRequest) k = JUndefined.
Proof.
  cbn [translateOpenAIToGoogle fst]. intros Hrun.
  pose proof (buildGoogleRequest_thinking _ _ _ Hrun) as Hth. cbn zeta in Hth.
  rewrite resolveThinkingConfig_spec in Hth.
  assert (Hcases : thinkingOf googleRequest = JUndefined
                   ∨ thinkingOf googleRequest = JObj []
                   ∨ ∃ v, thinkingOf googleRequest = JObj [("includeThoughts", v)]).
  { destruct (explicitThinking openaiBody) as [raw|].
    - right. revert Hth. unfold convertedThinking.
      destruct (negb (isUndefined (field raw "include_thoughts")));
        [|destruct (negb (isUndefined (field raw "includeThoughts")))];
        cbn [truthy]; intros ->; [right; by eexists|right; by eexists|by left].
    - destruct (effortFlag openaiBody); [right; right; by exists (JBool true)|].
      destruct (forceThinking sys); [right; right; by exists (JBool true)|].
      left. cbn [truthy] in Hth. unfold thinkingOf.
      destruct (field googleRequest "generationConfig"); try done.
      cbn [field]. by apply hasKey_false_assoc. }
  destruct Hcases as [->|[->|[v ->]]]; cbn; (split; [auto|]); try done.
  intros k Hk. destruct (String.eqb_spec k "includeThoughts"); done.
Qed.

(** X4.  The request the method returns carries exactly the descriptors
    the force flags call for, each once (search first), and no [tools] key
    at all when neither flag is set. *)
Theorem X4_tools_of_translation (sys : ServerSystem) (self : Converter)
    (openaiBody googleRequest : JsVal) :
  (translateOpenAIToGoogle sys self openaiBody).1 = Ret googleRequest →
  if forceWebSearch sys || forceUrlContext sys
  then field googleRequest "tools" = JArr (forcedTools sys)
  else hasKey "tools" googleRequest = false.
Proof.
  cbn [translateOpenAIToGoogle fst]. intros Hrun.
  destruct (buildGoogleRequest_inv _ _ _ Hrun)
    as (msgs & contents & gc & injected & _ & _ & _ & _ & Hinj & ->).
  rewrite injectForcedTools_on_fresh in Hinj.
  2:{ rewrite assoc_setProp_ne by done. cbn. by destruct (systemContents msgs). }
  injection Hinj as <-.
  destruct (forceWebSearch sys || forceUrlContext sys).
  - lazy beta match delta [field]. rewrite assoc_setProp_ne by done.
    change (("contents", JArr contents) :: setProp "tools" ?v ?r)
      with (setProp "tools" v (("contents", JArr contents) :: r)).
    apply assoc_setProp_eq.
  - rewrite !hasKey_setProp_ne by done. cbn. by destruct (systemContents msgs).
Qed.

(** X5.  Every request the method returns sets the four harm categories
    to BLOCK_NONE, whatever the client sent, and hands the five generation
    parameters of the client over unchanged under their remote names. *)
Theorem X5_safety_and_generation_parameters (sys : ServerSystem) (self : Converter)
    (openaiBody googleRequest : JsVal) :
  (translateOpenAIToGoogle sys self openaiBody).1 = Ret googleRequest →
  field googleRequest "safetySettings" = safetySettings
  ∧ field (field googleRequest "generationConfig") "maxOutputTokens"
    = field openaiBody "max_tokens"
  ∧ field (field googleRequest "generationConfig") "stopSequences"
    = field openaiBody "stop"
  ∧ field (field googleRequest "generationConfig") "temperature"
    = field openaiBody "temperature"
  ∧ field (field googleRequest "generationConfig") "topK" = field openaiBody "top_k"
  ∧ field (field googleRequest "generationConfig") "topP" = field openaiBody "top_p".
Proof.
  cbn [translateOpenAIToGoogle fst]. intros Hrun.
  destruct (buildGoogleRequest_inv _ _ _ Hrun)
    as (msgs & contents & gc & injected & _ & _ & _ & Hgc & Hinj & ->).
  pose proof (injectForcedTools_other_keys _ _ _ "generationConfig" Hinj) as Hkeep.
  rewrite assoc_setProp_eq in Hkeep.
  cbn [field]. rewrite assoc_setProp_eq, assoc_setProp_ne, Hkeep by done. cbn [field].
  rewrite !Hgc by done. repeat split.
Qed.

(** C5.  The injection of the forced tools is idempotent, and the
    method never sends a descriptor twice.  Whatever request the block is
    run on, running it again on its result returns that result unchanged,
    and it adds each descriptor at most once.  The method runs the block on
    the request it has just built, which has no [tools] yet: so on the
    request the method returns, a second run of the block changes nothing,
    and each of the two descriptors is there at most once. *)
Theorem C5_injection_idempotent (sys : ServerSystem) :
  (∀ googleRequest injected : JsObj,
     injectForcedTools sys googleRequest = Ret injected →
     injectForcedTools sys injected = Ret injected
     ∧ ∀ key,
         (toolCount key injected ≤ S (toolCount key googleRequest))%nat
         ∧ ((toolCount key googleRequest ≤ 1)%nat → (toolCount key injected ≤ 1)%nat))
  ∧ (∀ (self : Converter) (openaiBody googleRequest : JsVal),
       (translateOpenAIToGoogle sys self openaiBody).1 = Ret googleRequest →
       ∃ request : JsObj,
         googleRequest = JObj request
         ∧ injectForcedTools sys request = Ret request
         ∧ ∀ key, (toolCount key request ≤ 1)%nat).
Proof.
  split; [intros googleRequest injected; apply injectForcedTools_idempotent|].
  intros self openaiBody googleRequest. cbn [translateOpenAIToGoogle fst]. intros Hrun.
  destruct (buildGoogleRequest_inv _ _ _ Hrun)
    as (msgs & contents & gc & injected & _ & _ & _ & _ & Hinj & ->).
  clear Hrun.
  remember (setProp "generationConfig" (JObj gc)
              (("contents", JArr contents)
               :: match systemContents msgs with
                  | [] => []
                  | bodies =>
                      [("systemInstruction",
                        JObj [("parts", JArr [JObj [("text", JStr (arrayJoin newline bodies))]])])]
                  end)) as base eqn:Hbase.
  assert (Hfresh : assoc "tools" base = JUndefined).
  { subst base. rewrite assoc_setProp_ne by done. cbn. by destruct (systemContents msgs). }
  clear Hbase.
  rewrite injectForcedTools_on_fresh in Hinj by (by rewrite Hfresh).
  injection Hinj as <-. eexists. split; [reflexivity|].
  destruct (forceWebSearch sys || forceUrlContext sys) eqn:Hforce.
  - assert (Htools : assoc "tools" (setProp "safetySettings" safetySettings
                                      (setProp "tools" (JArr (forcedTools sys)) base))
                     = JArr (forcedTools sys)).
    { rewrite assoc_setProp_ne by done. apply assoc_setProp_eq. }
    split; [by apply injectForcedTools_settled|].
    intros key. unfold toolCount. rewrite Htools. apply forcedTools_count.
  - split; [unfold injectForcedTools; by rewrite Hforce|].
    intros key. unfold toolCount. rewrite assoc_setProp_ne by done. rewrite Hfresh. lia.
Qed.

End OutboundRequest.

Lemma X1_system_instruction_witness :
  field exampleMixedRequest "systemInstruction"
  = JObj [("parts", JArr [JObj [("text",
            JStr ("Be brief." ++ newline ++ "Answer in French."))]])]
  ∧ ∀ texts, [JStr "Be brief."; JStr "Answer in French."] = map JStr texts →
      arrayJoin newline [JStr "Be brief."; JStr "Answer in French."]
      = String.concat newline texts.
Proof.
  apply (X1_system_instruction forceAll {| streamUsage := JNull |} exampleMixedBody
           exampleMixedRequest exampleMixedMessages); reflexivity.
Defined.

Lemma X2_contents_entries_witness :
  ∃ contents,
    field exampleMixedRequest "contents" = JArr contents
    ∧ length contents = 1%nat
    ∧ Forall2 (fun msg entry =>
                 field entry "role" = JStr (remappedRole msg)
                 ∧ isArrayValue (field entry "parts") = true
                 ∧ keysOf entry = ["parts"; "role"])
              (List.filter nonSystem exampleMixedMessages) contents.
Proof.
  apply (X2_contents_entries forceAll {| streamUsage := JNull |} exampleMixedBody
           exampleMixedRequest exampleMixedMessages); reflexivity.
Defined.

Lemma X3_thinking_config_keys_witness :
  (keysOf (thinkingOf exampleMixedRequest) = []
   ∨ keysOf (thinkingOf exampleMixedRequest) = ["includeThoughts"])
  ∧ field (thinkingOf exampleMixedRequest) "thinkingBudget" = JUndefined.
Proof.
  assert (Hrun : (translateOpenAIToGoogle forceAll {| streamUsage := JNull |}
                    exampleMixedBody).1 = Ret exampleMixedRequest) by reflexivity.
  destruct (X3_thinking_config_keys forceAll {| streamUsage := JNull |} exampleMixedBody
              exampleMixedRequest Hrun) as [Hkeys Hother].
  split; [exact Hkeys|]. by apply Hother.
Defined.

Lemma X4_tools_of_translation_witness :
  field exampleMixedRequest "tools"
  = JArr [JObj [("googleSearch", JObj [])]; JObj [("urlContext", JObj [])]].
Proof.
  apply (X4_tools_of_translation forceAll {| streamUsage := JNull |} exampleMixedBody
           exampleMixedRequest); reflexivity.
Defined.

Lemma X5_safety_and_generation_parameters_witness :
  field exampleMixedRequest "safetySettings" = safetySettings
  ∧ field (field exampleMixedRequest "generationConfig") "maxOutputTokens" = JNum 256
  ∧ field (field exampleMixedRequest "generationConfig") "stopSequences" = JUndefined
  ∧ field (field exampleMixedRequest "generationConfig") "temperature" = JNum 1
  ∧ field (field exampleMixedRequest "generationConfig") "topK" = JUndefined
  ∧ field (field exampleMixedRequest "generationConfig") "topP" = JUndefined.
Proof.
  apply (X5_safety_and_generation_parameters forceAll {| streamUsage := JNull |}
           exampleMixedBody exampleMixedRequest); reflexivity.
Defined.

Section MixedContent.
Context `{Host}.

Lemma convertContentPart_ok part :
  contentPartOk part = true →
  ∃ pushed, convertContentPart part = Ret pushed ∧ (length pushed ≤ 1)%nat.
Proof.
  unfold contentPartOk, convertContentPart, getProp.
  intros [Hnn Himg]%andb_true_iff. apply negb_true_iff in Hnn. rewrite Hnn. cbn [bind].
  destruct (strictEqStr (field part "type") "text"); [eexists; split; [done|cbn; lia]|].
  destruct (strictEqStr (field part "type") "image_url" && truthy (field part "image_url"));
    [|eexists; split; [done|cbn; lia]].
  destruct (field (field part "image_url") "url") as [| | | | |dataUrl| |]; try done.
  destruct (matchDataUrl dataUrl) as [[mimeType data]|]; [eexists; split; [done|cbn; lia]|].
  destruct (isHttpUrl dataUrl); [|eexists; split; [done|cbn; lia]].
  destruct (downloadImage dataUrl) as [[base64Data mimeType]|];
    eexists; (split; [done|cbn; lia]).
Qed.

Lemma convertContentPart_failed_download part dataUrl :
  nullish part = false →
  strictEqStr (field part "type") "image_url" = true →
  field (field part "image_url") "url" = JStr dataUrl →
  matchDataUrl dataUrl = None → isHttpUrl dataUrl = true → downloadImage dataUrl = None →
  convertContentPart part = Ret [failedImageNote dataUrl].
Proof.
  intros Hnn Htype Hurl Hmatch Hhttp Hdown.
  unfold convertContentPart, getProp. rewrite Hnn. cbn [bind].
  assert (Htext : strictEqStr (field part "type") "text" = false).
  { destruct (field part "type"); try done. cbn in *.
    apply String.eqb_eq in Htype. by subst. }
  rewrite Htext, Htype. cbn [andb].
  assert (Himg : truthy (field part "image_url") = true).
  { destruct (field part "image_url"); try done. }
  by rewrite Himg, Hurl, Hmatch, Hhttp, Hdown.
Qed.

Lemma convertContentParts_ok parts :
  forallb contentPartOk parts = true →
  ∃ pushed, js_mapM convertContentPart parts = Ret pushed
            ∧ (length (concat pushed) ≤ length parts)%nat.
Proof.
  induction parts as [|part parts IH]; [by exists []|]. cbn [forallb].
  intros [Hpart Hparts]%andb_true_iff.
  destruct (convertContentPart_ok _ Hpart) as (p & Hp & Hlen).
  destruct (IH Hparts) as (ps & Hps & Hlens).
  exists (p :: ps). cbn [js_mapM]. rewrite Hp, Hps. split; [done|].
  cbn [concat]. rewrite length_app. cbn [length]. lia.
Qed.

Lemma js_mapM_app {A B} (f : A → Js B) (xs ys : list A) (pushedX pushedY : list B) :
  js_mapM f xs = Ret pushedX → js_mapM f ys = Ret pushedY →
  js_mapM f (xs ++ ys) = Ret (pushedX ++ pushedY)%list.
Proof.
  revert pushedX. induction xs as [|x xs IH]; intros pushedX; cbn [js_mapM app].
  - by intros [= <-].
  - intros (y & Hy & Hrest)%bind_Ret_inv.
    apply bind_Ret_inv in Hrest as (ys' & Hys' & [= <-]).
    intros Hys. by rewrite Hy, (IH _ Hys' Hys).
Qed.

(** X6.  A message whose content is an array of digestible parts is
    always translated, whatever the downloads do: the translation does not
    raise and yields at most one part per element.  An image address that
    is an http(s) URL and cannot be downloaded is replaced, at its place
    among the parts, by a text part that names the URL. *)
Theorem X6_one_bad_image_never_fails (message : JsVal) (parts : list JsVal) :
  nullish message = false →
  field message "content" = JArr parts →
  forallb contentPartOk parts = true →
  ∃ googleParts,
    convertMessage message
    = Ret (JObj [("parts", JArr googleParts); ("role", JStr (remappedRole message))])
    ∧ (length googleParts ≤ length parts)%nat
    ∧ ∀ before part after dataUrl,
        parts = (before ++ part :: after)%list →
        strictEqStr (field part "type") "image_url" = true →
        field (field part "image_url") "url" = JStr dataUrl →
        matchDataUrl dataUrl = None → isHttpUrl dataUrl = true →
        downloadImage dataUrl = None →
        ∃ googleBefore googleAfter,
          googleParts = (googleBefore ++ failedImageNote dataUrl :: googleAfter)%list
          ∧ (length googleBefore ≤ length before)%nat
          ∧ (length googleAfter ≤ length after)%nat.
Proof.
  intros Hnn Hcontent Hok.
  destruct (convertContentParts_ok _ Hok) as (pushed & Hpushed & Hlen).
  exists (concat pushed). unfold convertMessage, getProp.
  rewrite Hnn, Hcontent. cbn [bind]. rewrite Hpushed. cbn [bind].
  split; [done|]. split; [done|].
  intros before part after dataUrl -> Htype Hurl Hmatch Hhttp Hdown.
  rewrite forallb_app in Hok. cbn [forallb] in Hok.
  apply andb_true_iff in Hok as [Hbefore [Hpart Hafter]%andb_true_iff].
  destruct (convertContentParts_ok _ Hbefore) as (pb & Hpb & Hlb).
  destruct (convertContentParts_ok _ Hafter) as (pa & Hpa & Hla).
  assert (Hnote : js_mapM convertContentPart (part :: after)
                  = Ret ([failedImageNote dataUrl] :: pa)).
  { cbn [js_mapM].
    rewrite (convertContentPart_failed_download part dataUrl); try done.
    - by rewrite Hpa.
    - unfold contentPartOk in Hpart. apply andb_true_iff in Hpart as [Hp _].
      by apply negb_true_iff in Hp. }
  rewrite (js_mapM_app _ _ _ _ _ Hpb Hnote) in Hpushed. injection Hpushed as <-.
  exists (concat pb), (concat pa). rewrite concat_app. by cbn [concat app].
Qed.

End MixedContent.

Lemma X6_one_bad_image_never_fails_witness :
  ∃ googleParts,
    convertMessage (JObj [("role", JStr "user");
                          ("content", JArr [
                             JObj [("type", JStr "text"); ("text", JStr "what is this?")];
                             JObj [("type", JStr "image_url");
                                   ("image_url",
                                    JObj [("url", JStr "https://example.org/cat.png")])]])])
    = Ret (JObj [("parts", JArr googleParts); ("role", JStr "user")])
    ∧ (length googleParts ≤ 2)%nat.
Proof.
  destruct (X6_one_bad_image_never_fails
              (JObj [("role", JStr "user");
                     ("content", JArr [
                        JObj [("type", JStr "text"); ("text", JStr "what is this?")];
                        JObj [("type", JStr "image_url");
                              ("image_url",
                               JObj [("url", JStr "https://example.org/cat.png")])]])])
              _ eq_refl eq_refl eq_refl) as (googleParts & Hrun & Hlen & _).
  by exists googleParts.
Defined.

(* ===================================================================== *)
(** * Further properties of the inbound conversions *)
(* ===================================================================== *)

Lemma string_app_nil_r (s : string) : (s ++ "")%string = s.
Proof. induction s as [|c s IH]; [done|]. change (String c (s ++ "") = String c s). by f_equal. Qed.

Lemma string_app_assoc (a b c : string) : ((a ++ b) ++ c = a ++ (b ++ c))%string.
Proof.
  induction a as [|x a IH]; [done|].
  change (String x ((a ++ b) ++ c) = String x (a ++ (b ++ c))). by f_equal.
Qed.

Lemma partsText_cons key part parts :
  partsText key (part :: parts)
  = ((match partDelta part with
      | Some (d, _) => if hasKey key (JObj d) then toString (assoc key d) else ""
      | None => ""
      end) ++ partsText key parts)%string.
Proof.
  unfold partsText, deltasOfParts. cbn [omap list_omap].
  destruct (partDelta part) as [[d thought]|]; cbn [fmap option_fmap option_map fst];
    [|done].
  cbn [omap list_omap]. by destruct (hasKey key (JObj d)).
Qed.

(** The accumulator of the complete conversion collects exactly what the
    streaming conversion sends as deltas. *)
Lemma accumulatePart_texts parts : ∀ content reasoning,
  forallb (fun part => negb (nullish part)) parts = true →
  js_foldM accumulatePart (JStr content, JStr reasoning) parts
  = Ret (JStr (content ++ partsText "content" parts),
         JStr (reasoning ++ partsText "reasoning_content" parts)).
Proof.
  induction parts as [|part parts IH]; intros content reasoning Hparts.
  { cbn [js_foldM]. change (partsText _ []) with "". by rewrite !string_app_nil_r. }
  cbn [forallb] in Hparts. apply andb_true_iff in Hparts as [Hpart Hparts].
  apply negb_true_iff in Hpart.
  cbn [js_foldM]. unfold accumulatePart at 1, getProp. rewrite Hpart. cbn [bind].
  rewrite !partsText_cons. unfold partDelta.
  destruct (strictEqTrue (field part "thought")).
  - unfold js_or. destruct (truthy (field part "text")); cbn [bind].
    + change (js_add (JStr reasoning) ?v) with (JStr (reasoning ++ toString v)).
      rewrite (IH _ _ Hparts). cbn. by rewrite string_app_assoc.
    + change (js_add (JStr reasoning) (JStr "")) with (JStr (reasoning ++ "")).
      rewrite string_app_nil_r. by rewrite (IH _ _ Hparts).
  - destruct (truthy (field part "text")); cbn [bind].
    + change (js_add (JStr content) ?v) with (JStr (content ++ toString v)).
      rewrite (IH _ _ Hparts). cbn. by rewrite string_app_assoc.
    + destruct (truthy (field part "inlineData")); cbn [bind].
      * change (js_add (JStr content) ?v) with (JStr (content ++ toString v)).
        rewrite (IH _ _ Hparts). cbn. by rewrite string_app_assoc.
      * by rewrite (IH _ _ Hparts).
Qed.

Lemma partDelta_keys part d thought :
  partDelta part = Some (d, thought) →
  ∃ v, d = [(if thought then "reasoning_content" else "content", v)].
Proof.
  unfold partDelta.
  repeat match goal with |- context [if ?c then _ else _] => destruct c end;
    intros Heq; simplify_eq; by eexists.
Qed.

Lemma chunksFor_text key created streamId modelName parts :
  key = "content" ∨ key = "reasoning_content" →
  ∀ roleSent,
    streamedText key (chunksFor roleSent (deltasOfParts parts) created streamId modelName)
    = partsText key parts.
Proof.
  intros Hkey. induction parts as [|part parts IH]; intros roleSent; [done|].
  rewrite partsText_cons. unfold deltasOfParts in *. cbn [omap list_omap].
  destruct (partDelta part) as [[d thought]|] eqn:Hd;
    cbn [fmap option_fmap option_map fst]; [|apply IH].
  cbn [chunksFor]. unfold streamedText in *. cbn [omap list_omap].
  destruct (partDelta_keys _ _ _ Hd) as [v ->].
  rewrite <- (IH true).
  by destruct Hkey as [-> | ->], thought, roleSent.
Qed.

Lemma streamedText_app key chunks more :
  streamedText key (chunks ++ more)
  = (streamedText key chunks ++ streamedText key more)%string.
Proof.
  unfold streamedText. rewrite omap_app.
  induction (omap (chunkText key) chunks) as [|s l IH]; [done|].
  cbn [foldr app]. by rewrite IH, string_app_assoc.
Qed.

Lemma nonstream_texts e googleResponse modelName :
  fragmentOk googleResponse = true →
  truthy (firstCandidate googleResponse) = true →
  ∃ response,
    convertGoogleToOpenAINonStream e googleResponse modelName = Ret response
    ∧ message_content response = JStr (partsText "content" (partsOf googleResponse))
    ∧ if String.eqb (partsText "reasoning_content" (partsOf googleResponse)) ""
      then hasKey "reasoning_content" (message_of response) = false
      else field (message_of response) "reasoning_content"
           = JStr (partsText "reasoning_content" (partsOf googleResponse)).
Proof.
  intros Hok Hc.
  unfold fragmentOk in Hok. apply andb_true_iff in Hok as [Hnn Hparts].
  rewrite Hc in Hparts. apply negb_true_iff in Hnn.
  unfold convertGoogleToOpenAINonStream, getProp. rewrite Hnn. cbn [bind].
  rewrite Hc. cbn [negb]. fold (partsOf googleResponse).
  rewrite (accumulatePart_texts _ "" "" Hparts). cbn [bind].
  change ("" ++ ?s)%string with s.
  destruct (parseUsage_returns _ Hnn) as [u ->]. cbn [bind].
  eexists. split; [reflexivity|].
  change (truthy (JStr ?s)) with (negb (String.eqb s "")).
  by destruct (String.eqb (partsText "reasoning_content" (partsOf googleResponse)) "").
Qed.

(** X7.  The two inbound conversions agree.  For one remote response with
    a candidate whose parts are objects, the [content] of the complete
    conversion is the text a client assembles from the [content] deltas of
    the streaming conversion of the same response, and its
    [reasoning_content] is the text assembled from the [reasoning_content]
    deltas; the key [reasoning_content] is absent exactly when that text is
    empty. *)
Theorem X7_complete_and_streamed_text_agree (e e' : Env) (self : Converter)
    (googleResponse : JsVal) (modelName : string) (streamState : JsObj) :
  fragmentOk googleResponse = true →
  truthy (firstCandidate googleResponse) = true →
  ∃ chunks self' streamState' response,
    streamChunks e self googleResponse modelName (Some streamState)
    = Ret (chunks, self', streamState')
    ∧ convertGoogleToOpenAINonStream e' googleResponse modelName = Ret response
    ∧ message_content response = JStr (streamedText "content" chunks)
    ∧ if String.eqb (streamedText "reasoning_content" chunks) ""
      then hasKey "reasoning_content" (message_of response) = false
      else field (message_of response) "reasoning_content"
           = JStr (streamedText "reasoning_content" chunks).
Proof.
  intros Hok Hc.
  destruct (streamChunks_fragment e self googleResponse modelName streamState Hok)
    as (st' & Hrun & _).
  destruct (nonstream_texts e' googleResponse modelName Hok Hc)
    as (response & Hcomplete & Hcontent & Hreasoning).
  eexists _, _, _, response. split; [exact Hrun|]. split; [exact Hcomplete|].
  assert (Htext : ∀ key, key = "content" ∨ key = "reasoning_content" →
            streamedText key
              (chunksFor (truthy (assoc "roleSent" streamState))
                 (deltasOfParts (partsOf googleResponse))
                 (assoc "created" (assignId e streamState))
                 (assoc "id" (assignId e streamState)) modelName
               ++ (if carriesFinish googleResponse
                   then [finalChunk (finishReasonOf googleResponse)
                           (js_or (cacheOnArrival (streamUsage self) googleResponse) JNull)
                           (assoc "created" (assignId e streamState))
                           (assoc "id" (assignId e streamState)) modelName]
                   else []))
            = partsText key (partsOf googleResponse)).
  { intros key Hkey. rewrite streamedText_app, chunksFor_text by done.
    destruct (carriesFinish googleResponse); [|by rewrite string_app_nil_r].
    destruct Hkey as [-> | ->]; cbn; by rewrite string_app_nil_r. }
  rewrite !Htext by auto. by split.
Qed.

Lemma X7_complete_and_streamed_text_agree_witness :
  ∃ chunks self' streamState' response,
    streamChunks (exampleEnv 0) {| streamUsage := JNull |} scenarioResponse "m" (Some [])
    = Ret (chunks, self', streamState')
    ∧ convertGoogleToOpenAINonStream (exampleEnv 5) scenarioResponse "m" = Ret response
    ∧ message_content response = JStr (streamedText "content" chunks)
    ∧ hasKey "reasoning_content" (message_of response) = false.
Proof.
  destruct (X7_complete_and_streamed_text_agree (exampleEnv 0) (exampleEnv 5)
              {| streamUsage := JNull |} scenarioResponse "m" [] eq_refl eq_refl)
    as (chunks & self' & streamState' & response & Hstream & Hcomplete & Hcontent & Hreason).
  exists chunks, self', streamState', response.
  repeat split; try done.
  injection Hstream as <- _ _. exact Hreason.
Defined.

Lemma partStep_envelope created streamId modelName parts : ∀ st acc st' chunks,
  js_foldM (partStep created streamId modelName) (st, acc) parts = Ret (st', chunks) →
  ∃ new,
    chunks = (acc ++ new)%list
    ∧ Forall (chunkEnvelope created streamId modelName) new
    ∧ Forall (fun chunk => hasKey "usage" chunk = false ∧ finish_reason chunk = JNull) new
    ∧ (st = None → st' = None ∧ Forall (fun chunk => hasKey "role" (delta chunk) = false) new).
Proof.
  induction parts as [|part parts IH]; intros st acc st' chunks; cbn [js_foldM].
  { intros [= <- <-]. exists []. by rewrite app_nil_r. }
  intros ([st1 acc1] & Hstep & Hrest)%bind_Ret_inv.
  destruct (IH _ _ _ _ Hrest) as (new & -> & Henv & Hplain & Hnone). clear IH Hrest.
  unfold partStep in Hstep.
  apply bind_Ret_inv in Hstep as (thought & _ & Hstep).
  destruct (partDelta part) as [[d inThought]|] eqn:Hd.
  2:{ injection Hstep as <- <-. by exists new. }
  destruct (partDelta_keys _ _ _ Hd) as [v ->].
  set (st0 := if inThought then setProp "inThought" (JBool true) <$> st else st) in Hstep.
  assert (Hst0 : st = None → st0 = None).
  { intros ->. subst st0. by destruct inThought. }
  destruct st0 as [s0|].
  - destruct (negb (truthy (assoc "roleSent" s0))); injection Hstep as <- <-;
      eexists (_ :: new); rewrite <- app_assoc; (split; [reflexivity|]);
      (split; [by constructor|]); (split; [by constructor|]);
      intros Hst; by specialize (Hst0 Hst).
  - injection Hstep as <- <-. eexists (_ :: new). rewrite <- app_assoc.
    split; [reflexivity|]. split; [by constructor|]. split; [by constructor|].
    intros _. destruct (Hnone eq_refl) as [-> Hroles]. split; [done|].
    constructor; [|done]. by destruct inThought.
Qed.

(** X8.  Whatever one call of the streaming conversion returns, all its
    chunks carry one identifier, one creation time (those of the stream
    state, or fresh ones without state), the model name, the object tag
    and a single choice of index 0.  A [usage] key occurs only on a chunk
    with an empty delta and a finish reason; and a call without stream
    state returns no state and puts a role on no chunk. *)
Theorem X8_chunks_of_one_call (e : Env) (self self' : Converter) (googleResponse : JsVal)
    (modelName : string) (streamState streamState' : option JsObj) (chunks : list JsVal) :
  streamChunks e self googleResponse modelName streamState
  = Ret (chunks, self', streamState') →
  Forall (chunkEnvelope (createdOf e streamState) (streamIdOf e streamState) modelName) chunks
  ∧ Forall (fun chunk => hasKey "usage" chunk = true →
                         delta chunk = JObj [] ∧ truthy (finish_reason chunk) = true) chunks
  ∧ (streamState = None →
     streamState' = None ∧ Forall (fun chunk => hasKey "role" (delta chunk) = false) chunks).
Proof.
  unfold streamChunks. cbv zeta.
  replace (match assignId e <$> streamState with
           | Some st => assoc "id" st | None => freshId e end)
    with (streamIdOf e streamState) by by destruct streamState.
  replace (match assignId e <$> streamState with
           | Some st => assoc "created" st | None => nowSeconds e end)
    with (createdOf e streamState) by by destruct streamState.
  intros (usageMetadata & _ & Hrun)%bind_Ret_inv.
  apply bind_Ret_inv in Hrun as (self1 & _ & Hrun).
  destruct (negb (truthy (firstCandidate googleResponse))).
  { destruct (truthy (field googleResponse "promptFeedback")); injection Hrun as <- _ <-.
    - split; [by repeat constructor|]. split; [by repeat constructor|].
      intros ->. split; [done|]. by repeat constructor.
    - split; [done|]. split; [done|]. by intros ->. }
  apply bind_Ret_inv in Hrun as ([st1 sent] & Hloop & Hrun).
  destruct (partStep_envelope _ _ _ _ _ _ _ _ Hloop) as (new & -> & Henv & Hplain & Hnone).
  cbn [app] in Hrun.
  assert (Husage : Forall (fun chunk => hasKey "usage" chunk = true →
                     delta chunk = JObj [] ∧ truthy (finish_reason chunk) = true) new).
  { eapply Forall_impl; [exact Hplain|]. intros chunk [Hu _] Hu'. congruence. }
  assert (Hstate : streamState = None → assignId e <$> streamState = None) by by intros ->.
  destruct (truthy (field (firstCandidate googleResponse) "finishReason")) eqn:Hfin.
  - assert (Hfinal : ∀ usage,
      Forall (chunkEnvelope (createdOf e streamState) (streamIdOf e streamState) modelName)
        (new ++ [finalChunk (field (firstCandidate googleResponse) "finishReason") usage
                   (createdOf e streamState) (streamIdOf e streamState) modelName])
      ∧ Forall (fun chunk => hasKey "usage" chunk = true →
                             delta chunk = JObj [] ∧ truthy (finish_reason chunk) = true)
          (new ++ [finalChunk (field (firstCandidate googleResponse) "finishReason") usage
                     (createdOf e streamState) (streamIdOf e streamState) modelName])
      ∧ (streamState = None →
         st1 = None
         ∧ Forall (fun chunk => hasKey "role" (delta chunk) = false)
             (new ++ [finalChunk (field (firstCandidate googleResponse) "finishReason") usage
                        (createdOf e streamState) (streamIdOf e streamState) modelName]))).
    { intros usage. split; [apply Forall_app; split; [done|by repeat constructor]|].
      split; [apply Forall_app; split; [done|by repeat constructor]|].
      intros Hst. destruct (Hnone (Hstate Hst)) as [-> Hroles]. split; [done|].
      apply Forall_app. split; [done|by repeat constructor]. }
    destruct (truthy (streamUsage self1)); injection Hrun as <- _ <-; apply Hfinal.
  - injection Hrun as <- _ <-. split; [done|]. split; [done|].
    intros Hst. by apply Hnone, Hstate.
Qed.

Lemma X8_chunks_of_one_call_witness :
  ∃ chunks self' streamState',
    streamChunks (exampleEnv 0) {| streamUsage := JNull |} scenarioResponse "m" None
    = Ret (chunks, self', streamState')
    ∧ Forall (chunkEnvelope (nowSeconds (exampleEnv 0)) (freshId (exampleEnv 0)) "m") chunks
    ∧ streamState' = None
    ∧ Forall (fun chunk => hasKey "role" (delta chunk) = false) chunks.
Proof.
  eexists _, _, _. split; [reflexivity|].
  destruct (X8_chunks_of_one_call (exampleEnv 0) {| streamUsage := JNull |} _
              scenarioResponse "m" None _ _ eq_refl) as (Henv & _ & Hnone).
  split; [exact Henv|]. exact (Hnone eq_refl).
Defined.

(* ===================================================================== *)
(** * Further properties of the connection registry *)
(* ===================================================================== *)

Section RegistryRouting.
Context `{Host}.

(** What a [message] event can change: the contents of queues of the
    map, and the log. *)
Lemma _handleIncomingMessage_frame messageData r r' :
  _handleIncomingMessage messageData r = Ret r' →
  connections r' = connections r
  ∧ messageQueues r' = messageQueues r
  ∧ reconnectGraceTimer r' = reconnectGraceTimer r
  ∧ pendingTimers r' = pendingTimers r
  ∧ nextTimer r' = nextTimer r
  ∧ nextQueue r' = nextQueue r
  ∧ emitted r' = emitted r
  ∧ ∀ queue, unmapped queue r → queueStore r' !! queue = queueStore r !! queue.
Proof.
  unfold _handleIncomingMessage, try_catch.
  destruct (JSON_parse messageData) as [parsed|]; [|by intros [= <-]].
  unfold _routeMessage, getProp.
  destruct (nullish parsed); cbn [bind]; [by intros [= <-]|].
  destruct (truthy (field parsed "request_id")); cbn [negb]; [|by intros [= <-]].
  destruct (getQueue (field parsed "request_id") r) as [queue|] eqn:Hq; [|by intros [= <-]].
  cbn [bind].
  assert (Hmapped : ∀ q, unmapped q r → q ≠ queue).
  { intros q Hun ->. unfold getQueue in Hq.
    destruct (field parsed "request_id") as [| | | | |id| |]; try discriminate.
    by apply (Hun id). }
  repeat match goal with |- context [if ?c then _ else _] => destruct c end;
    intros [= <-]; repeat split; try done;
    intros q Hun; cbn; rewrite lookup_alter_ne; auto using not_eq_sym.
Qed.

(** X9.  A message that parses, names a request id with a queue in the
    map and has one of the four routed event types is put on that queue
    and on no other: the parsed message itself, or the end-of-stream
    marker for "stream_close".  With any other event type no queue changes
    and one warning is logged.  Neither case touches the map, the peers or
    the emitted events. *)
Theorem X9_message_reaches_its_queue (messageData : string) (r : Registry)
    (parsed : JsVal) (id : string) (queue : nat) (mq : MessageQueue.t) :
  JSON_parse messageData = Some parsed →
  field parsed "request_id" = JStr id →
  id ≠ "" →
  messageQueues r !! id = Some queue →
  queueStore r !! queue = Some mq →
  ∃ r',
    _handleIncomingMessage messageData r = Ret r'
    ∧ messageQueues r' = messageQueues r
    ∧ connections r' = connections r
    ∧ emitted r' = emitted r
    ∧ (∀ other, other ≠ queue → queueStore r' !! other = queueStore r !! other)
    ∧ if isRouted (field parsed "event_type")
      then queueStore r' !! queue = Some (MessageQueue.enqueue (routedEvent parsed) mq)
           ∧ logged r' = logged r
      else queueStore r' !! queue = Some mq
           ∧ logged r' = (logged r
                          ++ [warn ("[Server] Unknown internal event type: "
                                    ++ toString (field parsed "event_type"))])%list.
Proof.
  intros Hparse Hid Hne Hqueue Hmq.
  unfold _handleIncomingMessage, try_catch. rewrite Hparse.
  assert (Hnn : nullish parsed = false) by (by destruct parsed).
  unfold getProp. rewrite Hnn. cbn [bind]. rewrite Hid.
  assert (Htruthy : truthy (JStr id) = true).
  { cbn. apply negb_true_iff. by apply String.eqb_neq. }
  rewrite Htruthy. cbn [negb getQueue]. rewrite Hqueue.
  unfold _routeMessage, getProp, isRouted, routedEvent. rewrite Hnn. cbn [bind].
  destruct (strictEqStr (field parsed "event_type") "response_headers") eqn:E1;
    [|destruct (strictEqStr (field parsed "event_type") "chunk") eqn:E2;
      [|destruct (strictEqStr (field parsed "event_type") "error") eqn:E3;
        [|destruct (strictEqStr (field parsed "event_type") "stream_close") eqn:E4]]];
    cbn [orb]; eexists; (split; [reflexivity|]); cbn;
    repeat split; try done;
    try (intros other Hother; by rewrite lookup_alter_ne by auto using not_eq_sym);
    try (rewrite lookup_alter_eq, Hmq; cbn [fmap option_fmap option_map]).
  all: destruct (field parsed "event_type") as [| | | | |ty| |]; try done.
  all: cbn in E1 |- *; try apply String.eqb_eq in E1 as ->; try done.
  all: cbn in E2 |- *; try apply String.eqb_eq in E2 as ->; try done.
  all: cbn in E3 |- *; try apply String.eqb_eq in E3 as ->; try done.
Qed.

End RegistryRouting.

Lemma X9_message_reaches_its_queue_witness :
  ∃ r',
    _handleIncomingMessage "ORPHAN" exampleRouting = Ret r'
    ∧ queueStore r' !! 0%nat
      = Some {| messages := [JObj [("request_id", JStr "req-0"); ("event_type", JStr "chunk")]];
                closed := false |}
    ∧ logged r' = [].
Proof.
  destruct (@X9_message_reaches_its_queue exampleHost "ORPHAN" exampleRouting
              (JObj [("request_id", JStr "req-0"); ("event_type", JStr "chunk")])
              "req-0" 0 MessageQueue.new eq_refl eq_refl ltac:(done) eq_refl eq_refl)
    as (r' & Hrun & _ & _ & _ & _ & Hqueue & Hlog).
  by exists r'.
Defined.

Section RegistryLife.
Context `{Host}.

(** X10.  [removeMessageQueue] on an id of the map closes the queue of
    that id and no other, and forgets the id and no other.  Afterwards the
    id is unknown: a second removal changes nothing, and a message that
    still arrives for the id is handled without raising and reaches no
    queue. *)
Theorem X10_removed_queue (requestId : string) (r : Registry) (queue : nat)
    (mq : MessageQueue.t) :
  messageQueues r !! requestId = Some queue →
  queueStore r !! queue = Some mq →
  let r1 := removeMessageQueue requestId r in
  messageQueues r1 !! requestId = None
  ∧ queueStore r1 !! queue = Some (MessageQueue.close mq)
  ∧ (∀ id, id ≠ requestId → messageQueues r1 !! id = messageQueues r !! id)
  ∧ (∀ other, other ≠ queue → queueStore r1 !! other = queueStore r !! other)
  ∧ removeMessageQueue requestId r1 = r1
  ∧ ∀ messageData parsed,
      JSON_parse messageData = Some parsed →
      field parsed "request_id" = JStr requestId →
      ∃ r2, _handleIncomingMessage messageData r1 = Ret r2
            ∧ queueStore r2 = queueStore r1
            ∧ messageQueues r2 = messageQueues r1.
Proof.
  intros Hid Hmq r1.
  assert (Hr1 : r1 = withQueues (delete requestId (messageQueues r))
                       (alter MessageQueue.close queue (queueStore r)) r).
  { subst r1. unfold removeMessageQueue. by rewrite Hid. }
  clearbody r1. subst r1. cbn [messageQueues queueStore withQueues].
  split; [apply lookup_delete_eq|].
  split; [by rewrite lookup_alter_eq, Hmq|].
  split; [intros id Hne; by apply lookup_delete_ne|].
  split; [intros other Hne; by apply lookup_alter_ne|].
  split.
  { unfold removeMessageQueue. cbn [messageQueues withQueues].
    by rewrite lookup_delete_eq. }
  intros messageData parsed Hparse Hreq.
  unfold _handleIncomingMessage, try_catch. rewrite Hparse.
  assert (Hnn : nullish parsed = false) by (by destruct parsed).
  unfold getProp. rewrite Hnn. cbn [bind]. rewrite Hreq.
  destruct (truthy (JStr requestId)); cbn [negb]; [|by eexists].
  cbn [getQueue messageQueues withQueues]. rewrite lookup_delete_eq. by eexists.
Qed.

(** What one turn does to a queue that no id of the map leads to:
    nothing, and no id will lead to it. *)
Lemma step_unmapped a r r' queue :
  step a r = Some r' →
  (queue < nextQueue r)%nat → unmapped queue r →
  (queue < nextQueue r')%nat ∧ unmapped queue r'
  ∧ queueStore r' !! queue = queueStore r !! queue.
Proof.
  unfold unmapped.
  destruct a as [ws|ws|data|t|id|id]; cbn [step].
  - case_bool_decide; [done|]. intros [= <-] Hlt Hun. unfold addConnection.
    by destruct (reconnectGraceTimer r).
  - case_bool_decide; [|done]. by intros [= <-].
  - destruct (_handleIncomingMessage data r) as [r1|] eqn:Hrun; [|done].
    intros [= <-] Hlt Hun.
    destruct (_handleIncomingMessage_frame _ _ _ Hrun)
      as (_ & Hmap & _ & _ & _ & Hnext & _ & Hstore).
    rewrite Hnext. setoid_rewrite Hmap. auto.
  - case_bool_decide; [|done]. intros [= <-] Hlt Hun. cbn. split; [done|]. split.
    + intros id. change ((∅ : gmap string nat) !! id ≠ Some queue).
      by rewrite lookup_empty.
    + rewrite close_all_lookup. rewrite bool_decide_eq_false_2.
      * by destruct (queueStore r !! queue).
      * intros ([id q] & -> & Hin%elem_of_map_to_list)%list_elem_of_fmap.
        by apply (Hun id).
  - intros [= <-] Hlt Hun. cbn. split; [lia|]. split.
    + intros id'. destruct (decide (id = id')) as [->|Hne].
      * rewrite lookup_insert_eq. intros [= Heq]. lia.
      * rewrite lookup_insert_ne by done. apply Hun.
    + apply lookup_insert_ne. lia.
  - intros [= <-] Hlt Hun. unfold removeMessageQueue.
    destruct (messageQueues r !! id) as [q|] eqn:Hq; [|done]. cbn.
    split; [done|]. split.
    + intros id' Hid'. apply lookup_delete_Some in Hid' as [_ Hid']. by apply (Hun id').
    + apply lookup_alter_ne. intros ->. by apply (Hun id).
Qed.

Lemma run_unmapped actions queue : ∀ r r',
  run actions r = Some r' →
  (queue < nextQueue r)%nat → unmapped queue r →
  queueStore r' !! queue = queueStore r !! queue.
Proof.
  induction actions as [|a actions IH]; intros r r'; cbn [run].
  - by intros [= <-].
  - destruct (step a r) as [r1|] eqn:Hstep; [|done]. intros Hrun Hlt Hun.
    destruct (step_unmapped _ _ _ _ Hstep Hlt Hun) as (Hlt1 & Hun1 & <-).
    by apply IH.
Qed.

Lemma step_queuesIssued a r r' : step a r = Some r' → queuesIssued r → queuesIssued r'.
Proof.
  unfold queuesIssued.
  destruct a as [ws|ws|data|t|id|id]; cbn [step].
  - case_bool_decide; [done|]. intros [= <-]. unfold addConnection.
    by destruct (reconnectGraceTimer r).
  - case_bool_decide; [|done]. by intros [= <-].
  - destruct (_handleIncomingMessage data r) as [r1|] eqn:Hrun; [|done].
    intros [= <-].
    destruct (_handleIncomingMessage_frame _ _ _ Hrun) as (_ & Hmap & _ & _ & _ & Hnext & _).
    by rewrite Hmap, Hnext.
  - case_bool_decide; [|done]. intros [= <-] _ id q. cbn. by rewrite lookup_empty.
  - intros [= <-] Hinv id' q. cbn. destruct (decide (id = id')) as [->|Hne].
    + rewrite lookup_insert_eq. intros [= <-]. lia.
    + rewrite lookup_insert_ne by done. intros Hq. specialize (Hinv _ _ Hq). lia.
  - intros [= <-] Hinv. unfold removeMessageQueue.
    destruct (messageQueues r !! id) as [q|] eqn:Hq; [|done].
    intros id' q'. cbn. intros [_ Hq']%lookup_delete_Some. by apply (Hinv id').
Qed.

Lemma run_queuesIssued actions : ∀ r r',
  run actions r = Some r' → queuesIssued r → queuesIssued r'.
Proof.
  induction actions as [|a actions IH]; intros r r'; cbn [run].
  - by intros [= <-].
  - destruct (step a r) as [r1|] eqn:Hstep; [|done].
    intros Hrun Hinv. eapply IH; [exact Hrun|]. by eapply step_queuesIssued.
Qed.

(** X11.  Binding a request id a second time leaves the queue of the
    first binding behind: the map leads to the new queue, and whatever
    happens afterwards (messages, removals, disconnects, the grace expiry)
    the first queue is neither fed nor closed. *)
Theorem X11_rebound_id_orphans_first_queue (history actions : list Action)
    (r r' : Registry) (requestId : string) :
  run history initial = Some r →
  let first := createMessageQueue requestId r in
  let second := createMessageQueue requestId first.2 in
  run actions second.2 = Some r' →
  first.1 ≠ second.1
  ∧ messageQueues second.2 !! requestId = Some second.1
  ∧ queueStore r' !! first.1 = Some MessageQueue.new.
Proof.
  intros Hreach first second Hrun.
  assert (Hinv : queuesIssued r).
  { eapply run_queuesIssued; [exact Hreach|]. intros id q. cbn. by rewrite lookup_empty. }
  split; [cbn; lia|]. split; [cbn; by rewrite lookup_insert_eq|].
  rewrite (run_unmapped _ first.1 _ _ Hrun).
  - cbn. rewrite lookup_insert_ne by lia. by rewrite lookup_insert_eq.
  - cbn. lia.
  - intros id. cbn. destruct (decide (requestId = id)) as [->|Hne].
    + rewrite lookup_insert_eq. intros [= Heq]. lia.
    + rewrite !lookup_insert_ne by done. intros Hq. specialize (Hinv _ _ Hq). lia.
Qed.

(** One turn under the single-peer discipline. *)
Lemma step_onePeerInv a r r' :
  step a r = Some r' →
  match a with Connect _ => connections r = [] | _ => True end →
  onePeerInv r → onePeerInv r'.
Proof.
  intros Hstep Hdisc (Hlen & Hidle & Hheld).
  destruct a as [ws|ws|data|t|id|id]; cbn [step] in Hstep.
  - case_bool_decide as Hin; [done|]. injection Hstep as <-.
    unfold addConnection. rewrite Hdisc in *.
    assert (Hgone : ∀ t,
      t ∉ pendingTimers
            match reconnectGraceTimer r with
            | Some t0 =>
                log (info "[Server] New connection detected during grace period, canceling disconnect handling.")
                    (setGraceTimer None (clearTimeout t0 r))
            | None => r
            end).
    { intros t Ht. destruct (reconnectGraceTimer r) as [t0|] eqn:Hh.
      - cbn in Ht. apply elem_of_difference in Ht as [Ht Hne].
        apply Hheld in Ht. injection Ht as ->.
        apply Hne. by apply elem_of_singleton.
      - by apply Hheld in Ht. }
    split; [|split].
    + cbn. destruct (reconnectGraceTimer r); cbn; rewrite Hdisc;
        by rewrite bool_decide_eq_false_2 by apply not_elem_of_nil.
    + intros _ t. apply Hgone.
    + intros t Ht. by apply Hgone in Ht.
  - case_bool_decide as Hin; [|done]. injection Hstep as <-.
    assert (Hone : connections r = [ws]).
    { destruct (connections r) as [|x [|y l]]; [by apply not_elem_of_nil in Hin| |cbn in Hlen; lia].
      apply list_elem_of_singleton in Hin. by subst. }
    assert (Hnone : ∀ t, t ∉ pendingTimers r) by (apply Hidle; by rewrite Hone).
    split; [|split]; cbn.
    + rewrite Hone. rewrite filter_cons_False by auto. cbn. lia.
    + rewrite Hone. rewrite filter_cons_False by auto. done.
    + intros t [Ht| ->%elem_of_singleton]%elem_of_union; [by apply Hnone in Ht|done].
  - destruct (_handleIncomingMessage data r) as [r1|] eqn:Hrun; [|done].
    injection Hstep as <-.
    destruct (_handleIncomingMessage_frame _ _ _ Hrun) as (Hc & _ & Hh & Hp & _).
    unfold onePeerInv. by rewrite Hc, Hh, Hp.
  - case_bool_decide as Hin; [|done]. injection Hstep as <-.
    assert (Hgone : ∀ t', t' ∉ pendingTimers r ∖ {[t]}).
    { intros t' [Ht' Hne]%elem_of_difference.
      apply Hheld in Ht'. apply Hheld in Hin. rewrite Hin in Ht'. injection Ht' as ->.
      apply Hne. by apply elem_of_singleton. }
    split; [done|]. split; cbn.
    + intros _ t'. apply Hgone.
    + intros t' Ht'. by apply Hgone in Ht'.
  - by injection Hstep as <-.
  - injection Hstep as <-. unfold removeMessageQueue.
    by destruct (messageQueues r !! id).
Qed.

Lemma run_onePeerInv actions : ∀ r r',
  run actions r = Some r' → onePeerAtATime actions r → onePeerInv r → onePeerInv r'.
Proof.
  induction actions as [|a actions IH]; intros r r'; cbn [run onePeerAtATime].
  - by intros [= <-].
  - destruct (step a r) as [r1|] eqn:Hstep; [|done].
    intros Hrun [Hdisc Hrest] Hinv. eapply IH; [exact Hrun|exact Hrest|].
    by eapply step_onePeerInv.
Qed.

(** X12.  While peers register one at a time (none is registered when
    one connects), the grace period does what its name says: at most one
    peer is registered, no timer is pending while a peer is registered,
    and the only timer that can be pending is the one the registry holds.
    Hence a grace timer only fires with no peer registered, and after it
    has fired none is pending. *)
Theorem X12_one_peer_at_a_time (actions : list Action) (r : Registry) :
  run actions initial = Some r →
  onePeerAtATime actions initial →
  onePeerInv r
  ∧ ∀ t r', step (TimerFires t) r = Some r' →
      connections r = [] ∧ connections r' = [] ∧ ∀ t', t' ∉ pendingTimers r'.
Proof.
  intros Hrun Hdisc.
  assert (Hinv : onePeerInv r).
  { eapply run_onePeerInv; [exact Hrun|exact Hdisc|].
    split; [cbn; lia|]. split; [done|]. intros t Ht. cbn in Ht.
    by apply not_elem_of_empty in Ht. }
  split; [exact Hinv|]. intros t r' Hstep.
  assert (Hinv' : onePeerInv r') by (by eapply step_onePeerInv).
  cbn [step] in Hstep. case_bool_decide as Hin; [|done]. injection Hstep as <-.
  destruct Hinv as (_ & Hidle & Hheld).
  assert (Hempty : connections r = []).
  { destruct (connections r) as [|x l] eqn:Hc; [done|].
    exfalso. apply (Hidle ltac:(done) t Hin). }
  split; [done|]. split; [done|].
  intros t' [Ht' Hne]%elem_of_difference.
  apply Hheld in Ht'. apply Hheld in Hin. rewrite Hin in Ht'. injection Ht' as ->.
  apply Hne. by apply elem_of_singleton.
Qed.

(** X13.  What the expiry of a grace timer does, whenever it happens:
    every queue of the map is closed and the map is emptied, a queue that
    no id leads to is left as it is, [connectionLost] is emitted, and the
    peers and the timer handle of the registry stay what they were (the
    handle is not reset). *)
Theorem X13_grace_expiry (t : nat) (r r' : Registry) :
  step (TimerFires t) r = Some r' →
  messageQueues r' = ∅
  ∧ (∀ id queue mq, messageQueues r !! id = Some queue → queueStore r !! queue = Some mq →
       queueStore r' !! queue = Some (MessageQueue.close mq))
  ∧ (∀ queue, unmapped queue r → queueStore r' !! queue = queueStore r !! queue)
  ∧ emitted r' = (emitted r ++ [connectionLost])%list
  ∧ connections r' = connections r
  ∧ reconnectGraceTimer r' = reconnectGraceTimer r
  ∧ t ∉ pendingTimers r'.
Proof.
  cbn [step]. case_bool_decide as Hin; [|done]. intros [= <-].
  split; [done|]. split; [|split; [|split; [done|split; [done|split; [done|]]]]].
  - intros id queue mq Hid Hq. cbn. rewrite close_all_lookup, Hq.
    rewrite bool_decide_eq_true_2; [done|].
    apply list_elem_of_fmap. exists (id, queue). split; [done|].
    by apply elem_of_map_to_list.
  - intros queue Hun. cbn. rewrite close_all_lookup. rewrite bool_decide_eq_false_2.
    + by destruct (queueStore r !! queue).
    + intros ([id q] & -> & Hq%elem_of_map_to_list)%list_elem_of_fmap. by apply (Hun id).
  - cbn. intros [_ Hne]%elem_of_difference. apply Hne. by apply elem_of_singleton.
Qed.

Lemma step_teardowns a r r' :
  step a r = Some r' →
  (emittedCount isConnectionLost r + size (pendingTimers r)
   ≤ emittedCount isConnectionRemoved r)%nat →
  (emittedCount isConnectionLost r' + size (pendingTimers r')
   ≤ emittedCount isConnectionRemoved r')%nat.
Proof.
  unfold emittedCount.
  destruct a as [ws|ws|data|t|id|id]; cbn [step].
  - case_bool_decide; [done|]. intros [= <-]. unfold addConnection.
    destruct (reconnectGraceTimer r) as [t0|]; cbn; rewrite !List.filter_app; cbn;
      rewrite !app_nil_r; [|done].
    intros Hinv.
    assert (size (pendingTimers r ∖ {[t0]}) ≤ size (pendingTimers r))%nat; [|lia].
    apply subseteq_size. intros x [Hx _]%elem_of_difference. exact Hx.
  - case_bool_decide; [|done]. intros [= <-]. cbn. rewrite !List.filter_app. cbn.
    rewrite app_nil_r, length_app. cbn [length]. intros Hinv.
    rewrite size_union_alt.
    assert (size ({[nextTimer r]} ∖ pendingTimers r : gset nat) ≤ 1)%nat; [|lia].
    rewrite <- (size_singleton (C:=gset nat) (nextTimer r)). apply subseteq_size.
    intros x [Hx _]%elem_of_difference. exact Hx.
  - destruct (_handleIncomingMessage data r) as [r1|] eqn:Hrun; [|done].
    intros [= <-].
    destruct (_handleIncomingMessage_frame _ _ _ Hrun) as (_ & _ & _ & Hp & _ & _ & He & _).
    by rewrite He, Hp.
  - case_bool_decide as Hin; [|done]. intros [= <-]. cbn. rewrite !List.filter_app. cbn.
    rewrite app_nil_r, length_app. cbn [length]. intros Hinv.
    rewrite size_difference by (by apply singleton_subseteq_l).
    rewrite size_singleton.
    assert (0 < size (pendingTimers r))%nat; [|lia].
    destruct (decide (size (pendingTimers r) = 0%nat)) as [Hz|]; [|lia].
    apply size_empty_inv in Hz. apply Hz in Hin. by apply not_elem_of_empty in Hin.
  - by intros [= <-].
  - intros [= <-]. unfold removeMessageQueue. by destruct (messageQueues r !! id).
Qed.

(** X14.  Every teardown answers a disconnect of its own: in any run
    from the initial registry, [connectionLost] has been emitted at most
    as often as [connectionRemoved], counting the timers that are still
    pending as teardowns to come. *)
Theorem X14_teardowns_bounded_by_disconnects (actions : list Action) (r : Registry) :
  run actions initial = Some r →
  (emittedCount isConnectionLost r + size (pendingTimers r)
   ≤ emittedCount isConnectionRemoved r)%nat.
Proof.
  assert (Hgen : ∀ actions r0 r1,
    run actions r0 = Some r1 →
    (emittedCount isConnectionLost r0 + size (pendingTimers r0)
     ≤ emittedCount isConnectionRemoved r0)%nat →
    (emittedCount isConnectionLost r1 + size (pendingTimers r1)
     ≤ emittedCount isConnectionRemoved r1)%nat).
  { clear. induction actions as [|a actions IH]; intros r0 r1; cbn [run].
    - by intros [= <-].
    - destruct (step a r0) as [r2|] eqn:Hstep; [|done].
      intros Hrun Hinv. apply (IH _ _ Hrun). by eapply step_teardowns. }
  intros Hrun. apply (Hgen _ _ _ Hrun). unfold emittedCount. cbn. by rewrite size_empty.
Qed.

End RegistryLife.

Lemma X10_removed_queue_witness :
  messageQueues (removeMessageQueue "req-0" exampleRouting) !! "req-0" = None
  ∧ queueStore (removeMessageQueue "req-0" exampleRouting) !! 0%nat
    = Some {| messages := []; closed := true |}
  ∧ removeMessageQueue "req-0" (removeMessageQueue "req-0" exampleRouting)
    = removeMessageQueue "req-0" exampleRouting.
Proof.
  destruct (@X10_removed_queue exampleHost "req-0" exampleRouting 0 MessageQueue.new
              eq_refl eq_refl) as (Hgone & Hclosed & _ & _ & Hagain & _).
  by repeat split.
Defined.

Lemma X11_rebound_id_orphans_first_queue_witness :
  match run afterRebinding
          (createMessageQueue "req-0"
             (createMessageQueue "req-0" (addConnection 1 initial)).2).2 with
  | Some r' => queueStore r' !! 0%nat = Some MessageQueue.new
  | None => False
  end.
Proof.
  destruct (run afterRebinding _) as [r'|] eqn:Hrun; [|vm_compute in Hrun; discriminate].
  exact (proj2 (proj2 (@X11_rebound_id_orphans_first_queue exampleHost [Connect 1]
                         afterRebinding (addConnection 1 initial) r' "req-0" eq_refl Hrun))).
Defined.

Lemma X12_one_peer_at_a_time_witness :
  match run onePeerTrace initial with
  | Some r => onePeerInv r
  | None => False
  end.
Proof.
  destruct (run onePeerTrace initial) as [r|] eqn:Hrun; [|vm_compute in Hrun; discriminate].
  apply (@X12_one_peer_at_a_time exampleHost onePeerTrace r Hrun).
  vm_compute. tauto.
Defined.

Lemma X13_grace_expiry_witness :
  match step (TimerFires 0) exampleGrace with
  | Some r' =>
      messageQueues r' = ∅
      ∧ queueStore r' !! 0%nat = Some {| messages := []; closed := true |}
      ∧ reconnectGraceTimer r' = Some 0%nat
  | None => False
  end.
Proof.
  destruct (step (TimerFires 0) exampleGrace) as [r'|] eqn:Hstep;
    [|vm_compute in Hstep; discriminate].
  destruct (@X13_grace_expiry exampleHost 0 exampleGrace r' Hstep)
    as (Hmap & Hclosed & _ & _ & _ & Hhandle & _).
  split; [exact Hmap|]. split; [|exact Hhandle].
  apply (Hclosed "req-0" 0%nat MessageQueue.new); vm_compute; reflexivity.
Defined.

Lemma X14_teardowns_bounded_by_disconnects_witness :
  match run onePeerTrace initial with
  | Some r =>
      (emittedCount isConnectionLost r + size (pendingTimers r)
       ≤ emittedCount isConnectionRemoved r)%nat
  | None => False
  end.
Proof.
  destruct (run onePeerTrace initial) as [r|] eqn:Hrun; [|vm_compute in Hrun; discriminate].
  exact (@X14_teardowns_bounded_by_disconnects exampleHost onePeerTrace r Hrun).
Defined.

(* ===================================================================== *)
(** * Properties of the logging service *)
(* ===================================================================== *)

Lemma lastN_short {A} (n : nat) (xs : list A) : (length xs ≤ n)%nat → lastN n xs = xs.
Proof. intros Hlen. unfold lastN. by replace (length xs - n)%nat with 0%nat by lia. Qed.

Lemma lastN_length {A} (n : nat) (xs : list A) : (length (lastN n xs) ≤ n)%nat.
Proof. unfold lastN. rewrite length_drop. lia. Qed.

Lemma lastN_snoc {A} (n : nat) (xs : list A) (x : A) :
  lastN n (lastN n xs ++ [x]) = lastN n (xs ++ [x]).
Proof.
  destruct (decide (length xs ≤ n)%nat) as [Hle|Hgt]; [by rewrite (lastN_short n xs)|].
  unfold lastN. rewrite !length_app, length_drop. cbn [length].
  destruct n as [|n].
  - rewrite !drop_ge; [done| |]; rewrite length_app; cbn [length]; try rewrite length_drop; lia.
  - rewrite !drop_app_le by (rewrite ?length_drop; lia).
    rewrite drop_drop. f_equal. f_equal. lia.
Qed.

(** One push and at most one shift. *)
Lemma _formatMessage_buffer timestamp level message l :
  (length (LoggingService.logBuffer l) ≤ LoggingService.maxBufferSize l)%nat →
  LoggingService.logBuffer (LoggingService._formatMessage timestamp level message l).2
  = lastN (LoggingService.maxBufferSize l)
      (LoggingService.logBuffer l ++ [LoggingService.formatted l timestamp level message]).
Proof.
  intros Hlen. unfold LoggingService._formatMessage.
  cbn [snd LoggingService.logBuffer LoggingService.maxBufferSize].
  rewrite length_app. cbn [length].
  destruct (Nat.ltb_spec (LoggingService.maxBufferSize l)
              (length (LoggingService.logBuffer l) + 1)) as [Hlt|Hge].
  - unfold lastN. rewrite length_app. cbn [length].
    replace (length (LoggingService.logBuffer l) + 1 - LoggingService.maxBufferSize l)%nat
      with 1%nat by lia.
    by destruct (LoggingService.logBuffer l).
  - rewrite lastN_short; [done|]. rewrite length_app. cbn [length]. lia.
Qed.

Lemma logCall_buffer currentLevel c l :
  (length (LoggingService.logBuffer l) ≤ LoggingService.maxBufferSize l)%nat →
  LoggingService.serviceName (logCall currentLevel c l).2 = LoggingService.serviceName l
  ∧ LoggingService.maxBufferSize (logCall currentLevel c l).2 = LoggingService.maxBufferSize l
  ∧ LoggingService.displayLimit (logCall currentLevel c l).2 = LoggingService.displayLimit l
  ∧ (logCall currentLevel c l).1 = lineOf currentLevel l c
  ∧ LoggingService.logBuffer (logCall currentLevel c l).2
    = lastN (LoggingService.maxBufferSize l)
        (LoggingService.logBuffer l ++ option_list (lineOf currentLevel l c)).
Proof.
  intros Hlen.
  destruct c as [ts m|ts m|ts m|ts m]; cbn [logCall lineOf];
    unfold LoggingService.info, LoggingService.error, LoggingService.warn,
      LoggingService.debug.
  1-3: repeat split; try done; by apply _formatMessage_buffer.
  destruct (currentLevel <=? 0).
  - repeat split; try done. by apply _formatMessage_buffer.
  - repeat split; try done. cbn [snd option_list]. rewrite app_nil_r.
    by rewrite lastN_short.
Qed.

Lemma lineOf_name currentLevel l l' c :
  LoggingService.serviceName l' = LoggingService.serviceName l →
  lineOf currentLevel l' c = lineOf currentLevel l c.
Proof.
  intros Hname. destruct c; cbn; unfold LoggingService.formatted; by rewrite Hname.
Qed.

(** X15.  The buffer of a logger keeps the most recent lines: after any
    series of logging calls on a new logger it holds, in call order, the
    last [maxBufferSize] of the lines those calls formatted, and never
    more than [maxBufferSize] lines.  A [debug] call formats a line, and
    reaches the console, only at level DEBUG; every other call always
    does. *)
Theorem X15_log_buffer_keeps_latest (currentLevel : Z) (serviceName : string)
    (calls : list LogCall) :
  let l := LoggingService.new serviceName in
  LoggingService.logBuffer (logCalls currentLevel calls l)
  = lastN (LoggingService.maxBufferSize l) (omap (lineOf currentLevel l) calls)
  ∧ (length (LoggingService.logBuffer (logCalls currentLevel calls l))
     ≤ LoggingService.maxBufferSize l)%nat
  ∧ (length (LoggingService.logBuffer (logCalls currentLevel calls l))
     ≤ length calls)%nat.
Proof.
  intros l.
  assert (Hgen : ∀ calls l0 seen,
    LoggingService.serviceName l0 = LoggingService.serviceName l →
    LoggingService.maxBufferSize l0 = LoggingService.maxBufferSize l →
    LoggingService.logBuffer l0 = lastN (LoggingService.maxBufferSize l) seen →
    LoggingService.logBuffer (logCalls currentLevel calls l0)
    = lastN (LoggingService.maxBufferSize l) (seen ++ omap (lineOf currentLevel l) calls)).
  { clear calls. induction calls as [|c calls IH]; intros l0 seen Hname Hmax Hbuf.
    - cbn. by rewrite app_nil_r.
    - cbn [logCalls fold_left omap list_omap].
      assert (Hlen : (length (LoggingService.logBuffer l0)
                      ≤ LoggingService.maxBufferSize l0)%nat).
      { rewrite Hbuf, Hmax. apply lastN_length. }
      destruct (logCall_buffer currentLevel c l0 Hlen) as (Hn & Hm & _ & _ & Hb).
      rewrite (lineOf_name _ l l0 c Hname) in Hb.
      fold (logCalls currentLevel calls (logCall currentLevel c l0).2).
      destruct (lineOf currentLevel l c) as [line|] eqn:Hline; cbn [option_list] in Hb.
      + rewrite (IH _ (seen ++ [line])%list); [by rewrite <- app_assoc|congruence|congruence|].
        rewrite Hb, Hmax, Hbuf. apply lastN_snoc.
      + rewrite (IH _ seen); [done|congruence|congruence|].
        rewrite Hb, app_nil_r, Hmax. rewrite lastN_short; [done|].
        rewrite Hbuf. apply lastN_length. }
  specialize (Hgen calls l [] eq_refl eq_refl eq_refl). cbn [app] in Hgen.
  split; [exact Hgen|]. rewrite Hgen. split; [apply lastN_length|].
  unfold lastN. rewrite length_drop.
  assert (length (omap (lineOf currentLevel l) calls) ≤ length calls)%nat; [|lia].
  clear. induction calls as [|c calls IH]; [done|].
  cbn [omap list_omap]. destruct (lineOf currentLevel l c); cbn [length]; lia.
Qed.

Section LogLevels.
Variable toUpperCase : string → string.

Lemma levelOf_cases name value :
  LoggingService.levelOf LoggingService.LEVELS name = Some value →
  (name = "DEBUG" ∧ value = 0) ∨ (name = "ERROR" ∧ value = 3)
  ∨ (name = "INFO" ∧ value = 1) ∨ (name = "WARN" ∧ value = 2).
Proof.
  cbn.
  destruct (String.eqb_spec name "DEBUG") as [->|_]; [intros [= <-]; auto|].
  destruct (String.eqb_spec name "ERROR") as [->|_]; [intros [= <-]; auto|].
  destruct (String.eqb_spec name "INFO") as [->|_]; [intros [= <-]; auto|].
  destruct (String.eqb_spec name "WARN") as [->|_]; [intros [= <-]; auto 6|done].
Qed.

Lemma getLevel_levelOf name value :
  LoggingService.levelOf LoggingService.LEVELS name = Some value →
  LoggingService.getLevel value = Some name.
Proof. by intros [[-> ->]|[[-> ->]|[[-> ->]|[-> ->]]]]%levelOf_cases. Qed.

(** X16.  The level of the class is whatever the last [setLevel] call
    with a valid name asked for, and otherwise what it was: after any
    series of calls from a valid level, [getLevel] returns the upper-cased
    name of the last call whose upper-cased name is one of the four level
    names, or the name of the starting level when there is none; it never
    returns [undefined].  [isDebugEnabled] holds exactly at level DEBUG. *)
Theorem X16_last_valid_level_wins (levels : list string) (currentLevel : Z) :
  levelValid currentLevel →
  levelValid (setLevels toUpperCase levels currentLevel)
  ∧ LoggingService.getLevel (setLevels toUpperCase levels currentLevel)
    = match lastValidLevel toUpperCase levels with
      | Some name => Some name
      | None => LoggingService.getLevel currentLevel
      end
  ∧ is_Some (LoggingService.getLevel (setLevels toUpperCase levels currentLevel))
  ∧ (LoggingService.isDebugEnabled (setLevels toUpperCase levels currentLevel) = true
     ↔ LoggingService.getLevel (setLevels toUpperCase levels currentLevel) = Some "DEBUG").
Proof.
  intros Hvalid.
  assert (Hgen : ∀ levels cur, levelValid cur →
    levelValid (setLevels toUpperCase levels cur)
    ∧ LoggingService.getLevel (setLevels toUpperCase levels cur)
      = match lastValidLevel toUpperCase levels with
        | Some name => Some name
        | None => LoggingService.getLevel cur
        end).
  { clear. induction levels as [|level levels IH]; intros cur Hcur; [done|].
    change (setLevels toUpperCase (level :: levels) cur)
      with (setLevels toUpperCase levels (LoggingService.setLevel toUpperCase level cur)).
    unfold lastValidLevel in *. cbn [map List.filter].
    unfold LoggingService.setLevel.
    destruct (LoggingService.levelOf LoggingService.LEVELS (toUpperCase level))
      as [value|] eqn:Hlevel.
    - rewrite bool_decide_eq_true_2 by (by eexists).
      destruct (IH value) as [Hv Hget]; [by eexists|]. split; [exact Hv|].
      rewrite Hget.
      destruct (List.filter _ (map toUpperCase levels)) as [|n ns] eqn:Hf.
      + cbn [last]. by apply getLevel_levelOf.
      + rewrite last_cons_cons. destruct (last (n :: ns)) eqn:Hl; [done|].
        by apply last_None in Hl.
    - rewrite bool_decide_eq_false_2 by (by intros [? ?]).
      by apply IH. }
  destruct (Hgen levels currentLevel Hvalid) as [Hv Hget].
  split; [done|]. split; [done|].
  destruct Hv as [name Hname]. pose proof (getLevel_levelOf _ _ Hname) as Hg.
  split; [by rewrite Hg|].
  rewrite Hg. unfold LoggingService.isDebugEnabled.
  destruct (levelOf_cases _ _ Hname) as [[-> ->]|[[-> ->]|[[-> ->]|[-> ->]]]]; by split.
Qed.

End LogLevels.

Lemma X16_last_valid_level_wins_witness :
  LoggingService.getLevel (setLevels (fun s => s) ["WARN"; "verbose"] 1) = Some "WARN".
Proof.
  refine (proj1 (proj2 (X16_last_valid_level_wins (fun s => s) ["WARN"; "verbose"] 1 _))).
  by exists "INFO".
Defined.

(* ===================================================================== *)
(** * Properties of the identity seed *)
(* ===================================================================== *)

Lemma toInt32_range x : - 2 ^ 31 ≤ BrowserManager.toInt32 x < 2 ^ 31.
Proof.
  unfold BrowserManager.toInt32.
  pose proof (Z.mod_pos_bound x (2 ^ 32) ltac:(lia)) as Hm.
  destruct (Z.ltb_spec (x mod 2 ^ 32) (2 ^ 31)); lia.
Qed.

Lemma toInt32_shift x k : BrowserManager.toInt32 (x + k * 2 ^ 32) = BrowserManager.toInt32 x.
Proof. unfold BrowserManager.toInt32. by rewrite Z_mod_plus_full. Qed.

Lemma toInt32_multiple x : ∃ k, BrowserManager.toInt32 x = x + k * 2 ^ 32.
Proof.
  unfold BrowserManager.toInt32.
  pose proof (Z.div_mod x (2 ^ 32) ltac:(lia)) as Hdiv.
  destruct (Z.ltb_spec (x mod 2 ^ 32) (2 ^ 31)).
  - exists (- (x / 2 ^ 32)). lia.
  - exists (- (x / 2 ^ 32) - 1). lia.
Qed.

Lemma hashStep_polynomial p c :
  BrowserManager.hashStep (BrowserManager.toInt32 p) c = BrowserManager.toInt32 (31 * p + c).
Proof.
  unfold BrowserManager.hashStep, BrowserManager.shiftLeft. rewrite Z.lor_0_r.
  change (Z.land 5 31) with 5. rewrite Z.shiftl_mul_pow2 by lia.
  destruct (toInt32_multiple p) as [k1 Hk1].
  destruct (toInt32_multiple (BrowserManager.toInt32 p)) as [k0 Hk0].
  destruct (toInt32_multiple (BrowserManager.toInt32 (BrowserManager.toInt32 p) * 2 ^ 5))
    as [k2 Hk2].
  rewrite Hk2, Hk0, Hk1.
  replace ((p + k1 * 2 ^ 32 + k0 * 2 ^ 32) * 2 ^ 5 + k2 * 2 ^ 32 - (p + k1 * 2 ^ 32) + c)
    with (31 * p + c + (32 * k1 + 32 * k0 + k2 - k1) * 2 ^ 32) by lia.
  apply toInt32_shift.
Qed.

Lemma hashStep_loop str : ∀ p,
  fold_left BrowserManager.hashStep str (BrowserManager.toInt32 p)
  = BrowserManager.toInt32 (polynomial31 p str).
Proof.
  induction str as [|c str IH]; intros p; [done|].
  cbn [fold_left polynomial31]. rewrite hashStep_polynomial. apply IH.
Qed.

(** X17.  The identity seed of a string is the absolute value of a
    signed 32-bit hash: the polynomial in 31 over the code units of the
    string, reduced modulo 2^32 to the signed range.  Hence the seed lies
    between 0 and 2^31 inclusive, and two strings whose polynomials agree
    modulo 2^32 have the same seed. *)
Theorem X17_identity_seed_is_polynomial_hash (str : list Z) :
  BrowserManager._generateIdentitySeed str
  = Z.abs (BrowserManager.toInt32 (polynomial31 0 str))
  ∧ 0 ≤ BrowserManager._generateIdentitySeed str ≤ 2 ^ 31
  ∧ ∀ other, (polynomial31 0 other) mod 2 ^ 32 = (polynomial31 0 str) mod 2 ^ 32 →
      BrowserManager._generateIdentitySeed other = BrowserManager._generateIdentitySeed str.
Proof.
  assert (Hseed : ∀ s, BrowserManager._generateIdentitySeed s
                       = Z.abs (BrowserManager.toInt32 (polynomial31 0 s))).
  { intros s. unfold BrowserManager._generateIdentitySeed.
    change 0 with (BrowserManager.toInt32 0) at 1. by rewrite hashStep_loop. }
  split; [apply Hseed|]. split.
  - rewrite Hseed. pose proof (toInt32_range (polynomial31 0 str)). lia.
  - intros other Hmod. rewrite !Hseed. unfold BrowserManager.toInt32. by rewrite Hmod.
Qed.

(* ===================================================================== *)
(** * Properties of the web routes *)
(* ===================================================================== *)

Section WebRoutesProperties.
Context `{WebRoutes.Pages}.

(** One request of a client that is not logged in and does not present
    a configured key. *)
Lemma handle_anonymous request session server :
  truthy (WebRoutes.isAuthenticated session) = false →
  isValidLogin server request = false →
  match WebRoutes.handle request session server with
  | Ret (response, session', server') =>
      session' = session ∧ server' = server ∧ isLoginOnly (Some response)
  | Throw _ => True
  end.
Proof.
  intros Hanon Hinvalid.
  destruct request as [queryError|body| | |body|]; cbn [WebRoutes.handle];
    unfold WebRoutes.guarded, WebRoutes.get_login; rewrite ?Hanon; cbn [bind];
    try (split; [done|split; [done|]]; cbn; eauto).
  unfold WebRoutes.post_login, getProp. cbn [isValidLogin] in Hinvalid.
  destruct (nullish body); cbn [bind]; [done|].
  destruct (truthy (field body "apiKey")); cbn [andb] in Hinvalid; cbn [bind].
  - destruct (WebRoutes.apiKeys server) as [keys|]; [|done].
    rewrite Hinvalid. cbn. auto.
  - cbn. auto.
Qed.

(** X18.  Without a login request that carries one of the configured
    keys (a truthy [apiKey] that [includes] finds among them), a fresh
    session gets nowhere: whatever else the client sends, the session
    stays unauthenticated, the server state (mode, flags, log) is not
    touched, and every answer is the login page or a redirect to it. *)
Theorem X18_no_access_without_a_configured_key (requests : list WebRoutes.Request)
    (server : WebRoutes.Server) :
  forallb (fun request => negb (isValidLogin server request)) requests = true →
  ∃ responses session',
    WebRoutes.serve requests WebRoutes.freshSession server = (responses, session', server)
    ∧ truthy (WebRoutes.isAuthenticated session') = false
    ∧ Forall isLoginOnly responses.
Proof.
  assert (Hgen : ∀ requests session,
    truthy (WebRoutes.isAuthenticated session) = false →
    forallb (fun request => negb (isValidLogin server request)) requests = true →
    ∃ responses session',
      WebRoutes.serve requests session server = (responses, session', server)
      ∧ truthy (WebRoutes.isAuthenticated session') = false
      ∧ Forall isLoginOnly responses).
  { clear requests. induction requests as [|request requests IH]; intros session Hanon Hreqs.
    - by exists [], session.
    - cbn [forallb] in Hreqs. apply andb_true_iff in Hreqs as [Hreq Hreqs].
      apply negb_true_iff in Hreq.
      pose proof (handle_anonymous request session server Hanon Hreq) as Hstep.
      cbn [WebRoutes.serve].
      destruct (WebRoutes.handle request session server) as [[[response s1] srv1]|e].
      + destruct Hstep as (-> & -> & Hresp).
        destruct (IH session Hanon Hreqs) as (responses & session' & -> & Hs & Hrs).
        eexists _, _. split; [reflexivity|]. split; [done|]. by constructor.
      + destruct (IH session Hanon Hreqs) as (responses & session' & -> & Hs & Hrs).
        eexists _, _. split; [reflexivity|]. split; [done|]. by constructor. }
  intros Hreqs. by apply Hgen.
Qed.

Ltac settle :=
  intros;
  first [ done
        | match goal with
          | H0 : ?t = false, H1 : ?t = true |- _ => rewrite H0 in H1; discriminate
          end ].

(** What one request can change. *)
Lemma handle_changes request session server response session' server' :
  WebRoutes.handle request session server = Ret (response, session', server') →
  (truthy (WebRoutes.isAuthenticated session) = true →
   truthy (WebRoutes.isAuthenticated session') = true)
  ∧ (truthy (WebRoutes.isAuthenticated session) = false →
     truthy (WebRoutes.isAuthenticated session') = true →
     isValidLogin server request = true)
  ∧ WebRoutes.apiKeys server' = WebRoutes.apiKeys server
  ∧ (WebRoutes.streamingMode server' = WebRoutes.streamingMode server
     ∨ WebRoutes.streamingMode server' = JStr "fake"
     ∨ WebRoutes.streamingMode server' = JStr "real")
  ∧ forceWebSearch (WebRoutes.system server') = forceWebSearch (WebRoutes.system server)
  ∧ forceUrlContext (WebRoutes.system server') = forceUrlContext (WebRoutes.system server).
Proof.
  destruct request as [queryError|body| | |body|]; cbn [WebRoutes.handle].
  - intros [= _ <- <-]. repeat split; auto; settle.
  - intros ([r s] & Hlogin & [= _ <- <-])%bind_Ret_inv.
    unfold WebRoutes.post_login in Hlogin.
    apply bind_Ret_inv in Hlogin as (apiKey & Hkey & Hlogin).
    unfold getProp in Hkey. destruct (nullish body); [done|]. injection Hkey as <-.
    cbn [isValidLogin].
    destruct (truthy (field body "apiKey")).
    + destruct (WebRoutes.apiKeys server) as [keys|]; [|done].
      destruct (WebRoutes.includes keys (field body "apiKey"));
        injection Hlogin as _ <-; repeat split; auto; settle.
    + injection Hlogin as _ <-. repeat split; auto; settle.
  - unfold WebRoutes.guarded. destruct (truthy (WebRoutes.isAuthenticated session)) eqn:Hs;
      cbn [bind]; intros [= _ <- <-]; repeat split; auto; settle.
  - unfold WebRoutes.guarded. destruct (truthy (WebRoutes.isAuthenticated session)) eqn:Hs;
      cbn [bind]; intros [= _ <- <-]; repeat split; auto; settle.
  - unfold WebRoutes.guarded. destruct (truthy (WebRoutes.isAuthenticated session)) eqn:Hs.
    2:{ cbn [bind]. intros [= _ <- <-]. repeat split; auto; settle. }
    intros ([r srv] & Hmode & [= _ <- <-])%bind_Ret_inv.
    unfold WebRoutes.post_set_mode in Hmode.
    apply bind_Ret_inv in Hmode as (newMode & _ & Hmode).
    destruct (strictEqStr newMode "fake") eqn:Hfake; cbn [orb] in Hmode.
    { injection Hmode as _ <-. cbn. repeat split; auto; try (settle).
      destruct newMode; try done. cbn in Hfake. apply String.eqb_eq in Hfake as ->. auto. }
    destruct (strictEqStr newMode "real") eqn:Hreal.
    { injection Hmode as _ <-. cbn. repeat split; auto; try (settle).
      destruct newMode; try done. cbn in Hreal. apply String.eqb_eq in Hreal as ->. auto. }
    injection Hmode as _ <-. repeat split; auto; settle.
  - unfold WebRoutes.guarded. destruct (truthy (WebRoutes.isAuthenticated session)) eqn:Hs;
      cbn [bind]; intros [= _ <- <-]; repeat split; auto; settle.
Qed.

(** X19.  What a client's requests can change, whoever sends them: a
    session that is authenticated stays so, and one that was not becomes
    so only by a login request with a configured key; the configured keys
    and the two search flags are never touched; and the streaming mode is
    what it was, or one of "fake" and "real". *)
Theorem X19_what_the_routes_can_change (requests : list WebRoutes.Request)
    (session session' : WebRoutes.Session) (server server' : WebRoutes.Server)
    (responses : list (option WebRoutes.Response)) :
  WebRoutes.serve requests session server = (responses, session', server') →
  (truthy (WebRoutes.isAuthenticated session) = true →
   truthy (WebRoutes.isAuthenticated session') = true)
  ∧ (truthy (WebRoutes.isAuthenticated session) = false →
     truthy (WebRoutes.isAuthenticated session') = true →
     existsb (isValidLogin server) requests = true)
  ∧ WebRoutes.apiKeys server' = WebRoutes.apiKeys server
  ∧ (WebRoutes.streamingMode server' = WebRoutes.streamingMode server
     ∨ WebRoutes.streamingMode server' = JStr "fake"
     ∨ WebRoutes.streamingMode server' = JStr "real")
  ∧ forceWebSearch (WebRoutes.system server') = forceWebSearch (WebRoutes.system server)
  ∧ forceUrlContext (WebRoutes.system server') = forceUrlContext (WebRoutes.system server)
  ∧ length responses = length requests.
Proof.
  revert session server responses.
  induction requests as [|request requests IH]; intros session server responses;
    cbn [WebRoutes.serve].
  { intros [= <- <- <-]. repeat split; auto. settle. }
  destruct (WebRoutes.handle request session server) as [[[response s1] srv1]|e] eqn:Hstep.
  - destruct (WebRoutes.serve requests s1 srv1) as [[rs s2] srv2] eqn:Hrest.
    intros [= <- <- <-].
    destruct (handle_changes _ _ _ _ _ _ Hstep) as (Hstay & Hlogin & Hkeys & Hmode & Hws & Huc).
    destruct (IH _ _ _ Hrest) as (Hstay' & Hlogin' & Hkeys' & Hmode' & Hws' & Huc' & Hlen).
    split; [auto|]. split.
    { intros Hanon Hauth. cbn [existsb]. apply orb_true_iff.
      destruct (truthy (WebRoutes.isAuthenticated s1)) eqn:Hs1; [left; auto|].
      right. specialize (Hlogin' eq_refl Hauth).
      rewrite <- Hlogin'. clear -Hkeys. induction requests as [|r rs IHr]; [done|].
      cbn [existsb]. rewrite IHr. f_equal.
      destruct r; try done. cbn [isValidLogin]. by rewrite Hkeys. }
    split; [congruence|]. split.
    { destruct Hmode' as [-> | [-> | ->]]; auto. }
    split; [congruence|]. split; [congruence|]. cbn [length]. by rewrite Hlen.
  - destruct (WebRoutes.serve requests session server) as [[rs s2] srv2] eqn:Hrest.
    intros [= <- <- <-].
    destruct (IH _ _ _ Hrest) as (Hstay' & Hlogin' & Hkeys' & Hmode' & Hws' & Huc' & Hlen).
    split; [auto|]. split.
    { intros Hanon Hauth. cbn [existsb]. apply orb_true_iff. right. auto. }
    repeat split; auto. cbn [length]. by rewrite Hlen.
Qed.

End WebRoutesProperties.

Lemma X18_no_access_without_a_configured_key_witness :
  ∃ responses session',
    WebRoutes.serve (H:=examplePages) anonymousRequests WebRoutes.freshSession exampleServer
    = (responses, session', exampleServer)
    ∧ truthy (WebRoutes.isAuthenticated session') = false
    ∧ Forall (isLoginOnly (H:=examplePages)) responses.
Proof.
  apply (@X18_no_access_without_a_configured_key examplePages anonymousRequests exampleServer).
  reflexivity.
Defined.

Lemma X19_what_the_routes_can_change_witness :
  truthy (WebRoutes.isAuthenticated
            (WebRoutes.serve (H:=examplePages) loggedInRequests
               WebRoutes.freshSession exampleServer).1.2) = true
  ∧ WebRoutes.streamingMode
      (WebRoutes.serve (H:=examplePages) loggedInRequests
         WebRoutes.freshSession exampleServer).2 = JStr "fake"
  ∧ existsb (isValidLogin exampleServer) loggedInRequests = true.
Proof.
  destruct (WebRoutes.serve (H:=examplePages) loggedInRequests WebRoutes.freshSession
              exampleServer) as [[responses session'] server'] eqn:Hserve.
  destruct (@X19_what_the_routes_can_change examplePages _ _ _ _ _ _ Hserve)
    as (_ & Hlogin & _).
  vm_compute in Hserve. injection Hserve as _ <- <-.
  split; [reflexivity|]. split; [reflexivity|]. by apply Hlogin.
Defined.

(* ===================================================================== *)
(** * Usage records at the edges *)
(* ===================================================================== *)

(** X20.  [_parseUsage] raises on [null] and [undefined] and on nothing
    else; on a response whose [usageMetadata] is missing (or falsy) it
    returns the record with every counter, details included, at zero. *)
Theorem X20_usage_without_metadata (googleResponse : JsVal) :
  (nullish googleResponse = true → _parseUsage googleResponse = Throw "TypeError")
  ∧ (nullish googleResponse = false → ∃ usage, _parseUsage googleResponse = Ret usage)
  ∧ (nullish googleResponse = false →
     truthy (field googleResponse "usageMetadata") = false →
     _parseUsage googleResponse = Ret zeroUsage).
Proof.
  unfold _parseUsage, getProp. split; [by intros ->|]. split.
  - intros ->. cbn [bind]. by eexists.
  - intros -> Hfalsy. cbn [bind].
    destruct (field googleResponse "usageMetadata") as [| |b|n| |s|xs|fs];
      try done; [destruct b|destruct n|destruct s]; done.
Qed.

Lemma X20_usage_without_metadata_witness :
  _parseUsage (JObj [("candidates", JArr [])]) = Ret zeroUsage.
Proof.
  by apply (proj2 (proj2 (X20_usage_without_metadata (JObj [("candidates", JArr [])])))).
Defined.

Lemma includesIndex_filter available initial index :
  WebRoutes.includesIndex
    (List.filter (fun i => negb (WebRoutes.includesIndex available i)) initial) index
  = WebRoutes.includesIndex initial index && negb (WebRoutes.includesIndex available index).
Proof.
  unfold WebRoutes.includesIndex at 1 3.
  induction initial as [|i initial IH]; [done|]. cbn [List.filter existsb].
  destruct (Z.eqb_spec index i) as [->|Hne].
  - destruct (WebRoutes.includesIndex available i); cbn [negb existsb andb orb].
    + rewrite IH. by rewrite andb_false_r.
    + by rewrite Z.eqb_refl.
  - destruct (WebRoutes.includesIndex available i); cbn [negb existsb orb]; [done|].
    by destruct (Z.eqb_spec index i).
Qed.

Lemma includesIndex_self initial index :
  index ∈ initial → WebRoutes.includesIndex initial index = true.
Proof.
  intros Hin. unfold WebRoutes.includesIndex. apply existsb_exists.
  exists index. split; [by apply list_elem_of_In|apply Z.eqb_refl].
Qed.

(** X21.  The status data and the status page agree on the accounts
    when [availableIndices] is an array: both list every initial index
    once, in order, under the same name (an index that is not available is
    "N/A (JSON format error)" whatever the name map says, an available one
    has its name from the map, or "N/A (Unnamed)" when that is missing or
    empty), and both report the same totals.  When [availableIndices] is
    not set and there is an initial index, the status data raises where the
    page renders every account as a format error. *)
Theorem X21_status_data_and_page_agree (authSource : WebRoutes.AuthSource) :
  let initial := default [] (WebRoutes.initialIndices authSource) in
  (∀ available, WebRoutes.availableIndices authSource = Some available →
     ∃ details invalidLine,
       WebRoutes._getStatusData authSource
       = Ret (WebRoutes.totalLine initial, details, invalidLine)
       ∧ ∃ options,
           WebRoutes._generateStatusPage authSource
           = (WebRoutes.totalLine initial,
              String.concat newline
                (map (fun d => WebRoutes.accountLine d.1 d.2) details),
              invalidLine, options)
       ∧ details.*1 = initial
       ∧ Forall (fun d =>
                   d.2 = if WebRoutes.includesIndex available d.1
                         then js_or (default JUndefined
                                       (WebRoutes.accountNameMap authSource !! d.1))
                                    (JStr "N/A (Unnamed)")
                         else JStr "N/A (JSON format error)") details)
  ∧ (WebRoutes.availableIndices authSource = None → initial ≠ [] →
     WebRoutes._getStatusData authSource = Throw "TypeError"
     ∧ (WebRoutes._generateStatusPage authSource).1.1.2
       = String.concat newline
           (map (fun index => WebRoutes.accountLine index (JStr "N/A (JSON format error)"))
                initial)).
Proof.
  intros initial. split.
  - intros available Havailable.
    unfold WebRoutes._getStatusData, WebRoutes._generateStatusPage.
    rewrite Havailable. cbn [bind default]. fold initial.
    eexists _, _. split; [reflexivity|]. eexists. split.
    { f_equal. f_equal. f_equal. f_equal. by rewrite map_map. }
    split.
    { rewrite <- list_fmap_compose. cbn. apply list_fmap_id. }
    apply Forall_forall. intros d Hd. apply list_elem_of_In, in_map_iff in Hd as (index & <- & Hin).
    cbn [fst snd]. unfold WebRoutes.accountName. rewrite includesIndex_filter.
    rewrite (includesIndex_self initial index) by (by apply list_elem_of_In).
    by destruct (WebRoutes.includesIndex available index).
  - intros Hnone Hinitial.
    unfold WebRoutes._getStatusData, WebRoutes._generateStatusPage.
    rewrite Hnone. cbn [default fst snd]. fold initial. split.
    { by destruct initial. }
    f_equal. apply map_ext_in. intros index Hin. f_equal.
    unfold WebRoutes.accountName. rewrite includesIndex_filter.
    by rewrite (includesIndex_self initial index) by (by apply list_elem_of_In).
Qed.

Lemma X21_status_data_and_page_agree_witness :
  ∃ invalidLine,
    WebRoutes._getStatusData exampleAuthSource
    = Ret (WebRoutes.totalLine [0; 1; 2],
           [(0, JStr "a@example.org"); (1, JStr "N/A (JSON format error)");
            (2, JStr "N/A (Unnamed)")],
           invalidLine).
Proof.
  destruct (proj1 (X21_status_data_and_page_agree exampleAuthSource) [0; 2] eq_refl)
    as (details & invalidLine & Hdata & _).
  exists invalidLine. rewrite Hdata. vm_compute in Hdata. by injection Hdata as <- _.
Defined.

Lemma C5_injection_idempotent_witness :
  ∃ request : JsObj,
    exampleMixedRequest = JObj request
    ∧ injectForcedTools forceAll request = Ret request
    ∧ (toolCount "googleSearch" request ≤ 1)%nat
    ∧ (toolCount "urlContext" request ≤ 1)%nat.
Proof.
  destruct (proj2 (@C5_injection_idempotent exampleHost forceAll)
              {| streamUsage := JNull |} exampleMixedBody exampleMixedRequest)
    as (request & Heq & Hagain & Hcount); [reflexivity|].
  exists request. split; [exact Heq|]. split; [exact Hagain|]. split; apply Hcount.
Defined.
